(** * .fluid: flows, artifacts, tool calls and undo/redo (src/index.tsx)

    A shallow embedding of the state-handling code of [src/index.tsx], the
    properties its specification states about it (C1 to C10), and further
    properties of the code (X1 to X20): loading and saving, whole turns,
    flow management, the store invariant, the undo stack, and the absence
    of sharing between flows and snapshots.

    Modelling conventions.
    - A JS string is a Rocq [string]; [===] on strings is [String.eqb].
    - JS objects that the program mutates in place or keeps more than one
      reference to (Flow objects, their [history] / [snapshots] / [artifacts]
      arrays, Artifact objects) live in an explicit heap; a reference is a
      location.  Message and Snapshot objects are never mutated after they
      are built, so arrays hold them by value.
    - [state.flows] is a JS object used as a map: an association list in
      own-key order.  The keys the program adds are the flow ids it
      generates ([flow-<ms>]), none of which is an array index, so they go
      to the end; [JSON.parse] of stored text can meet any key, and puts
      array indices first.  A read [state.flows[k]] is a lookup among the
      own keys; [loadFlows], which reads with a string taken from
      [localStorage], also finds the members inherited from
      [Object.prototype], and the properties about [init] are stated for a
      stored active id on which the two lookups agree.
    - [localStorage] holds what [saveFlows] wrote, or nothing, or text of
      another kind, which [loadFlows] meets when the page starts.
    - Every function is a computation in a state monad over the whole
      [World]; a JS exception is the outcome [Throw], and state changes made
      before the throw stay, as in JS.  [Stuck] marks what no run of the
      program on well-typed data can meet (a dangling reference, a tool call
      whose arguments do not have the declared shape); it is not a JS
      exception and is never caught.
    - What the environment decides is an argument of the function that asks
      for it: the reading of [Date.now()], the answer to [confirm] and
      [prompt], the reply of the gateway.
    - [async] functions run to completion at their call: the specification
      rules out any interleaving (section 5).  A call that is not awaited
      ([initializeChat(true)] in [handleUndo]) cannot throw into its caller.
    - Rendering ([marked], [mermaid], CSS classes, buttons) is left out; of
      the DOM only the list of displayed chat messages and the visibility of
      the catalysts are kept. *)

From Stdlib Require Import String Ascii NArith List Bool Lia DecimalString.
From stdpp Require Import base list.
Import ListNotations.
Local Open Scope string_scope.
Local Open Scope list_scope.

(** ** Type definitions (index.tsx, lines 11-53) *)

Inductive Role := user | model.

Record Part := { text : string }.

Record Message := { role : Role; parts : list Part }.

Module Artifact.
Record t := {
  id : string;
  title : string;
  type : string;
  content : string;
  language : option string
}.
End Artifact.

Module Snapshot.
Record t := {
  id : string;
  timestamp : N;
  messageCount : N;
  history : list Message;
  artifacts : list Artifact.t
}.
End Snapshot.

(** A Flow as a value: what [JSON.stringify] writes and [JSON.parse] reads. *)
Module Flow.
Record t := {
  id : string;
  name : string;
  history : list Message;
  snapshots : list Snapshot.t;
  artifacts : list Artifact.t
}.
End Flow.

(** ** The heap of JS objects *)

Abbreviation loc := nat (only parsing).

Inductive obj :=
| OFlow (id name : string) (history snapshots artifacts : loc)
| OMessages (ms : list Message)
| OSnapshots (ss : list Snapshot.t)
| OArtifacts (als : list loc)
| OArtifact (a : Artifact.t).

Abbreviation heap_t := (list obj) (only parsing).

Definition get_artifact (h : heap_t) (l : loc) : option Artifact.t :=
  match h !! l with Some (OArtifact a) => Some a | _ => None end.

Fixpoint get_artifacts (h : heap_t) (ls : list loc) : option (list Artifact.t) :=
  match ls with
  | [] => Some []
  | l :: ls' =>
      match get_artifact h l, get_artifacts h ls' with
      | Some a, Some r => Some (a :: r)
      | _, _ => None
      end
  end.

(** [reify h l]: the value of the Flow object at [l], the tree that
    [JSON.stringify] walks. *)
Definition reify (h : heap_t) (l : loc) : option Flow.t :=
  match h !! l with
  | Some (OFlow i n hl sl al) =>
      match h !! hl, h !! sl, h !! al with
      | Some (OMessages ms), Some (OSnapshots ss), Some (OArtifacts als) =>
          match get_artifacts h als with
          | Some arts => Some (Flow.Build_t i n ms ss arts)
          | None => None
          end
      | _, _, _ => None
      end
  | _ => None
  end.

(** The locations a Flow object is made of. *)
Definition footprint (h : heap_t) (l : loc) : list loc :=
  match h !! l with
  | Some (OFlow _ _ hl sl al) =>
      l :: hl :: sl :: al ::
      match h !! al with Some (OArtifacts als) => als | _ => [] end
  | _ => [l]
  end.

(** [alloc_flow v h]: the object graph [JSON.parse] builds for the Flow
    value [v], every object of it new: the Artifact objects first, then the
    three arrays, then the Flow object. *)
Definition alloc_flow (v : Flow.t) (h : heap_t) : heap_t * loc :=
  let n := length h in
  let k := length (Flow.artifacts v) in
  (h ++ map OArtifact (Flow.artifacts v)
     ++ [OMessages (Flow.history v);
         OSnapshots (Flow.snapshots v);
         OArtifacts (seq n k);
         OFlow (Flow.id v) (Flow.name v) (n + k) (n + k + 1) (n + k + 2)],
   n + k + 3).

(** ** Application state (index.tsx, lines 45-53 and 169-177) *)

Record AppState := {
  isLoading : bool;
  flows : list (string * loc);
  activeFlowId : option string;
  aiChat : option (list Message);
  activeArtifactId : option string;
  historyStack : list loc;
  redoStack : list loc
}.

(** What the chat pane shows: a message and the task list attached to it. *)
Record Task := { task_title : string; priority : string }.

Record MessageEl := { shown : Message; extra : option (list Task) }.

(** What the item [fluid_flows] can hold besides the text [saveFlows]
    writes: text that is no JSON, or the JSON text of another value than an
    object of Flows ([null], a number, a string, an array, an object with
    other members). *)
Inductive OtherText := NotJSON | NotFlows.

(** [localStorage]: the two keys the program writes.  [fluid_flows] is
    [Some j] when the item of that name holds the JSON text of an object of
    Flows, [j] being its members in text order.  When it is [None] the item
    holds no such text, and [fluid_flows_other] tells what else: nothing
    (the item is missing or empty), or text of another kind.  The item
    [fluid_active_flow_id] is missing or holds a string. *)
Record Storage := {
  fluid_flows : option (list (string * Flow.t));
  fluid_active_flow_id : option string;
  fluid_flows_other : option OtherText
}.

Record World := {
  state : AppState;
  heap : heap_t;
  chatHistoryEl : list MessageEl;
  catalystsHidden : bool;
  localStorage : Storage
}.

Definition set_state (s : AppState) (w : World) : World :=
  {| state := s; heap := heap w; chatHistoryEl := chatHistoryEl w;
     catalystsHidden := catalystsHidden w; localStorage := localStorage w |}.
Definition set_heap (h : heap_t) (w : World) : World :=
  {| state := state w; heap := h; chatHistoryEl := chatHistoryEl w;
     catalystsHidden := catalystsHidden w; localStorage := localStorage w |}.
Definition set_chatHistoryEl (c : list MessageEl) (w : World) : World :=
  {| state := state w; heap := heap w; chatHistoryEl := c;
     catalystsHidden := catalystsHidden w; localStorage := localStorage w |}.
Definition set_catalystsHidden (b : bool) (w : World) : World :=
  {| state := state w; heap := heap w; chatHistoryEl := chatHistoryEl w;
     catalystsHidden := b; localStorage := localStorage w |}.
Definition set_localStorage (s : Storage) (w : World) : World :=
  {| state := state w; heap := heap w; chatHistoryEl := chatHistoryEl w;
     catalystsHidden := catalystsHidden w; localStorage := s |}.

Definition set_isLoading (b : bool) (s : AppState) : AppState :=
  {| isLoading := b; flows := flows s; activeFlowId := activeFlowId s;
     aiChat := aiChat s; activeArtifactId := activeArtifactId s;
     historyStack := historyStack s; redoStack := redoStack s |}.
Definition set_flows (f : list (string * loc)) (s : AppState) : AppState :=
  {| isLoading := isLoading s; flows := f; activeFlowId := activeFlowId s;
     aiChat := aiChat s; activeArtifactId := activeArtifactId s;
     historyStack := historyStack s; redoStack := redoStack s |}.
Definition set_activeFlowId (a : option string) (s : AppState) : AppState :=
  {| isLoading := isLoading s; flows := flows s; activeFlowId := a;
     aiChat := aiChat s; activeArtifactId := activeArtifactId s;
     historyStack := historyStack s; redoStack := redoStack s |}.
Definition set_aiChat (c : option (list Message)) (s : AppState) : AppState :=
  {| isLoading := isLoading s; flows := flows s; activeFlowId := activeFlowId s;
     aiChat := c; activeArtifactId := activeArtifactId s;
     historyStack := historyStack s; redoStack := redoStack s |}.
Definition set_activeArtifactId (a : option string) (s : AppState) : AppState :=
  {| isLoading := isLoading s; flows := flows s; activeFlowId := activeFlowId s;
     aiChat := aiChat s; activeArtifactId := a;
     historyStack := historyStack s; redoStack := redoStack s |}.
Definition set_historyStack (l : list loc) (s : AppState) : AppState :=
  {| isLoading := isLoading s; flows := flows s; activeFlowId := activeFlowId s;
     aiChat := aiChat s; activeArtifactId := activeArtifactId s;
     historyStack := l; redoStack := redoStack s |}.
Definition set_redoStack (l : list loc) (s : AppState) : AppState :=
  {| isLoading := isLoading s; flows := flows s; activeFlowId := activeFlowId s;
     aiChat := aiChat s; activeArtifactId := activeArtifactId s;
     historyStack := historyStack s; redoStack := l |}.

(** ** The monad of the program *)

Inductive exn := TypeError | SyntaxError | RangeError | GatewayError.

Inductive outcome (A : Type) :=
| Ok (a : A)
| Throw (e : exn)
| Stuck.
Arguments Ok {A} a.
Arguments Throw {A} e.
Arguments Stuck {A}.

Definition M (A : Type) := World -> outcome A * World.

Definition ret {A} (a : A) : M A := fun w => (Ok a, w).

Definition bind {A B} (m : M A) (k : A -> M B) : M B :=
  fun w =>
    match m w with
    | (Ok a, w') => k a w'
    | (Throw e, w') => (Throw e, w')
    | (Stuck, w') => (Stuck, w')
    end.

Definition throw {A} (e : exn) : M A := fun w => (Throw e, w).
Definition stuck {A} : M A := fun w => (Stuck, w).

Notation "x <- m ;; k" := (bind m (fun x => k))
  (at level 100, m at next level, right associativity).
Notation "m ;; k" := (bind m (fun _ => k))
  (at level 100, right associativity).

(** [try { m } catch { h }] *)
Definition try_catch {A} (m : M A) (h : exn -> M A) : M A :=
  fun w =>
    match m w with
    | (Throw e, w') => h e w'
    | r => r
    end.

(** [try { m } finally { f }] *)
Definition try_finally {A} (m : M A) (f : M unit) : M A :=
  fun w =>
    match m w with
    | (Stuck, w') => (Stuck, w')
    | (r, w') =>
        match f w' with
        | (Ok _, w'') => (r, w'')
        | (Throw e, w'') => (Throw e, w'')
        | (Stuck, w'') => (Stuck, w'')
        end
    end.

(** A call to an [async] function whose promise is dropped: a rejection
    does not reach the caller. *)
Definition detach (m : M unit) : M unit :=
  fun w =>
    match m w with
    | (Throw _, w') => (Ok tt, w')
    | r => r
    end.

Definition get : M AppState := fun w => (Ok (state w), w).
Definition modify (f : AppState -> AppState) : M unit :=
  fun w => (Ok tt, set_state (f (state w)) w).

(** Heap access. *)
Definition alloc (o : obj) : M loc :=
  fun w => (Ok (length (heap w)), set_heap (heap w ++ [o]) w).
Definition read (l : loc) : M obj :=
  fun w => match heap w !! l with Some o => (Ok o, w) | None => (Stuck, w) end.
Definition write (l : loc) (o : obj) : M unit :=
  fun w => (Ok tt, set_heap (<[l := o]> (heap w)) w).

Fixpoint mapM {A B} (f : A -> M B) (l : list A) : M (list B) :=
  match l with
  | [] => ret []
  | x :: r => y <- f x ;; ys <- mapM f r ;; ret (y :: ys)
  end.

(** [for (const x of l) await f(x)] *)
Fixpoint forM {A} (f : A -> M unit) (l : list A) : M unit :=
  match l with
  | [] => ret tt
  | x :: r => f x ;; forM f r
  end.

(** ** JS values and built-ins the program uses *)

Local Infix "+:+" := String.append (at level 60, right associativity).

(** Truthiness of a [string | null]: [null] and the empty string are falsy. *)
Definition truthy (o : option string) : bool :=
  match o with
  | Some s => negb (s =? "")%string
  | None => false
  end.

(** [a === b] for a string [a] and a [string | null] [b]. *)
Definition strict_eq (a : string) (b : option string) : bool :=
  match b with
  | Some s => (a =? s)%string
  | None => false
  end.

(** The property key [o[k]] uses for a [string | null] [k]. *)
Definition key (k : option string) : string :=
  match k with
  | Some s => s
  | None => "null"
  end.

(** [String(n)] for a non-negative integer below 10^21. *)
Definition show (n : N) : string := NilZero.string_of_uint (N.to_uint n).

(** [String.prototype.trim].  A character stands for a code unit below 256;
    of these the white space and line terminators are 9-13, 32 and 160. *)
Definition is_space (c : ascii) : bool :=
  let n := N_of_ascii c in
  ((9 <=? n) && (n <=? 13) || (n =? 32) || (n =? 160))%N.

Fixpoint trim_start (s : string) : string :=
  match s with
  | String c r => if is_space c then trim_start r else s
  | EmptyString => EmptyString
  end.

Fixpoint trim_end (s : string) : string :=
  match s with
  | String c r =>
      match trim_end r with
      | EmptyString => if is_space c then EmptyString else String c EmptyString
      | r' => String c r'
      end
  | EmptyString => EmptyString
  end.

Definition trim (s : string) : string := trim_end (trim_start s).

(** [a.pop()] on a non-empty array. *)
Definition pop {A} (l : list A) : option (list A * A) :=
  match last l with
  | Some x => Some (removelast l, x)
  | None => None
  end.

(** [state.flows] as an object: [o[k]], [o[k] = v], [delete o[k]],
    [Object.keys(o)]. *)
Fixpoint prop_get (k : string) (o : list (string * loc)) : option loc :=
  match o with
  | [] => None
  | (k', v) :: r => if (k' =? k)%string then Some v else prop_get k r
  end.

Fixpoint prop_set (k : string) (v : loc) (o : list (string * loc))
  : list (string * loc) :=
  match o with
  | [] => [(k, v)]
  | (k', v') :: r =>
      if (k' =? k)%string then (k', v) :: r else (k', v') :: prop_set k v r
  end.

Definition prop_delete (k : string) (o : list (string * loc))
  : list (string * loc) :=
  List.filter (fun p => negb (fst p =? k)%string) o.

Definition Object_keys (o : list (string * loc)) : list string := map fst o.

(** Field and array reads through a reference. *)
Definition field_history (l : loc) : M loc :=
  o <- read l ;;
  match o with OFlow _ _ hl _ _ => ret hl | _ => stuck end.

Definition field_artifacts (l : loc) : M loc :=
  o <- read l ;;
  match o with OFlow _ _ _ _ al => ret al | _ => stuck end.

Definition array_messages (l : loc) : M (list Message) :=
  o <- read l ;;
  match o with OMessages ms => ret ms | _ => stuck end.

Definition array_artifacts (l : loc) : M (list loc) :=
  o <- read l ;;
  match o with OArtifacts als => ret als | _ => stuck end.

Definition artifacts_of (als : list loc) : M (list Artifact.t) :=
  fun w =>
    match get_artifacts (heap w) als with
    | Some arts => (Ok arts, w)
    | None => (Stuck, w)
    end.

(** [JSON.stringify] and [JSON.parse] on a Flow.  On the data of this
    program (strings, integers, arrays, objects without [undefined]
    members) parsing what was written gives back an equal value in new
    objects. *)
Definition JSON_stringify (l : loc) : M Flow.t :=
  fun w =>
    match reify (heap w) l with
    | Some v => (Ok v, w)
    | None => (Stuck, w)
    end.

Definition JSON_parse (v : Flow.t) : M loc :=
  fun w => (Ok (snd (alloc_flow v (heap w))),
            set_heap (fst (alloc_flow v (heap w))) w).

(** [JSON.parse(JSON.stringify(state.flows[k]))]: for a missing flow
    [JSON.stringify(undefined)] is [undefined], which [JSON.parse] rejects
    with a SyntaxError. *)
Definition JSON_clone (x : option loc) : M loc :=
  match x with
  | None => throw SyntaxError
  | Some l => v <- JSON_stringify l ;; JSON_parse v
  end.

Fixpoint stringify_flows (h : heap_t) (o : list (string * loc))
  : option (list (string * Flow.t)) :=
  match o with
  | [] => Some []
  | (k, l) :: r =>
      match reify h l, stringify_flows h r with
      | Some v, Some j => Some ((k, v) :: j)
      | _, _ => None
      end
  end.

(** ** Core functions *)

(** [setLoading] (lines 188-204); the rest of it drives the DOM. *)
Definition setLoading (b : bool) : M unit := modify (set_isLoading b).

(** [saveFlows] (lines 415-418).  [setItem] turns a [null] id into the
    string "null"; the storage is taken to accept every write. *)
Definition saveFlows : M unit :=
  fun w =>
    match stringify_flows (heap w) (flows (state w)) with
    | Some j =>
        (Ok tt,
         set_localStorage
           {| fluid_flows_other := None; fluid_flows := Some j;
              fluid_active_flow_id := Some (key (activeFlowId (state w))) |} w)
    | None => (Stuck, w)
    end.

(** [createMessageElement] (lines 225-301): reads [message.parts[0].text],
    a TypeError when [parts] is empty; the element is kept as the message it
    shows. *)
Definition createMessageElement (message : Message) : M MessageEl :=
  match parts message with
  | [] => throw TypeError
  | _ :: _ => ret {| shown := message; extra := None |}
  end.

Definition dom_append (els : list MessageEl) : M unit :=
  fun w => (Ok tt, set_chatHistoryEl (chatHistoryEl w ++ els) w).

(** [appendMessage] (lines 206-222).  [extraHtml] is [None] for the default
    [''] and [Some tasks] for the (never empty) rendering of a task list. *)
Definition appendMessage (r : Role) (t : string) (extraHtml : option (list Task))
  : M unit :=
  let message := {| role := r; parts := [ {| text := t |} ] |} in
  s <- get ;;
  (if truthy (activeFlowId s) then
     match prop_get (key (activeFlowId s)) (flows s) with
     | None => throw TypeError
     | Some activeFlow =>
         hl <- field_history activeFlow ;;
         ms <- array_messages hl ;;
         write hl (OMessages (ms ++ [message])) ;;
         saveFlows
     end
   else ret tt) ;;
  messageEl <- createMessageElement message ;;
  dom_append [ {| shown := shown messageEl; extra := extraHtml |} ].

(** ** Undo / redo (lines 597-632) *)

Definition pushUndoState : M unit :=
  s <- get ;;
  if negb (truthy (activeFlowId s)) then ret tt else
  currentFlow <- JSON_clone (prop_get (key (activeFlowId s)) (flows s)) ;;
  modify (fun s => set_historyStack (historyStack s ++ [currentFlow]) s) ;;
  modify (set_redoStack []).

(** ** Artifact management *)

(** [renderArtifactViewer] (lines 503-536), the part that touches the
    state.  The call to itself at line 534 evaluates the guard of line 532
    again with the pointer now at the last artifact, which [find] finds: it
    stops there unless that id is the empty string, and then it recurses
    without end, which JS cuts off with a RangeError.  [last arts] is [None]
    exactly when [flow.artifacts.length === 0]. *)
Definition renderArtifactViewer : M unit :=
  s <- get ;;
  match prop_get (key (activeFlowId s)) (flows s) with
  | None => ret tt
  | Some flow =>
      al <- field_artifacts flow ;;
      als <- array_artifacts al ;;
      arts <- artifacts_of als ;;
      match last arts with
      | None => ret tt
      | Some lst =>
          if negb (truthy (activeArtifactId s))
             || negb (existsb (fun a => strict_eq (Artifact.id a)
                                          (activeArtifactId s)) arts)
          then
            modify (set_activeArtifactId (Some (Artifact.id lst))) ;;
            if (Artifact.id lst =? "")%string then throw RangeError else ret tt
          else ret tt
      end
  end.

(** Line 703: the active artifact after (re)initialisation.  [last arts] is
    [None] exactly when [artifacts.length > 0] fails; [find (...)?.id || ...]
    falls back to the last artifact when nothing is found or the id found
    is falsy. *)
Definition resolveActiveArtifact (arts : list Artifact.t) (cur : option string)
  : option string :=
  match last arts with
  | None => None
  | Some lst =>
      match find (fun a => strict_eq (Artifact.id a) cur) arts with
      | Some a =>
          if truthy (Some (Artifact.id a)) then Some (Artifact.id a)
          else Some (Artifact.id lst)
      | None => Some (Artifact.id lst)
      end
  end.

(** ** Initialisation (lines 646-708) *)

Definition welcomeMessageText : string :=
"Welcome to .fluid, sprite*. I am ~flow, your AI consultant.

**My Core Functions:**
*   **Process Design:** Describe a workflow, and I'll map it out, often with a Mermaid diagram.
*   **Code Generation:** Request code, and I'll generate production-ready snippets.
*   **Task Management:** I will identify action items and can create formal task lists for you.
*   **Artifacts:** Any significant outputs like code or documents will appear in a dedicated viewer on your right.

You can start by describing a process, or select a catalyst below to see me in action. How can I optimize your workflow today?".

Definition initializeChat (softRefresh : bool) : M unit :=
  setLoading true ;;
  (fun w => (Ok tt, set_chatHistoryEl [] w)) ;;
  (if negb softRefresh
   then modify (set_historyStack []) ;; modify (set_redoStack [])
   else ret tt) ;;
  s <- get ;;
  match prop_get (key (activeFlowId s)) (flows s) with
  | None => setLoading false
  | Some activeFlow =>
      hl <- field_history activeFlow ;;
      hist <- array_messages hl ;;
      (if (length hist =? 0)%nat then
         el <- createMessageElement
                 {| role := model; parts := [ {| text := welcomeMessageText |} ] |} ;;
         dom_append [el]
       else
         frag <- mapM createMessageElement hist ;;
         dom_append frag) ;;
      modify (set_aiChat (Some hist)) ;;
      (fun w => (Ok tt, set_catalystsHidden (0 <? length hist)%nat w)) ;;
      al <- field_artifacts activeFlow ;;
      als <- array_artifacts al ;;
      arts <- artifacts_of als ;;
      modify (fun s =>
                set_activeArtifactId
                  (resolveActiveArtifact arts (activeArtifactId s)) s) ;;
      renderArtifactViewer ;;
      setLoading false
  end.

(** [handleUndo] and [handleRedo] (lines 607-627). *)
Definition handleUndo : M unit :=
  s <- get ;;
  if (length (historyStack s) =? 0)%nat then ret tt else
  currentFlow <- JSON_clone (prop_get (key (activeFlowId s)) (flows s)) ;;
  modify (fun s => set_redoStack (redoStack s ++ [currentFlow]) s) ;;
  match pop (historyStack s) with
  | None => stuck
  | Some (rest, previousFlow) =>
      modify (set_historyStack rest) ;;
      modify (fun s =>
                set_flows
                  (prop_set (key (activeFlowId s)) previousFlow (flows s)) s) ;;
      saveFlows ;;
      detach (initializeChat true)
  end.

Definition handleRedo : M unit :=
  s <- get ;;
  if (length (redoStack s) =? 0)%nat then ret tt else
  currentFlow <- JSON_clone (prop_get (key (activeFlowId s)) (flows s)) ;;
  modify (fun s => set_historyStack (historyStack s ++ [currentFlow]) s) ;;
  match pop (redoStack s) with
  | None => stuck
  | Some (rest, nextFlow) =>
      modify (set_redoStack rest) ;;
      modify (fun s =>
                set_flows
                  (prop_set (key (activeFlowId s)) nextFlow (flows s)) s) ;;
      saveFlows ;;
      detach (initializeChat true)
  end.

(** ** Flow management (lines 458-500) *)

Definition switchFlow (id : string) : M unit :=
  s <- get ;;
  if strict_eq id (activeFlowId s) then ret tt else
  modify (set_activeFlowId (Some id)) ;;
  saveFlows ;;
  initializeChat false.

(** [createNewFlow]; [now] is what [Date.now()] returns. *)
Definition createNewFlow (now : N) : M unit :=
  pushUndoState ;;
  let id := "flow-" +:+ show now in
  s <- get ;;
  let count := (length (Object_keys (flows s)) + 1)%nat in
  hl <- alloc (OMessages []) ;;
  sl <- alloc (OSnapshots []) ;;
  al <- alloc (OArtifacts []) ;;
  fl <- alloc (OFlow id ("New Flow " +:+ show (N.of_nat count)) hl sl al) ;;
  modify (fun s => set_flows (prop_set id fl (flows s)) s) ;;
  modify (set_activeFlowId (Some id)) ;;
  saveFlows ;;
  detach (initializeChat false).

(** [renameFlow]; [answer] is what [prompt] returns ([None] for [null]). *)
Definition renameFlow (id : string) (answer : option string) : M unit :=
  pushUndoState ;;
  s <- get ;;
  match prop_get id (flows s) with
  | None => throw TypeError
  | Some flow =>
      match answer with
      | Some newName =>
          if truthy (Some newName) && negb (trim newName =? "")%string then
            o <- read flow ;;
            match o with
            | OFlow i _ hl sl al => write flow (OFlow i (trim newName) hl sl al)
            | _ => stuck
            end ;;
            saveFlows
          else ret tt
      | None => ret tt
      end
  end.

(** [deleteFlow]; [confirmed] is what [confirm] returns.  The result tells
    which dialog path was taken: [CannotDeleteLast] is the [alert]. *)
Inductive DeleteResult := CannotDeleteLast | NotConfirmed | Deleted.

Definition deleteFlow (id : string) (confirmed : bool) : M DeleteResult :=
  s <- get ;;
  if (length (Object_keys (flows s)) <=? 1)%nat then ret CannotDeleteLast else
  match prop_get id (flows s) with
  | None => throw TypeError
  | Some _ =>
      if confirmed then
        pushUndoState ;;
        modify (fun s => set_flows (prop_delete id (flows s)) s) ;;
        s <- get ;;
        (if strict_eq id (activeFlowId s)
         then modify (set_activeFlowId (head (Object_keys (flows s))))
         else ret tt) ;;
        saveFlows ;;
        detach (initializeChat false) ;;
        ret Deleted
      else ret NotConfirmed
  end.

(** ** Tool calls (lines 303-339) *)

(** The arguments of a tool call, by the three declared schemas (lines
    116-164).  The program does not check them; a call whose arguments do
    not have the shape declared for its name is outside the model. *)
Inductive Args :=
| PresentArgs (title type content : string) (language : option string)
| TaskListArgs (tasks : list Task)
| ModifyArgs (artifactId newContent : string)
| OtherArgs.

Record FunctionCall := { name : string; args : Args }.

Definition with_content (c : string) (a : Artifact.t) : Artifact.t :=
  {| Artifact.id := Artifact.id a; Artifact.title := Artifact.title a;
     Artifact.type := Artifact.type a; Artifact.content := c;
     Artifact.language := Artifact.language a |}.

(** [handleFunctionCall]; [now] is what [Date.now()] returns during the
    call. *)
Definition handleFunctionCall (now : N) (fc : FunctionCall) : M unit :=
  s <- get ;;
  let activeFlow := prop_get (key (activeFlowId s)) (flows s) in
  pushUndoState ;;
  if (name fc =? "present_artifact")%string then
    match args fc with
    | PresentArgs title type content language =>
        newArtifact <- alloc (OArtifact
          {| Artifact.id := "artifact-" +:+ show now; Artifact.title := title;
             Artifact.type := type; Artifact.content := content;
             Artifact.language := language |}) ;;
        match activeFlow with
        | None => throw TypeError
        | Some flow =>
            al <- field_artifacts flow ;;
            als <- array_artifacts al ;;
            write al (OArtifacts (als ++ [newArtifact])) ;;
            modify (set_activeArtifactId (Some ("artifact-" +:+ show now))) ;;
            saveFlows ;;
            renderArtifactViewer
        end
    | _ => stuck
    end
  else if (name fc =? "create_task_list")%string then
    match args fc with
    | TaskListArgs tasks =>
        appendMessage model "I have created the following task list for you:"
                      (Some tasks)
    | _ => stuck
    end
  else if (name fc =? "modify_artifact")%string then
    match args fc with
    | ModifyArgs artifactId newContent =>
        match activeFlow with
        | None => throw TypeError
        | Some flow =>
            al <- field_artifacts flow ;;
            als <- array_artifacts al ;;
            arts <- artifacts_of als ;;
            match find (fun p => (Artifact.id (snd p) =? artifactId)%string)
                       (combine als arts) with
            | Some (artifactToModify, a) =>
                write artifactToModify (OArtifact (with_content newContent a)) ;;
                saveFlows ;;
                appendMessage model
                  ("I have updated the artifact: *" +:+ Artifact.title a +:+ "*.")
                  None
            | None =>
                appendMessage model
                  ("Apologies, I could not find an artifact with the ID "
                     +:+ artifactId +:+ ".")
                  None
            end
        end
    | _ => stuck
    end
  else ret tt.

(** ** Submitting a message (lines 358-393) *)

(** What [state.aiChat.sendMessage] comes back with: a response (its text
    and its function calls, each with the clock reading at its dispatch),
    or a rejection. *)
Inductive GatewayReply :=
| Response (text : option string) (functionCalls : list (N * FunctionCall))
| Rejected.

(** Lines 365-370: from the accepted input up to the gateway call. *)
Definition acceptSubmission (userMessage : string) : M unit :=
  pushUndoState ;;
  (fun w => (Ok tt, set_catalystsHidden true w)) ;;
  appendMessage user userMessage None ;;
  setLoading true.

(** Lines 372-392: the gateway round trip. *)
Definition awaitReply (reply : GatewayReply) : M unit :=
  try_finally
    (try_catch
       (s <- get ;;
        match aiChat s with
        | None => throw TypeError
        | Some _ =>
            match reply with
            | Rejected => throw GatewayError
            | Response text functionCalls =>
                match text with
                | Some t =>
                    if truthy (Some t) then appendMessage model t None
                    else ret tt
                | None => ret tt
                end ;;
                forM (fun c => handleFunctionCall (fst c) (snd c)) functionCalls
            end
        end)
       (fun _ =>
          appendMessage model
            "apologies sprite*. an error occurred. please try again." None))
    (setLoading false).

Definition handleFormSubmit (input : string) (reply : GatewayReply) : M unit :=
  s <- get ;;
  if isLoading s then ret tt else
  let userMessage := trim input in
  if negb (truthy (Some userMessage)) then ret tt else
  acceptSubmission userMessage ;;
  awaitReply reply.

(** ** Loading the store (lines 397-413) *)

(** An array index: the canonical decimal text of an integer below
    2^32 - 1. *)
Definition array_index (k : string) : option N :=
  match NilEmpty.uint_of_string k with
  | Some d =>
      let n := N.of_uint d in
      if (show n =? k)%string && (n <? 4294967295)%N then Some n else None
  | None => None
  end.

(** Own-key order, which [Object.keys] and [JSON.stringify] follow: the
    array indices in ascending order, then the other keys in the order they
    were added.  [insert_index n k v o] adds the array index [k], of value
    [n], to an object that does not have it. *)
Fixpoint insert_index (n : N) (k : string) (v : loc) (o : list (string * loc))
  : list (string * loc) :=
  match o with
  | [] => [(k, v)]
  | (k', v') :: r =>
      match array_index k' with
      | Some n' =>
          if (n' <? n)%N then (k', v') :: insert_index n k v r
          else (k, v) :: o
      | None => (k, v) :: o
      end
  end.

(** The definition of the own property [k] with value [v], for any key: a
    key the object has keeps its place, a new array index goes among the
    array indices, any other new key to the end. *)
Definition define_property (k : string) (v : loc) (o : list (string * loc))
  : list (string * loc) :=
  match prop_get k o, array_index k with
  | None, Some n => insert_index n k v o
  | _, _ => prop_set k v o
  end.

(** [JSON.parse] of the stored flows: the members are read in text order,
    each value into new objects, and defined as own properties; a key met
    again keeps its place and takes the later value. *)
Fixpoint JSON_parse_flows (j : list (string * Flow.t)) (o : list (string * loc))
  : M (list (string * loc)) :=
  match j with
  | [] => ret o
  | (k, v) :: r =>
      l <- JSON_parse v ;; JSON_parse_flows r (define_property k l o)
  end.

(** The names of the members every object inherits from [Object.prototype],
    all of them truthy: [o[k]] for such a name is truthy whether [o] has an
    own property [k] or not. *)
Definition Object_prototype : list string :=
  ["constructor"; "hasOwnProperty"; "isPrototypeOf"; "propertyIsEnumerable";
   "toLocaleString"; "toString"; "valueOf"; "__proto__";
   "__defineGetter__"; "__defineSetter__";
   "__lookupGetter__"; "__lookupSetter__"].

Definition inherited (k : string) : bool :=
  existsb (String.eqb k) Object_prototype.

(** [loadFlows]; [now] is what [Date.now()] returns.  A missing item, the
    empty string and text that [JSON.parse] rejects all give [{}], the last
    through the [catch].  Text that parses to something else than an object
    of Flows is assigned to [state.flows] as it is, and what follows is
    outside the [try]: for [null], [Object.keys] throws a TypeError; for a
    number, a boolean or an empty string the assignment of the first flow
    does; for the rest the function returns with a [state.flows] that is
    no object of Flows.  [AppState] has no such values, so there the model
    is [Stuck].  Line 412 reads [state.flows[activeId]] with a key that
    comes from outside the program, so what it finds can also be an
    inherited member. *)
Definition loadFlows (now : N) : M unit :=
  st <- (fun w => (Ok (localStorage w), w)) ;;
  o <- match fluid_flows st with
       | Some j => JSON_parse_flows j []
       | None =>
           match fluid_flows_other st with
           | Some NotFlows => stuck
           | _ => ret []
           end
       end ;;
  modify (set_flows o) ;;
  (if (length (Object_keys o) =? 0)%nat then
     let id := "flow-" +:+ show now in
     hl <- alloc (OMessages []) ;;
     sl <- alloc (OSnapshots []) ;;
     al <- alloc (OArtifacts []) ;;
     fl <- alloc (OFlow id "My First Flow" hl sl al) ;;
     modify (fun s => set_flows (prop_set id fl (flows s)) s) ;;
     modify (set_activeFlowId (Some id))
   else ret tt) ;;
  s <- get ;;
  let activeId := fluid_active_flow_id st in
  modify (set_activeFlowId
            (if truthy activeId
                && (match prop_get (key activeId) (flows s) with
                    | Some _ => true
                    | None => false
                    end
                    || inherited (key activeId))
             then activeId
             else head (Object_keys (flows s)))).

(** ** Editing an artifact by hand (lines 522-528 and 579-592) *)

(** The [onclick] of an artifact tab. *)
Definition tab_onclick (artifactId : string) : M unit :=
  modify (set_activeArtifactId (Some artifactId)) ;;
  saveFlows.

(** The [onclick] of the Save button shown for the artifact [artifactId];
    [edited] is the text of the element in edit mode, [None] when no element
    is. *)
Definition saveBtn_onclick (artifactId : string) (edited : option string)
  : M unit :=
  match edited with
  | None => ret tt
  | Some textContent =>
      pushUndoState ;;
      s <- get ;;
      match prop_get (key (activeFlowId s)) (flows s) with
      | None => throw TypeError
      | Some flow =>
          al <- field_artifacts flow ;;
          als <- array_artifacts al ;;
          arts <- artifacts_of als ;;
          match find (fun p => (Artifact.id (snd p) =? artifactId)%string)
                     (combine als arts) with
          | Some (activeArtifact, a) =>
              write activeArtifact
                    (OArtifact (with_content (trim textContent) a)) ;;
              saveFlows
          | None => ret tt
          end
      end
  end.

(** ** The events of the page (lines 441-456 and 723-766) *)

(** [handleFlowListClick]; [flowItem] is the [data-id] of the flow item the
    click landed in ([None] outside every item), [action] the [data-action]
    of its target, [answer] and [confirmed] what [prompt] and [confirm]
    return when asked.  The promise of [switchFlow] is dropped. *)
Definition handleFlowListClick (flowItem action answer : option string)
                               (confirmed : bool) : M unit :=
  match flowItem with
  | None => ret tt
  | Some flowId =>
      if strict_eq "rename" action then renameFlow flowId answer
      else if strict_eq "delete" action then
        _ <- deleteFlow flowId confirmed ;; ret tt
      else detach (switchFlow flowId)
  end.

(** The listeners [init] registers, and the two [onclick]s of the artifact
    viewer, each with what it reads from outside the state. *)
Inductive Event :=
| FormSubmit (input : string) (reply : GatewayReply)
| UndoClick
| RedoClick
| NewFlowClick (now : N)
| FlowListClick (flowItem action answer : option string) (confirmed : bool)
| TabClick (artifactId : string)
| SaveClick (artifactId : string) (edited : option string).

(** What the page runs on an event; the promise of the [async] listener
    [handleFormSubmit] is dropped. *)
Definition dispatch (e : Event) : M unit :=
  match e with
  | FormSubmit input reply => detach (handleFormSubmit input reply)
  | UndoClick => handleUndo
  | RedoClick => handleRedo
  | NewFlowClick now => createNewFlow now
  | FlowListClick flowItem action answer confirmed =>
      handleFlowListClick flowItem action answer confirmed
  | TabClick artifactId => tab_onclick artifactId
  | SaveClick artifactId edited => saveBtn_onclick artifactId edited
  end.

(** [init] (lines 711-774), after the listeners are registered: the store
    is loaded and the chat initialised; [now] is what [Date.now()] returns
    if [loadFlows] has to make the first flow. *)
Definition init (now : N) : M unit :=
  loadFlows now ;;
  initializeChat false.

(** ** Vocabulary of the statements *)

(** The value of the active Flow. *)
Definition activeFlow (w : World) : option Flow.t :=
  match prop_get (key (activeFlowId (state w))) (flows (state w)) with
  | Some l => reify (heap w) l
  | None => None
  end.

(** The active Flow, when there is one, can be read. *)
Definition active_readable (w : World) : Prop :=
  forall fl,
    prop_get (key (activeFlowId (state w))) (flows (state w)) = Some fl ->
    is_Some (reify (heap w) fl).

(** What the store holds is what was last written to [localStorage]. *)
Definition persisted (w : World) : Prop :=
  fluid_flows (localStorage w) = stringify_flows (heap w) (flows (state w))
  /\ is_Some (fluid_flows (localStorage w))
  /\ fluid_active_flow_id (localStorage w) = Some (key (activeFlowId (state w))).

(** [w'] differs from [w] in the view only: the loading flag, the chat
    session, the chat pane and the active-artifact pointer. *)
Definition view_only (w w' : World) : Prop :=
  heap w' = heap w
  /\ flows (state w') = flows (state w)
  /\ activeFlowId (state w') = activeFlowId (state w)
  /\ historyStack (state w') = historyStack (state w)
  /\ redoStack (state w') = redoStack (state w)
  /\ localStorage w' = localStorage w.

(** Flow values with one field replaced. *)
Definition set_history (ms : list Message) (v : Flow.t) : Flow.t :=
  {| Flow.id := Flow.id v; Flow.name := Flow.name v; Flow.history := ms;
     Flow.snapshots := Flow.snapshots v; Flow.artifacts := Flow.artifacts v |}.

Definition set_artifacts (arts : list Artifact.t) (v : Flow.t) : Flow.t :=
  {| Flow.id := Flow.id v; Flow.name := Flow.name v;
     Flow.history := Flow.history v; Flow.snapshots := Flow.snapshots v;
     Flow.artifacts := arts |}.

(** The Message [appendMessage] builds, and the element that shows it. *)
Definition msg (r : Role) (t : string) : Message :=
  {| role := r; parts := [ {| text := t |} ] |}.

Definition element (m : Message) : MessageEl := {| shown := m; extra := None |}.

(** [createMessageElement] can render the message. *)
Definition has_text (m : Message) : bool :=
  match parts m with [] => false | _ :: _ => true end.

(** A Flow as the program builds them: every message has a part, every
    artifact an id. *)
Definition well_formed (v : Flow.t) : bool :=
  forallb has_text (Flow.history v)
  && forallb (fun a => negb (Artifact.id a =? "")%string) (Flow.artifacts v).

(** The world after a checkpoint of the Flow value [v]. *)
Definition checkpointed (v : Flow.t) (w : World) : World :=
  set_state
    (set_redoStack []
       (set_historyStack
          (historyStack (state w) ++ [snd (alloc_flow v (heap w))]) (state w)))
    (set_heap (fst (alloc_flow v (heap w))) w).

(** [n] checkpoints in a row. *)
Fixpoint checkpoints (n : nat) : M unit :=
  match n with
  | O => ret tt
  | S n' => pushUndoState ;; checkpoints n'
  end.

(** The two messages of [modify_artifact]. *)
Definition notice_missing (artifactId : string) : Message :=
  msg model ("Apologies, I could not find an artifact with the ID "
               +:+ artifactId +:+ ".").

Definition notice_updated (title : string) : Message :=
  msg model ("I have updated the artifact: *" +:+ title +:+ "*.").

(** The artifact sequence after [modify_artifact]: the first artifact with
    the given id has the new content and its other four fields as before,
    every other artifact stays. *)
Fixpoint modify_first (aid c : string) (arts : list Artifact.t)
  : list Artifact.t :=
  match arts with
  | [] => []
  | a :: r =>
      if (Artifact.id a =? aid)%string
      then {| Artifact.id := Artifact.id a; Artifact.title := Artifact.title a;
              Artifact.type := Artifact.type a; Artifact.content := c;
              Artifact.language := Artifact.language a |} :: r
      else a :: modify_first aid c r
  end.

(** The world a hard initialisation starts from. *)
Definition reset_stacks (softRefresh : bool) (w : World) : World :=
  if softRefresh then w
  else set_state (set_redoStack [] (set_historyStack [] (state w))) w.

(** The world [initializeChat] hands to [renderArtifactViewer]. *)
Definition initialized (softRefresh : bool) (v : Flow.t) (w : World) : World :=
  let w0 := reset_stacks softRefresh w in
  set_state
    (set_activeArtifactId
       (resolveActiveArtifact (Flow.artifacts v) (activeArtifactId (state w)))
       (set_aiChat (Some (Flow.history v)) (set_isLoading true (state w0))))
    (set_catalystsHidden (0 <? length (Flow.history v))%nat
       (set_chatHistoryEl
          (if (length (Flow.history v) =? 0)%nat
           then [element (msg model welcomeMessageText)]
           else map element (Flow.history v))
          w0)).

(** The flows object and the heap after [JSON_parse_flows]. *)
Fixpoint alloc_flows (j : list (string * Flow.t)) (o : list (string * loc))
  (h : heap_t) : list (string * loc) * heap_t :=
  match j with
  | [] => (o, h)
  | (k, v) :: r =>
      alloc_flows r (define_property k (snd (alloc_flow v h)) o)
                  (fst (alloc_flow v h))
  end.

(** Keys in own-key order: of two keys, an array index comes before a key
    that is none, and before a greater array index. *)
Definition key_before (k k' : string) : bool :=
  match array_index k, array_index k' with
  | Some n, Some n' => (n <? n')%N
  | Some _, None => true
  | None, Some _ => false
  | None, None => true
  end.

Fixpoint own_key_order (ks : list string) : bool :=
  match ks with
  | [] => true
  | k :: r => forallb (key_before k) r && own_key_order r
  end.

(** The Flow of a first run. *)
Definition firstFlow (now : N) : Flow.t :=
  {| Flow.id := "flow-" +:+ show now; Flow.name := "My First Flow";
     Flow.history := []; Flow.snapshots := []; Flow.artifacts := [] |}.

(** The store can be used: there is an active flow id, not empty, that is
    the key of a flow; keys are distinct and none is empty; every flow and
    every snapshot on the two stacks can be read. *)
Definition store_ok (w : World) : Prop :=
  (exists a, activeFlowId (state w) = Some a /\ a <> ""
             /\ In a (Object_keys (flows (state w))))
  /\ NoDup (Object_keys (flows (state w)))
  /\ ~ In "" (Object_keys (flows (state w)))
  /\ is_Some (stringify_flows (heap w) (flows (state w)))
  /\ Forall (fun c => is_Some (reify (heap w) c))
            (historyStack (state w) ++ redoStack (state w)).

Definition set_name (n : string) (v : Flow.t) : Flow.t :=
  {| Flow.id := Flow.id v; Flow.name := n; Flow.history := Flow.history v;
     Flow.snapshots := Flow.snapshots v; Flow.artifacts := Flow.artifacts v |}.

(** The writes the program makes to an object: a new content for an array
    or an Artifact, a new name for a Flow. *)
Inductive write_ok (h : heap_t) : loc -> obj -> Prop :=
| write_messages x ms ms' :
    h !! x = Some (OMessages ms) -> write_ok h x (OMessages ms')
| write_artifact x a a' :
    h !! x = Some (OArtifact a) -> write_ok h x (OArtifact a')
| write_artifacts x als als' arts' :
    h !! x = Some (OArtifacts als) -> get_artifacts h als' = Some arts' ->
    write_ok h x (OArtifacts als')
| write_name x i n n' hl sl al :
    h !! x = Some (OFlow i n hl sl al) -> write_ok h x (OFlow i n' hl sl al).

(** [evolves lo h h']: the heap [h'] comes from [h] by allocations and by
    writes of the kinds above to objects below [lo]. *)
Inductive evolves (lo : nat) : heap_t -> heap_t -> Prop :=
| evolves_refl h : evolves lo h h
| evolves_alloc h h' ext : evolves lo h h' -> evolves lo h (h' ++ ext)
| evolves_write h h' x o :
    evolves lo h h' -> x < lo -> write_ok h' x o ->
    evolves lo h (<[x := o]> h').

(** The arguments have the shape declared for the name of the call. *)
Definition well_shaped (fc : FunctionCall) : bool :=
  if (name fc =? "present_artifact")%string then
    match args fc with PresentArgs _ _ _ _ => true | _ => false end
  else if (name fc =? "create_task_list")%string then
    match args fc with TaskListArgs _ => true | _ => false end
  else if (name fc =? "modify_artifact")%string then
    match args fc with ModifyArgs _ _ => true | _ => false end
  else true.

(** What a tool call does besides its changes to the live Flow: one
    checkpoint of the Flow value [v], the redo stack emptied, the rest of
    the session untouched, and a heap that evolved from the one with the
    checkpoint by writes to objects older than the checkpoint. *)
Definition call_effect (v : Flow.t) (w w' : World) : Prop :=
  flows (state w') = flows (state w)
  /\ activeFlowId (state w') = activeFlowId (state w)
  /\ isLoading (state w') = isLoading (state w)
  /\ aiChat (state w') = aiChat (state w)
  /\ historyStack (state w')
     = historyStack (state w) ++ [snd (alloc_flow v (heap w))]
  /\ redoStack (state w') = []
  /\ evolves (length (heap w)) (fst (alloc_flow v (heap w))) (heap w').

(** Only white space (or nothing at all). *)
Fixpoint all_space (s : string) : bool :=
  match s with
  | EmptyString => true
  | String c r => is_space c && all_space r
  end.

(** The session has an active Flow, at [fl], that can be read, in a store
    that can be serialised. *)
Definition serviceable (fl : loc) (w : World) : Prop :=
  truthy (activeFlowId (state w)) = true
  /\ prop_get (key (activeFlowId (state w))) (flows (state w)) = Some fl
  /\ is_Some (reify (heap w) fl)
  /\ is_Some (stringify_flows (heap w) (flows (state w))).

(** The loading flag set to [b]. *)
Definition loading (b : bool) (w : World) : World :=
  set_state (set_isLoading b (state w)) w.

(** The events a page in the state [w] can get: the Gateway answers with
    tool calls of the declared shapes, and a click in the flow list lands on
    the item of a flow there is.  [renderFlowList] (lines 420-439) gives an
    item the [id] field of its flow, which is the key of the flow in every
    flow this program makes. *)
Definition expected (e : Event) (w : World) : Prop :=
  match e with
  | FormSubmit _ (Response _ calls) =>
      Forall (fun c => well_shaped (snd c) = true) calls
  | FlowListClick (Some flowId) _ _ _ =>
      In flowId (Object_keys (flows (state w)))
  | _ => True
  end.

(** A session: every event is one the page can get in the state it is in
    when the event comes. *)
Fixpoint session (es : list Event) (w : World) : Prop :=
  match es with
  | [] => True
  | e :: r =>
      expected e w /\ forall w', dispatch e w = (Ok tt, w') -> session r w'
  end.

(** The Flow objects at [c] and at [l] have no cell in common. *)
Definition apart (h : heap_t) (c l : loc) : Prop :=
  forall y, In y (footprint h c) -> ~ In y (footprint h l).

(** [edits fl h0 h]: the heap [h] comes from [h0] by allocations and by
    writes of the kinds above to cells of the Flow at [fl], and the Flow
    takes in no cell that [h0] had and that was not its own. *)
Inductive edits (fl : loc) (h0 : heap_t) : heap_t -> Prop :=
| edits_refl : edits fl h0 h0
| edits_alloc h ext : edits fl h0 h -> edits fl h0 (h ++ ext)
| edits_write h x o :
    edits fl h0 h -> In x (footprint h fl) -> write_ok h x o ->
    (forall y, In y (footprint (<[x := o]> h) fl) ->
               In y (footprint h fl) \/ length h0 <= y) ->
    edits fl h0 (<[x := o]> h).

(** [n] times [m], one after the other. *)
Fixpoint times (n : nat) (m : M unit) : M unit :=
  match n with
  | 0 => ret tt
  | S n => m ;; times n m
  end.

(** The undo stack is sound: the store invariant holds, and the active
    Flow and the snapshots on the undo stack are different objects with no
    cell in common. *)
Definition undo_ok (w : World) : Prop :=
  store_ok w
  /\ exists fl,
       prop_get (key (activeFlowId (state w))) (flows (state w)) = Some fl
       /\ NoDup (fl :: historyStack (state w))
       /\ forall c l,
            In c (fl :: historyStack (state w)) ->
            In l (fl :: historyStack (state w)) ->
            c <> l -> apart (heap w) c l.

(** The Flow objects of the session: the flows, and the snapshots on the
    two stacks. *)
Definition objects (w : World) : list loc :=
  map snd (flows (state w))
    ++ historyStack (state w) ++ redoStack (state w).

(** Nothing is shared: the store invariant holds, and the Flow objects of
    the session are different objects, no two of which have a cell in
    common. *)
Definition unshared (w : World) : Prop :=
  store_ok w
  /\ NoDup (objects w)
  /\ forall c l, In c (objects w) -> In l (objects w) -> c <> l ->
                 apart (heap w) c l.

(** The item [fluid_flows] is one [loadFlows] takes in: it holds an object
    of Flows, nothing, or text that is no JSON. *)
Definition loadable (st : Storage) : Prop :=
  fluid_flows st = None -> fluid_flows_other st <> Some NotFlows.

(** The keys of the stored flows. *)
Definition stored_keys (st : Storage) : list string :=
  match fluid_flows st with
  | Some j => map fst j
  | None => []
  end.

(** Storage a session can start from: the item [fluid_flows] does not hold
    JSON for something else than an object of Flows; no stored flow has the
    empty key; and the stored active id, if it is the name of a member of
    [Object.prototype], is also the key of a stored flow. *)
Definition startable (st : Storage) : Prop :=
  loadable st
  /\ ~ In "" (stored_keys st)
  /\ forall a, fluid_active_flow_id st = Some a -> inherited a = true ->
               In a (stored_keys st).

(** ** Example worlds *)

Definition planA : Artifact.t :=
  {| Artifact.id := "artifact-1699902888812"; Artifact.title := "Plan";
     Artifact.type := "plan"; Artifact.content := "step one";
     Artifact.language := None |}.

Definition scriptA : Artifact.t :=
  {| Artifact.id := "artifact-1699902888950"; Artifact.title := "Scraper";
     Artifact.type := "code"; Artifact.content := "print(1)";
     Artifact.language := Some "python" |}.

Definition flowA : Flow.t :=
  {| Flow.id := "flow-1"; Flow.name := "My First Flow";
     Flow.history := [msg user "design X"; msg model "here is a plan"];
     Flow.snapshots := []; Flow.artifacts := [planA; scriptA] |}.

(** [flowA] at an earlier time. *)
Definition flowA0 : Flow.t :=
  {| Flow.id := "flow-1"; Flow.name := "My First Flow";
     Flow.history := [msg user "design X"];
     Flow.snapshots := []; Flow.artifacts := [planA] |}.

Definition flowB : Flow.t :=
  {| Flow.id := "flow-2"; Flow.name := "New Flow 2";
     Flow.history := []; Flow.snapshots := []; Flow.artifacts := [] |}.

(** One flow only. *)
Definition world1 : World :=
  let h1 := alloc_flow flowA [] in
  {| state :=
       {| isLoading := false;
          flows := [("flow-1", snd h1)];
          activeFlowId := Some "flow-1";
          aiChat := Some (Flow.history flowA);
          activeArtifactId := Some "artifact-1699902888950";
          historyStack := []; redoStack := [] |};
     heap := fst h1;
     chatHistoryEl := map element (Flow.history flowA);
     catalystsHidden := true;
     localStorage :=
       {| fluid_flows_other := None; fluid_flows := Some [("flow-1", flowA)];
          fluid_active_flow_id := Some "flow-1" |} |}.

(** Two flows, the first active, nothing to undo or redo. *)
Definition world2 : World :=
  let h1 := alloc_flow flowA [] in
  let h2 := alloc_flow flowB (fst h1) in
  {| state :=
       {| isLoading := false;
          flows := [("flow-1", snd h1); ("flow-2", snd h2)];
          activeFlowId := Some "flow-1";
          aiChat := Some (Flow.history flowA);
          activeArtifactId := Some "artifact-1699902888950";
          historyStack := []; redoStack := [] |};
     heap := fst h2;
     chatHistoryEl := map element (Flow.history flowA);
     catalystsHidden := true;
     localStorage :=
       {| fluid_flows_other := None;
          fluid_flows := Some [("flow-1", flowA); ("flow-2", flowB)];
          fluid_active_flow_id := Some "flow-1" |} |}.

(** The same with one snapshot of the active flow on each stack: an earlier
    state to undo to, a later one to redo to. *)
Definition world2_undone : World :=
  let h3 := alloc_flow flowA0 (heap world2) in
  let h4 := alloc_flow flowA (fst h3) in
  set_state
    (set_redoStack [snd h4] (set_historyStack [snd h3] (state world2)))
    (set_heap (fst h4) world2).

(** One flow, no artifact yet. *)
Definition world_fresh : World :=
  let h1 := alloc_flow flowB [] in
  {| state :=
       {| isLoading := false;
          flows := [("flow-2", snd h1)];
          activeFlowId := Some "flow-2";
          aiChat := Some [];
          activeArtifactId := None;
          historyStack := []; redoStack := [] |};
     heap := fst h1;
     chatHistoryEl := [element (msg model welcomeMessageText)];
     catalystsHidden := false;
     localStorage :=
       {| fluid_flows_other := None; fluid_flows := Some [("flow-2", flowB)];
          fluid_active_flow_id := Some "flow-2" |} |}.

(** A [present_artifact] call. *)
Definition present (title type content : string) : FunctionCall :=
  {| name := "present_artifact";
     args := PresentArgs title type content None |}.

(** A new session over the storage of [world2]: the state as it is declared
    (lines 169-177), an empty heap. *)
Definition world_fresh_session : World :=
  {| state :=
       {| isLoading := false; flows := []; activeFlowId := None;
          aiChat := None; activeArtifactId := None;
          historyStack := []; redoStack := [] |};
     heap := [];
     chatHistoryEl := [];
     catalystsHidden := false;
     localStorage := localStorage world2 |}.

(** ** Tactics *)

(** One step of evaluation of a monadic program. *)
Tactic Notation "mred" :=
  cbv beta iota zeta
      delta [bind ret get modify throw stuck read write alloc negb andb orb
             setLoading dom_append JSON_clone JSON_stringify JSON_parse
             field_history field_artifacts array_messages
             array_artifacts artifacts_of
             try_catch try_finally detach].
Tactic Notation "mred" "in" hyp(H) :=
  cbv beta iota zeta
      delta [bind ret get modify throw stuck read write alloc negb andb orb
             setLoading dom_append JSON_clone JSON_stringify JSON_parse
             field_history field_artifacts array_messages
             array_artifacts artifacts_of
             try_catch try_finally detach] in H.

(** Projections of updated worlds. *)
Ltac wsimpl :=
  cbn [state heap chatHistoryEl catalystsHidden localStorage
       set_state set_heap set_chatHistoryEl set_catalystsHidden set_localStorage
       isLoading flows activeFlowId aiChat activeArtifactId historyStack redoStack
       set_isLoading set_flows set_activeFlowId set_aiChat set_activeArtifactId
       set_historyStack set_redoStack
       fluid_flows fluid_active_flow_id fluid_flows_other] in *.

(** Case analysis on what the program in [H : prog = (r, w')] looks at
    next. *)
Ltac case_scrutinee x :=
  lazymatch x with
  | match ?y with _ => _ end => case_scrutinee y
  | (match ?y with _ => _ end) _ => case_scrutinee y
  | _ => destruct x eqn:?
  end.

Ltac next_case H :=
  lazymatch type of H with
  | match ?x with _ => _ end = _ => case_scrutinee x
  | (match ?x with _ => _ end) _ = _ => case_scrutinee x
  end.

Ltac run_cases H := repeat (next_case H; mred in H; wsimpl).

(** ** The heap: allocation and extension *)

Section Heap.
Implicit Types (h : heap_t) (l x : loc) (v : Flow.t).

Lemma get_artifact_app h h' x a :
  get_artifact h x = Some a -> get_artifact (h ++ h') x = Some a.
Proof.
  unfold get_artifact. destruct (h !! x) as [o|] eqn:E; [|discriminate].
  rewrite (lookup_app_l_Some _ _ _ _ E). auto.
Qed.

Lemma get_artifacts_app h h' ls arts :
  get_artifacts h ls = Some arts -> get_artifacts (h ++ h') ls = Some arts.
Proof.
  revert arts. induction ls as [|x ls IH]; intros arts; simpl; [auto|].
  destruct (get_artifact h x) as [a|] eqn:E; [|discriminate].
  destruct (get_artifacts h ls) as [r|]; [|discriminate].
  intros [= <-]. rewrite (get_artifact_app _ _ _ _ E), (IH r); auto.
Qed.

Lemma reify_app h h' l v : reify h l = Some v -> reify (h ++ h') l = Some v.
Proof.
  unfold reify.
  destruct (h !! l) as [[i n hl sl al| | | |]|] eqn:El; try discriminate.
  destruct (h !! hl) as [[|ms| | |]|] eqn:Eh; try discriminate.
  destruct (h !! sl) as [[| |ss| |]|] eqn:Es; try discriminate.
  destruct (h !! al) as [[| | |als|]|] eqn:Ea; try discriminate.
  destruct (get_artifacts h als) as [arts|] eqn:Eg; try discriminate.
  intros [= <-].
  rewrite (lookup_app_l_Some _ _ _ _ El), (lookup_app_l_Some _ _ _ _ Eh),
    (lookup_app_l_Some _ _ _ _ Es), (lookup_app_l_Some _ _ _ _ Ea),
    (get_artifacts_app _ _ _ _ Eg).
  reflexivity.
Qed.

Lemma stringify_flows_app h h' o j :
  stringify_flows h o = Some j -> stringify_flows (h ++ h') o = Some j.
Proof.
  revert j. induction o as [|[k l] o IH]; intros j; simpl; [auto|].
  destruct (reify h l) as [v|] eqn:E; [|discriminate].
  destruct (stringify_flows h o) as [r|]; [|discriminate].
  intros [= <-]. rewrite (reify_app _ _ _ _ E), (IH r); auto.
Qed.

Lemma stringify_flows_lookup h o j k l :
  stringify_flows h o = Some j -> prop_get k o = Some l ->
  is_Some (reify h l).
Proof.
  revert j. induction o as [|[k' l'] o IH]; intros j; simpl; [discriminate|].
  destruct (reify h l') as [v|] eqn:E; [|discriminate].
  destruct (stringify_flows h o) as [r|]; [|discriminate].
  intros _. destruct (k' =? k)%string.
  - intros [= <-]. eauto.
  - eauto.
Qed.

(** The cells of a freshly parsed Flow. *)
Lemma lookup_fresh_artifact h (arts : list Artifact.t) (tl : list obj) i a :
  arts !! i = Some a ->
  (h ++ map OArtifact arts ++ tl) !! (length h + i) = Some (OArtifact a).
Proof.
  intros Hi. rewrite lookup_app_r by lia.
  replace (length h + i - length h) with i by lia.
  apply lookup_app_l_Some.
  revert i Hi. induction arts as [|b arts IH]; intros [|i]; simpl;
    try discriminate; [congruence | apply IH].
Qed.

Lemma lookup_fresh_tail h (arts : list Artifact.t) (tl : list obj) i :
  (h ++ map OArtifact arts ++ tl) !! (length h + length arts + i) = tl !! i.
Proof.
  rewrite lookup_app_r by lia. rewrite lookup_app_r by (rewrite length_map; lia).
  rewrite length_map. f_equal. lia.
Qed.

Lemma get_fresh_artifacts (arts : list Artifact.t) : forall h (tl : list obj),
  get_artifacts (h ++ map OArtifact arts ++ tl) (seq (length h) (length arts))
  = Some arts.
Proof.
  induction arts as [|a arts IH]; intros h tl; simpl; [reflexivity|].
  unfold get_artifact. rewrite list_lookup_middle by reflexivity.
  replace (h ++ OArtifact a :: map OArtifact arts ++ tl)
    with ((h ++ [OArtifact a]) ++ map OArtifact arts ++ tl)
    by (rewrite <- app_assoc; reflexivity).
  replace (S (length h)) with (length (h ++ [OArtifact a]))
    by (rewrite length_app; simpl; lia).
  rewrite IH. reflexivity.
Qed.

(** Parsing gives back the value that was written. *)
Lemma reify_alloc_flow v h :
  reify (fst (alloc_flow v h)) (snd (alloc_flow v h)) = Some v.
Proof.
  destruct v as [i n ms ss arts]. unfold alloc_flow, reify; simpl.
  rewrite (lookup_fresh_tail h arts _ 3); simpl.
  replace (length h + length arts) with (length h + length arts + 0) at 1 by lia.
  rewrite (lookup_fresh_tail h arts _ 0), (lookup_fresh_tail h arts _ 1),
    (lookup_fresh_tail h arts _ 2); simpl.
  rewrite get_fresh_artifacts. reflexivity.
Qed.

Lemma alloc_flow_extends v h : exists ext, fst (alloc_flow v h) = h ++ ext.
Proof. unfold alloc_flow; simpl. eauto. Qed.

Lemma reify_alloc_old v h l u :
  reify h l = Some u -> reify (fst (alloc_flow v h)) l = Some u.
Proof. destruct (alloc_flow_extends v h) as [ext ->]. apply reify_app. Qed.

Lemma stringify_alloc_old v h o j :
  stringify_flows h o = Some j ->
  stringify_flows (fst (alloc_flow v h)) o = Some j.
Proof. destruct (alloc_flow_extends v h) as [ext ->]. apply stringify_flows_app. Qed.
End Heap.

(** ** In-place writes *)

Section Writes.
Implicit Types (h : list obj) (l x : nat) (v u : Flow.t).

Lemma reify_inv h l v :
  reify h l = Some v ->
  exists hl sl al als,
    h !! l = Some (OFlow (Flow.id v) (Flow.name v) hl sl al)
    /\ h !! hl = Some (OMessages (Flow.history v))
    /\ h !! sl = Some (OSnapshots (Flow.snapshots v))
    /\ h !! al = Some (OArtifacts als)
    /\ get_artifacts h als = Some (Flow.artifacts v).
Proof.
  unfold reify.
  destruct (h !! l) as [[i n hl sl al| | | |]|] eqn:El; try discriminate.
  destruct (h !! hl) as [[|ms| | |]|] eqn:Eh; try discriminate.
  destruct (h !! sl) as [[| |ss| |]|] eqn:Es; try discriminate.
  destruct (h !! al) as [[| | |als|]|] eqn:Ea; try discriminate.
  destruct (get_artifacts h als) as [arts|] eqn:Eg; try discriminate.
  intros [= <-]. exists hl, sl, al, als. simpl. auto.
Qed.

Lemma reify_intro h l i n hl sl al ms ss als arts :
  h !! l = Some (OFlow i n hl sl al) ->
  h !! hl = Some (OMessages ms) ->
  h !! sl = Some (OSnapshots ss) ->
  h !! al = Some (OArtifacts als) ->
  get_artifacts h als = Some arts ->
  reify h l = Some (Flow.Build_t i n ms ss arts).
Proof. intros El Eh Es Ea Eg. unfold reify. rewrite El, Eh, Es, Ea, Eg. auto. Qed.

Lemma get_artifacts_length h ls arts :
  get_artifacts h ls = Some arts -> length arts = length ls.
Proof.
  revert arts. induction ls as [|p ls IH]; intros arts; simpl.
  - intros [= <-]. reflexivity.
  - destruct (get_artifact h p); [|discriminate].
    destruct (get_artifacts h ls) as [r|]; [|discriminate].
    intros [= <-]. simpl. f_equal. auto.
Qed.

(** A write to a cell that is not an Artifact leaves every Artifact read
    as it was. *)
Lemma get_artifacts_write_other h x o o' ls arts :
  h !! x = Some o -> (forall a, o <> OArtifact a) ->
  get_artifacts h ls = Some arts ->
  get_artifacts (<[x := o']> h) ls = Some arts.
Proof.
  intros Hx Hk. revert arts. induction ls as [|p ls IH]; intros arts; simpl; [auto|].
  unfold get_artifact.
  destruct (h !! p) as [[| | | |a]|] eqn:Ep; try discriminate.
  destruct (get_artifacts h ls) as [r|]; [|discriminate].
  intros [= <-].
  rewrite list_lookup_insert_ne.
  - rewrite Ep, (IH r); auto.
  - intros ->. rewrite Hx in Ep. injection Ep as ->. eapply Hk; eauto.
Qed.

(** A write outside the footprint of a Flow does not change its value. *)
Lemma get_artifacts_write_outside h x o ls :
  ~ In x ls -> get_artifacts (<[x := o]> h) ls = get_artifacts h ls.
Proof.
  induction ls as [|p ls IH]; simpl; [auto|]. intros Hn.
  unfold get_artifact. rewrite list_lookup_insert_ne by intuition congruence.
  rewrite IH by tauto. reflexivity.
Qed.

Lemma reify_write_outside h x o l v :
  reify h l = Some v -> ~ In x (footprint h l) ->
  reify (<[x := o]> h) l = Some v.
Proof.
  intros Hr Hn. destruct (reify_inv _ _ _ Hr) as (hl & sl & al & als & El & Eh & Es & Ea & Eg).
  unfold footprint in Hn. rewrite El, Ea in Hn. simpl in Hn.
  destruct v as [i n ms ss arts]; simpl in *.
  apply reify_intro with (hl := hl) (sl := sl) (al := al) (als := als);
    try (rewrite list_lookup_insert_ne by (intuition congruence); assumption).
  rewrite get_artifacts_write_outside by tauto. assumption.
Qed.

(** [array.push] on a history array. *)
Lemma reify_write_messages h x ms ms' l v :
  h !! x = Some (OMessages ms) ->
  reify h l = Some v ->
  exists hl,
    (exists i n sl al, h !! l = Some (OFlow i n hl sl al))
    /\ reify (<[x := OMessages ms']> h) l
       = Some (if (hl =? x)%nat then set_history ms' v else v).
Proof.
  intros Hx Hr.
  destruct (reify_inv _ _ _ Hr) as (hl & sl & al & als & El & Eh & Es & Ea & Eg).
  exists hl. split; [eauto|].
  assert (Hxl : x < length h) by (eapply lookup_lt_Some; eauto).
  destruct v as [i n hs ss arts]; simpl in *.
  destruct (Nat.eqb_spec hl x) as [->|Hne].
  - apply reify_intro with (hl := x) (sl := sl) (al := al) (als := als).
    + rewrite list_lookup_insert_ne by congruence. assumption.
    + apply list_lookup_insert_eq; assumption.
    + rewrite list_lookup_insert_ne by congruence. assumption.
    + rewrite list_lookup_insert_ne by congruence. assumption.
    + eapply get_artifacts_write_other; eauto; discriminate.
  - apply reify_intro with (hl := hl) (sl := sl) (al := al) (als := als).
    + rewrite list_lookup_insert_ne by congruence. assumption.
    + rewrite list_lookup_insert_ne by congruence. assumption.
    + rewrite list_lookup_insert_ne by congruence. assumption.
    + rewrite list_lookup_insert_ne by congruence. assumption.
    + eapply get_artifacts_write_other; eauto; discriminate.
Qed.

Lemma stringify_write_messages h x ms ms' o j :
  h !! x = Some (OMessages ms) ->
  stringify_flows h o = Some j ->
  is_Some (stringify_flows (<[x := OMessages ms']> h) o).
Proof.
  intros Hx. revert j. induction o as [|[k l] o IH]; intros j; simpl; [eauto|].
  destruct (reify h l) as [v|] eqn:E; [|discriminate].
  destruct (stringify_flows h o) as [r|]; [|discriminate].
  intros _.
  destruct (reify_write_messages h x ms ms' l v Hx E) as (hl & _ & ->).
  destruct (IH r eq_refl) as [r' ->]. eauto.
Qed.
End Writes.

(** ** Checkpoints *)

Lemma pushUndoState_run w fl v :
  truthy (activeFlowId (state w)) = true ->
  prop_get (key (activeFlowId (state w))) (flows (state w)) = Some fl ->
  reify (heap w) fl = Some v ->
  pushUndoState w = (Ok tt, checkpointed v w).
Proof.
  intros Ht Hg Hr. unfold pushUndoState. mred.
  rewrite Ht. mred. rewrite Hg. mred. rewrite Hr. reflexivity.
Qed.

Lemma pushUndoState_skip w :
  truthy (activeFlowId (state w)) = false -> pushUndoState w = (Ok tt, w).
Proof. intros Ht. unfold pushUndoState. mred. rewrite Ht. reflexivity. Qed.

Section Footprints.
Implicit Types (h : list obj) (l x : nat) (v : Flow.t).

Lemma get_artifacts_bound h ls arts x :
  get_artifacts h ls = Some arts -> In x ls -> x < length h.
Proof.
  revert arts. induction ls as [|p ls IH]; intros arts; simpl; [tauto|].
  unfold get_artifact. destruct (h !! p) as [o|] eqn:Ep; [|discriminate].
  destruct o; try discriminate.
  destruct (get_artifacts h ls) as [r|]; [|discriminate].
  intros _ [<-|Hin]; [eapply lookup_lt_Some; eauto | eauto].
Qed.

(** Every cell of a Flow that can be read lies in the heap. *)
Lemma footprint_bound h l v x :
  reify h l = Some v -> In x (footprint h l) -> x < length h.
Proof.
  intros Hr. destruct (reify_inv _ _ _ Hr) as (hl & sl & al & als & El & Eh & Es & Ea & Eg).
  unfold footprint. rewrite El, Ea. simpl.
  intros [<-|[<-|[<-|[<-|Hin]]]]; try solve [eapply lookup_lt_Some; eauto].
  eapply get_artifacts_bound; eauto.
Qed.

Lemma footprint_app h h' l v :
  reify h l = Some v -> footprint (h ++ h') l = footprint h l.
Proof.
  intros Hr. destruct (reify_inv _ _ _ Hr) as (hl & sl & al & als & El & Eh & Es & Ea & Eg).
  unfold footprint.
  rewrite (lookup_app_l_Some _ _ _ _ El), (lookup_app_l_Some _ _ _ _ Ea), El, Ea.
  reflexivity.
Qed.

(** Every cell of a parsed Flow is new. *)
Lemma footprint_alloc_flow v h x :
  In x (footprint (fst (alloc_flow v h)) (snd (alloc_flow v h))) ->
  length h <= x.
Proof.
  destruct v as [i n ms ss arts]. unfold alloc_flow, footprint; simpl.
  rewrite (lookup_fresh_tail h arts _ 3); simpl.
  rewrite (lookup_fresh_tail h arts _ 2); simpl.
  intros [<-|[<-|[<-|[<-|Hin]]]]; try lia.
  apply in_seq in Hin. lia.
Qed.
End Footprints.

(** A copy made by a checkpoint and a Flow that was there before share no
    cell, so no write to the one changes the other. *)
Lemma alloc_flow_disjoint v h l u x :
  reify h l = Some u ->
  In x (footprint (fst (alloc_flow v h)) (snd (alloc_flow v h))) ->
  ~ In x (footprint (fst (alloc_flow v h)) l).
Proof.
  intros Hr Hin Hin'. apply footprint_alloc_flow in Hin.
  destruct (alloc_flow_extends v h) as [ext Hext]. rewrite Hext in Hin'.
  rewrite (footprint_app _ _ _ _ Hr) in Hin'.
  apply (footprint_bound _ _ _ _ Hr) in Hin'. lia.
Qed.

Lemma checkpoints_length : forall n w fl v,
  truthy (activeFlowId (state w)) = true ->
  prop_get (key (activeFlowId (state w))) (flows (state w)) = Some fl ->
  reify (heap w) fl = Some v ->
  exists w',
    checkpoints n w = (Ok tt, w')
    /\ length (historyStack (state w')) = length (historyStack (state w)) + n.
Proof.
  induction n as [|n IH]; intros w fl v Ht Hg Hr; simpl.
  - exists w. split; [reflexivity | lia].
  - unfold bind. rewrite (pushUndoState_run w fl v Ht Hg Hr).
    destruct (IH (checkpointed v w) fl v) as (w' & Hrun & Hlen); auto.
    { simpl. apply reify_alloc_old. assumption. }
    exists w'. split; [assumption|].
    rewrite Hlen. simpl. rewrite length_app. simpl. lia.
Qed.

(** ** Properties of checkpoints *)

Lemma activeFlow_checkpointed v w fl u :
  prop_get (key (activeFlowId (state w))) (flows (state w)) = Some fl ->
  reify (heap w) fl = Some u ->
  activeFlow (checkpointed v w) = Some u.
Proof.
  intros Hg Hr. unfold activeFlow. simpl. rewrite Hg.
  apply reify_alloc_old. assumption.
Qed.

(** C7. Every checkpoint ([pushUndoState] with an active Flow) empties the
    redo stack, whatever it held, and pushes on the undo stack a copy of the
    active Flow: a new object with the same value, made of cells none of
    which belongs to the live Flow, so that no later write to the live Flow
    changes it.  [n] checkpoints in a row make the undo stack [n] entries
    longer. *)
Theorem pushUndoState_checkpoint w fl v n :
  truthy (activeFlowId (state w)) = true ->
  prop_get (key (activeFlowId (state w))) (flows (state w)) = Some fl ->
  reify (heap w) fl = Some v ->
  exists w' c,
    pushUndoState w = (Ok tt, w')
    /\ redoStack (state w') = []
    /\ historyStack (state w') = historyStack (state w) ++ [c]
    /\ reify (heap w') c = Some v
    /\ activeFlow w' = Some v
    /\ (forall x, In x (footprint (heap w') c) ->
                  length (heap w) <= x /\ ~ In x (footprint (heap w') fl))
    /\ (forall x o, In x (footprint (heap w') fl) ->
                    reify (<[x := o]> (heap w')) c = Some v)
    /\ exists wn,
         checkpoints n w = (Ok tt, wn)
         /\ length (historyStack (state wn))
            = length (historyStack (state w)) + n.
Proof.
  intros Ht Hg Hr.
  exists (checkpointed v w), (snd (alloc_flow v (heap w))).
  split; [apply (pushUndoState_run w fl v Ht Hg Hr)|].
  split; [reflexivity|]. split; [reflexivity|].
  split; [apply reify_alloc_flow|].
  split; [apply (activeFlow_checkpointed v w fl v Hg Hr)|].
  split; [|split].
  - intros x Hin. simpl in *. split.
    + apply (footprint_alloc_flow v (heap w) x Hin).
    + apply (alloc_flow_disjoint v (heap w) fl v x Hr Hin).
  - intros x o Hin. simpl in *. apply reify_write_outside.
    + apply reify_alloc_flow.
    + intros Hin'. apply (alloc_flow_disjoint v (heap w) fl v x Hr Hin' Hin).
  - apply (checkpoints_length n w fl v Ht Hg Hr).
Qed.

Lemma pushUndoState_checkpoint_witness :
  truthy (activeFlowId (state world2_undone)) = true
  /\ redoStack (state world2_undone) <> []
  /\ exists w' c,
       pushUndoState world2_undone = (Ok tt, w')
       /\ redoStack (state w') = []
       /\ historyStack (state w') = historyStack (state world2_undone) ++ [c]
       /\ reify (heap w') c = Some flowA.
Proof.
  split; [reflexivity|]. split; [discriminate|].
  destruct (pushUndoState_checkpoint world2_undone 5 flowA 3)
    as (w' & c & H1 & H2 & H3 & H4 & _); [reflexivity ..|].
  exists w', c. auto.
Defined.

(** ** Tool calls with an unknown name *)

Lemma handleFunctionCall_unknown now fc :
  name fc <> "present_artifact" ->
  name fc <> "create_task_list" ->
  name fc <> "modify_artifact" ->
  forall w, handleFunctionCall now fc w = pushUndoState w.
Proof.
  intros H1 H2 H3 w. unfold handleFunctionCall.
  apply String.eqb_neq in H1, H2, H3. rewrite H1, H2, H3.
  unfold bind, get.
  destruct (pushUndoState w) as [[[]|e|] w']; reflexivity.
Qed.

(** C9. A tool call whose name is none of the three known ones does not
    throw, leaves the active Flow, the store, the chat pane and what is
    persisted as they were, and takes one checkpoint at most.  (It takes
    exactly one when there is an active Flow.) *)
Theorem unknown_tool_ignored now fc w :
  name fc <> "present_artifact" ->
  name fc <> "create_task_list" ->
  name fc <> "modify_artifact" ->
  (truthy (activeFlowId (state w)) = true -> is_Some (activeFlow w)) ->
  exists w',
    handleFunctionCall now fc w = (Ok tt, w')
    /\ activeFlow w' = activeFlow w
    /\ flows (state w') = flows (state w)
    /\ activeFlowId (state w') = activeFlowId (state w)
    /\ activeArtifactId (state w') = activeArtifactId (state w)
    /\ chatHistoryEl w' = chatHistoryEl w
    /\ localStorage w' = localStorage w
    /\ length (historyStack (state w')) <= length (historyStack (state w)) + 1
    /\ (truthy (activeFlowId (state w)) = true ->
        length (historyStack (state w')) = length (historyStack (state w)) + 1).
Proof.
  intros H1 H2 H3 Hact.
  rewrite (handleFunctionCall_unknown now fc H1 H2 H3 w).
  destruct (truthy (activeFlowId (state w))) eqn:Ht.
  - destruct (Hact eq_refl) as [v Hv]. unfold activeFlow in Hv.
    destruct (prop_get (key (activeFlowId (state w))) (flows (state w)))
      as [fl|] eqn:Hg; [|discriminate].
    exists (checkpointed v w).
    split; [apply (pushUndoState_run w fl v Ht Hg Hv)|].
    split.
    { rewrite (activeFlow_checkpointed v w fl v Hg Hv).
      unfold activeFlow. rewrite Hg. auto. }
    simpl. repeat split; try reflexivity; rewrite length_app; simpl; lia.
  - exists w. split; [apply (pushUndoState_skip w Ht)|].
    repeat split; try reflexivity; try lia; discriminate.
Qed.

Lemma unknown_tool_ignored_witness :
  exists w',
    handleFunctionCall 1699902900000
      {| name := "summon_dragon"; args := OtherArgs |} world2 = (Ok tt, w')
    /\ activeFlow w' = activeFlow world2
    /\ chatHistoryEl w' = chatHistoryEl world2
    /\ length (historyStack (state w')) <= 1.
Proof.
  destruct (unknown_tool_ignored 1699902900000
              {| name := "summon_dragon"; args := OtherArgs |} world2)
    as (w' & H1 & H2 & _ & _ & _ & H3 & _ & H4 & _);
    try (simpl; discriminate).
  - intros _. vm_compute. eauto.
  - exists w'. auto.
Defined.

(** ** Appending a message *)

Lemma appendMessage_run w r t ex fl v j :
  truthy (activeFlowId (state w)) = true ->
  prop_get (key (activeFlowId (state w))) (flows (state w)) = Some fl ->
  reify (heap w) fl = Some v ->
  stringify_flows (heap w) (flows (state w)) = Some j ->
  exists w' hl,
    appendMessage r t ex w = (Ok tt, w')
    /\ state w' = state w
    /\ In hl (footprint (heap w) fl)
    /\ heap w' = <[hl := OMessages (Flow.history v ++ [msg r t])]> (heap w)
    /\ reify (heap w') fl = Some (set_history (Flow.history v ++ [msg r t]) v)
    /\ persisted w'
    /\ chatHistoryEl w'
       = chatHistoryEl w ++ [ {| shown := msg r t; extra := ex |} ]
    /\ catalystsHidden w' = catalystsHidden w
    /\ heap w !! hl = Some (OMessages (Flow.history v))
    /\ exists sl al,
         heap w !! fl = Some (OFlow (Flow.id v) (Flow.name v) hl sl al).
Proof.
  intros Ht Hg Hr Hj.
  destruct (reify_inv _ _ _ Hr) as (hl & sl & al & als & El & Eh & Es & Ea & Eg).
  destruct (stringify_write_messages (heap w) hl (Flow.history v)
              (Flow.history v ++ [msg r t]) _ _ Eh Hj) as [j' Hj'].
  destruct (reify_write_messages (heap w) hl (Flow.history v)
              (Flow.history v ++ [msg r t]) fl v Eh Hr) as (hl' & (i & n & sl' & al' & El') & Hr').
  assert (hl' = hl) as -> by congruence.
  rewrite Nat.eqb_refl in Hr'.
  eexists _, hl.
  split.
  { unfold appendMessage. mred. rewrite Ht. mred. rewrite Hg. mred.
    rewrite El. mred. rewrite Eh. mred. unfold saveFlows. wsimpl.
    change {| role := r; parts := [ {| text := t |} ] |} with (msg r t).
    rewrite Hj'. mred. reflexivity. }
  wsimpl. unfold persisted. wsimpl.
  assert (In hl (footprint (heap w) fl))
    by (unfold footprint; rewrite El; simpl; auto).
  repeat split; eauto.
Qed.

(** ** Submitting a message *)

Lemma handleFormSubmit_accept input reply w :
  isLoading (state w) = false ->
  trim input <> "" ->
  handleFormSubmit input reply w
  = (acceptSubmission (trim input) ;; awaitReply reply) w.
Proof.
  intros Hl Hne. unfold handleFormSubmit at 1. unfold bind at 1, get.
  rewrite Hl. unfold truthy. apply String.eqb_neq in Hne. rewrite Hne.
  reflexivity.
Qed.

(** C3, as the code has it.  An accepted submission (no request in flight,
    input not blank) first takes a checkpoint: the undo stack gets one more
    entry, a copy of the active Flow as it was before the message, and the
    redo stack is emptied.  Then the user Message is appended to the active
    Flow and the store is persisted. *)
Theorem submit_checkpoints_then_appends input reply w fl v j :
  isLoading (state w) = false ->
  trim input <> "" ->
  truthy (activeFlowId (state w)) = true ->
  prop_get (key (activeFlowId (state w))) (flows (state w)) = Some fl ->
  reify (heap w) fl = Some v ->
  stringify_flows (heap w) (flows (state w)) = Some j ->
  handleFormSubmit input reply w
  = (acceptSubmission (trim input) ;; awaitReply reply) w
  /\ exists w' c,
       acceptSubmission (trim input) w = (Ok tt, w')
       /\ historyStack (state w') = historyStack (state w) ++ [c]
       /\ redoStack (state w') = []
       /\ reify (heap w') c = Some v
       /\ activeFlow w'
          = Some (set_history (Flow.history v ++ [msg user (trim input)]) v)
       /\ persisted w'
       /\ isLoading (state w') = true.
Proof.
  intros Hl Hne Ht Hg Hr Hj.
  split; [apply handleFormSubmit_accept; assumption|].
  set (w1 := set_catalystsHidden true (checkpointed v w)).
  destruct (appendMessage_run w1 user (trim input) None fl v j)
    as (w2 & hl & Hrun & Hst & Hin & Hheap & Hrf & Hper & Hchat & Hcat).
  { exact Ht. }
  { exact Hg. }
  { simpl. apply reify_alloc_old. exact Hr. }
  { simpl. apply stringify_alloc_old. exact Hj. }
  exists (set_state (set_isLoading true (state w2)) w2),
         (snd (alloc_flow v (heap w))).
  split.
  { unfold acceptSubmission, bind at 1.
    rewrite (pushUndoState_run w fl v Ht Hg Hr). mred.
    fold w1. rewrite Hrun. reflexivity. }
  wsimpl. rewrite Hst. subst w1. wsimpl.
  split; [reflexivity|]. split; [reflexivity|].
  split.
  { rewrite Hheap. apply reify_write_outside; [apply reify_alloc_flow|].
    intros Hin'. apply (alloc_flow_disjoint v (heap w) fl v hl Hr Hin' Hin). }
  split.
  { unfold activeFlow, checkpointed. wsimpl. rewrite Hg. exact Hrf. }
  split; [|reflexivity].
  unfold persisted, checkpointed in *. wsimpl. rewrite Hst in Hper. wsimpl.
  exact Hper.
Qed.

Lemma submit_checkpoints_then_appends_witness :
  exists w' c,
    acceptSubmission (trim "  design Y ") world1 = (Ok tt, w')
    /\ historyStack (state w') = historyStack (state world1) ++ [c]
    /\ reify (heap w') c = Some flowA
    /\ activeFlow w'
       = Some (set_history (Flow.history flowA
                              ++ [msg user (trim "  design Y ")]) flowA).
Proof.
  destruct (submit_checkpoints_then_appends "  design Y " Rejected world1 5
              flowA [("flow-1", flowA)])
    as (_ & w' & c & H1 & H2 & _ & H3 & H4 & _);
    try reflexivity.
  - vm_compute. discriminate.
  - exists w', c. auto.
Defined.

(** C3, as stated, fails: the undo stack is not left unchanged by an
    accepted submission.  With nothing to undo before, there is one entry
    after, holding the Flow as it was before the user message. *)
Lemma submit_leaves_undo_stack_counterexample :
  isLoading (state world1) = false
  /\ historyStack (state world1) = []
  /\ exists w',
       handleFormSubmit "design Y" (Response None []) world1 = (Ok tt, w')
       /\ historyStack (state w') = [11]
       /\ historyStack (state w') <> historyStack (state world1)
       /\ reify (heap w') 11 = Some flowA
       /\ activeFlow w'
          = Some (set_history (Flow.history flowA ++ [msg user "design Y"]) flowA).
Proof.
  split; [reflexivity|]. split; [reflexivity|].
  eexists. split; [vm_compute; reflexivity|].
  split; [reflexivity|]. split; [discriminate|].
  split; vm_compute; reflexivity.
Qed.

(** ** Looking an artifact up and overwriting it *)

Section Lookup.
Implicit Types (h : list obj) (l x : nat) (v : Flow.t).
Variable aid : string.

Local Abbreviation by_id := (fun p : nat * Artifact.t => (Artifact.id (snd p) =? aid)%string).

Lemma find_combine_none (als : list nat) : forall arts,
  ~ In aid (map Artifact.id arts) -> find by_id (combine als arts) = None.
Proof.
  induction als as [|p ps IH]; intros [|b bs] Hn; simpl; try reflexivity.
  simpl in *.
  destruct (String.eqb_spec (Artifact.id b) aid) as [E|E]; [tauto|].
  apply IH. tauto.
Qed.

Lemma zip_with_outside (f : nat -> Artifact.t -> Artifact.t) x :
  (forall p b, p <> x -> f p b = b) ->
  forall (ps : list nat) bs, ~ In x ps -> zip_with f ps bs = take (length ps) bs.
Proof.
  intros Hf. induction ps as [|p ps IH]; intros [|b bs] Hn; simpl; try reflexivity.
  rewrite Hf by (simpl in Hn; intuition congruence).
  rewrite IH by (simpl in Hn; tauto). reflexivity.
Qed.

Lemma find_combine_first c x a : forall (als : list nat) arts,
  length arts = length als -> NoDup als ->
  find by_id (combine als arts) = Some (x, a) ->
  In x als
  /\ find (fun b => (Artifact.id b =? aid)%string) arts = Some a
  /\ zip_with (fun p b => if (p =? x)%nat then with_content c a else b) als arts
     = modify_first aid c arts.
Proof.
  induction als as [|p ps IH]; intros [|b bs] Hlen Hnd; simpl in *;
    try discriminate.
  apply NoDup_cons in Hnd as [Hp Hnd].
  simpl.
  destruct (Artifact.id b =? aid)%string.
  - intros [= <- <-]. split; [auto|]. split; [reflexivity|].
    rewrite Nat.eqb_refl. f_equal.
    rewrite zip_with_outside with (x := p).
    + rewrite firstn_all2 by lia. reflexivity.
    + intros q b' Hq. apply Nat.eqb_neq in Hq. rewrite Hq. reflexivity.
    + rewrite <- list_elem_of_In. exact Hp.
  - intros Hf. destruct (IH bs) as (Hin & Hfind & Hzip); auto.
    split; [auto|]. split; [assumption|].
    rewrite Hzip.
    destruct (Nat.eqb_spec p x) as [->|_]; [|reflexivity].
    exfalso. apply Hp. rewrite list_elem_of_In. exact Hin.
Qed.

Lemma get_artifacts_combine h x a : forall (als : list nat) arts,
  get_artifacts h als = Some arts -> In (x, a) (combine als arts) ->
  h !! x = Some (OArtifact a).
Proof.
  induction als as [|p ps IH]; intros arts; simpl.
  - intros [= <-] [].
  - unfold get_artifact.
    destruct (h !! p) as [[| | | |b]|] eqn:Ep; try discriminate.
    destruct (get_artifacts h ps) as [r|]; [|discriminate].
    intros [= <-]. simpl. intros [[= <- <-]|Hin]; [assumption|].
    apply (IH r); auto.
Qed.

(** Overwriting an Artifact object. *)
Lemma get_artifacts_write_artifact h x a a' : forall (ls : list nat) arts,
  h !! x = Some (OArtifact a) ->
  get_artifacts h ls = Some arts ->
  get_artifacts (<[x := OArtifact a']> h) ls
  = Some (zip_with (fun p b => if (p =? x)%nat then a' else b) ls arts).
Proof.
  intros ls arts Hx. revert arts.
  assert (Hlt : x < length h) by (eapply lookup_lt_Some; eauto).
  induction ls as [|p ls IH]; intros arts; simpl.
  - intros [= <-]. reflexivity.
  - unfold get_artifact.
    destruct (h !! p) as [[| | | |b]|] eqn:Ep; try discriminate.
    destruct (get_artifacts h ls) as [r|]; [|discriminate].
    intros [= <-]. rewrite (IH r eq_refl). simpl.
    destruct (Nat.eqb_spec p x) as [->|Hne].
    + rewrite list_lookup_insert_eq by assumption. reflexivity.
    + rewrite list_lookup_insert_ne by congruence. rewrite Ep. reflexivity.
Qed.

Lemma reify_write_artifact h x a a' l v :
  h !! x = Some (OArtifact a) ->
  reify h l = Some v ->
  exists al als,
    (exists i n hl sl, h !! l = Some (OFlow i n hl sl al))
    /\ h !! al = Some (OArtifacts als)
    /\ reify (<[x := OArtifact a']> h) l
       = Some (set_artifacts
                 (zip_with (fun p b => if (p =? x)%nat then a' else b)
                           als (Flow.artifacts v)) v).
Proof.
  intros Hx Hr.
  destruct (reify_inv _ _ _ Hr) as (hl & sl & al & als & El & Eh & Es & Ea & Eg).
  exists al, als. split; [eauto|]. split; [assumption|].
  destruct v as [i n hs ss arts]; simpl in *.
  apply reify_intro with (hl := hl) (sl := sl) (al := al) (als := als);
    try (rewrite list_lookup_insert_ne by congruence; assumption).
  eapply get_artifacts_write_artifact; eauto.
Qed.

Lemma stringify_write_artifact h x a a' o j :
  h !! x = Some (OArtifact a) ->
  stringify_flows h o = Some j ->
  is_Some (stringify_flows (<[x := OArtifact a']> h) o).
Proof.
  intros Hx. revert j. induction o as [|[k l] o IH]; intros j; simpl; [eauto|].
  destruct (reify h l) as [v|] eqn:E; [|discriminate].
  destruct (stringify_flows h o) as [r|]; [|discriminate].
  intros _.
  destruct (reify_write_artifact h x a a' l v Hx E) as (al & als & _ & _ & ->).
  destruct (IH r eq_refl) as [r' ->]. eauto.
Qed.
End Lookup.

(** ** [modify_artifact] *)

(** C4. A [modify_artifact] call whose id no artifact of the active Flow
    has: the artifact sequence stays as it is, the history gets one more
    Message at its end, model-authored and naming the id, every earlier
    Message stays, and the store is persisted. *)
Theorem modify_missing_artifact now artifactId newContent w fl v j :
  truthy (activeFlowId (state w)) = true ->
  prop_get (key (activeFlowId (state w))) (flows (state w)) = Some fl ->
  reify (heap w) fl = Some v ->
  stringify_flows (heap w) (flows (state w)) = Some j ->
  ~ In artifactId (map Artifact.id (Flow.artifacts v)) ->
  exists w' v',
    handleFunctionCall now
      {| name := "modify_artifact"; args := ModifyArgs artifactId newContent |} w
    = (Ok tt, w')
    /\ activeFlow w' = Some v'
    /\ Flow.artifacts v' = Flow.artifacts v
    /\ Flow.history v' = Flow.history v ++ [notice_missing artifactId]
    /\ v' = set_history (Flow.history v ++ [notice_missing artifactId]) v
    /\ chatHistoryEl w'
       = chatHistoryEl w
           ++ [ {| shown := notice_missing artifactId; extra := None |} ]
    /\ persisted w'.
Proof.
  intros Ht Hg Hr Hj Hn.
  set (w1 := checkpointed v w).
  assert (Hr1 : reify (heap w1) fl = Some v) by (apply reify_alloc_old; exact Hr).
  assert (Hj1 : stringify_flows (heap w1) (flows (state w1)) = Some j)
    by (apply stringify_alloc_old; exact Hj).
  destruct (reify_inv _ _ _ Hr1) as (hl & sl & al & als & El & Eh & Es & Ea & Eg).
  destruct (appendMessage_run w1 model
              ("Apologies, I could not find an artifact with the ID "
                 +:+ artifactId +:+ ".") None fl v j Ht Hg Hr1 Hj1)
    as (w2 & hl' & Hrun & Hst & Hin & Hheap & Hrf & Hper & Hchat & Hcat).
  exists w2, (set_history (Flow.history v ++ [notice_missing artifactId]) v).
  split.
  { unfold handleFunctionCall. mred. cbn [name args].
    rewrite (pushUndoState_run w fl v Ht Hg Hr). fold w1. mred.
    change (("modify_artifact" =? "present_artifact")%string) with false.
    change (("modify_artifact" =? "create_task_list")%string) with false.
    change (("modify_artifact" =? "modify_artifact")%string) with true.
    mred. rewrite Hg. mred. rewrite El. mred. rewrite Ea. mred. rewrite Eg.
    mred. rewrite (find_combine_none artifactId als _ Hn). exact Hrun. }
  split.
  { unfold activeFlow. rewrite Hst. subst w1. unfold checkpointed. wsimpl.
    rewrite Hg. exact Hrf. }
  split; [reflexivity|]. split; [reflexivity|]. split; [reflexivity|].
  split; [exact Hchat | exact Hper].
Qed.

Lemma modify_missing_artifact_witness :
  ~ In "artifact-0" (map Artifact.id (Flow.artifacts flowA))
  /\ exists w' v',
       handleFunctionCall 1699902900000
         {| name := "modify_artifact"; args := ModifyArgs "artifact-0" "new" |}
         world2
       = (Ok tt, w')
       /\ activeFlow w' = Some v'
       /\ Flow.artifacts v' = [planA; scriptA]
       /\ Flow.history v' = Flow.history flowA ++ [notice_missing "artifact-0"].
Proof.
  assert (Hn : ~ In "artifact-0" (map Artifact.id (Flow.artifacts flowA)))
    by (simpl; intros [H|[H|[]]]; discriminate).
  split; [exact Hn|].
  destruct (modify_missing_artifact 1699902900000 "artifact-0" "new" world2 5
              flowA [("flow-1", flowA); ("flow-2", flowB)])
    as (w' & v' & H1 & H2 & H3 & H4 & _); try reflexivity; [exact Hn|].
  exists w', v'. auto.
Defined.

Lemma find_combine_some aid a : forall (als : list nat) arts,
  length arts = length als ->
  find (fun b => (Artifact.id b =? aid)%string) arts = Some a ->
  exists x,
    find (fun p : nat * Artifact.t => (Artifact.id (snd p) =? aid)%string)
         (combine als arts) = Some (x, a).
Proof.
  induction als as [|p ps IH]; intros [|b bs] Hlen; simpl in *; try discriminate.
  destruct (Artifact.id b =? aid)%string.
  - intros [= <-]. eauto.
  - apply IH. lia.
Qed.

Lemma modify_first_split aid c a : forall arts,
  find (fun b => (Artifact.id b =? aid)%string) arts = Some a ->
  exists pre post,
    arts = pre ++ a :: post
    /\ Forall (fun b => Artifact.id b <> aid) pre
    /\ modify_first aid c arts
       = pre ++ {| Artifact.id := Artifact.id a;
                   Artifact.title := Artifact.title a;
                   Artifact.type := Artifact.type a;
                   Artifact.content := c;
                   Artifact.language := Artifact.language a |} :: post.
Proof.
  induction arts as [|b bs IH]; simpl; [discriminate|].
  destruct (String.eqb_spec (Artifact.id b) aid) as [E|E].
  - intros [= ->]. exists [], bs. repeat split. constructor.
  - intros H. destruct (IH H) as (pre & post & E1 & E2 & E3).
    exists (b :: pre), post. rewrite E1 at 1. rewrite E3.
    repeat split. constructor; assumption.
Qed.

(** C10. A [modify_artifact] call whose id an artifact of the active Flow
    has: the first such artifact gets the new content in place, so that its
    content is the call's [newContent] and its id, title, type and language
    are what they were; every other artifact stays, and the history gets
    one more Message at its end, model-authored and naming the artifact's
    title; the store is persisted. *)
Theorem modify_existing_artifact now artifactId newContent w fl v j a :
  truthy (activeFlowId (state w)) = true ->
  prop_get (key (activeFlowId (state w))) (flows (state w)) = Some fl ->
  reify (heap w) fl = Some v ->
  stringify_flows (heap w) (flows (state w)) = Some j ->
  NoDup (footprint (heap w) fl) ->
  find (fun b => (Artifact.id b =? artifactId)%string) (Flow.artifacts v)
  = Some a ->
  exists w' v',
    handleFunctionCall now
      {| name := "modify_artifact"; args := ModifyArgs artifactId newContent |} w
    = (Ok tt, w')
    /\ activeFlow w' = Some v'
    /\ Flow.artifacts v' = modify_first artifactId newContent (Flow.artifacts v)
    /\ (exists pre post,
          Flow.artifacts v = pre ++ a :: post
          /\ Forall (fun b => Artifact.id b <> artifactId) pre
          /\ Flow.artifacts v'
             = pre ++ {| Artifact.id := Artifact.id a;
                         Artifact.title := Artifact.title a;
                         Artifact.type := Artifact.type a;
                         Artifact.content := newContent;
                         Artifact.language := Artifact.language a |} :: post)
    /\ Flow.history v' = Flow.history v ++ [notice_updated (Artifact.title a)]
    /\ Flow.id v' = Flow.id v /\ Flow.name v' = Flow.name v
    /\ Flow.snapshots v' = Flow.snapshots v
    /\ chatHistoryEl w'
       = chatHistoryEl w
           ++ [ {| shown := notice_updated (Artifact.title a); extra := None |} ]
    /\ persisted w'.
Proof.
  intros Ht Hg Hr Hj Hnd Hfind.
  destruct (reify_inv _ _ _ Hr) as (hl & sl & al & als & El & Eh & Es & Ea & Eg).
  assert (Hnd' : NoDup als).
  { unfold footprint in Hnd. rewrite El, Ea in Hnd.
    do 4 apply NoDup_cons in Hnd as [_ Hnd]. exact Hnd. }
  pose proof (get_artifacts_length _ _ _ Eg) as Hlen.
  destruct (find_combine_some artifactId a als _ Hlen Hfind) as [x Hfc].
  destruct (find_combine_first artifactId newContent x a als _ Hlen Hnd' Hfc)
    as (Hin & _ & Hzip).
  pose proof (get_artifacts_combine _ x a als _ Eg (proj1 (find_some _ _ Hfc))) as Hx.
  set (w1 := checkpointed v w).
  destruct (alloc_flow_extends v (heap w)) as [ext Hext].
  assert (Hh1 : heap w1 = heap w ++ ext) by exact Hext.
  assert (El1 := lookup_app_l_Some _ ext _ _ El).
  assert (Ea1 := lookup_app_l_Some _ ext _ _ Ea).
  assert (Eg1 := get_artifacts_app _ ext _ _ Eg).
  assert (Hx1 := lookup_app_l_Some _ ext _ _ Hx).
  rewrite <- Hh1 in El1, Ea1, Eg1, Hx1.
  assert (Hr1 : reify (heap w1) fl = Some v) by (apply reify_alloc_old; exact Hr).
  assert (Hj1 : stringify_flows (heap w1) (flows (state w1)) = Some j)
    by (apply stringify_alloc_old; exact Hj).
  set (h2 := <[x := OArtifact (with_content newContent a)]> (heap w1)).
  destruct (stringify_write_artifact (heap w1) x a (with_content newContent a)
              _ _ Hx1 Hj1) as [j2 Hj2].
  destruct (reify_write_artifact (heap w1) x a (with_content newContent a)
              fl v Hx1 Hr1) as (al' & als' & (i & n & hl' & sl' & El') & Ea' & Hr2).
  assert (al' = al) as -> by congruence.
  assert (als' = als) as -> by congruence.
  rewrite Hzip in Hr2. fold h2 in Hr2, Hj2.
  set (v2 := set_artifacts
               (modify_first artifactId newContent (Flow.artifacts v)) v) in *.
  set (w3 := set_localStorage
               {| fluid_flows_other := None; fluid_flows := Some j2;
                  fluid_active_flow_id := Some (key (activeFlowId (state w1))) |}
               (set_heap h2 w1)).
  destruct (appendMessage_run w3 model
              ("I have updated the artifact: *" +:+ Artifact.title a +:+ "*.")
              None fl v2 j2 Ht Hg Hr2 Hj2)
    as (w4 & hl4 & Hrun & Hst & _ & _ & Hrf & Hper & Hchat & _).
  exists w4, (set_history (Flow.history v2 ++ [notice_updated (Artifact.title a)]) v2).
  split.
  { unfold handleFunctionCall. mred. cbn [name args].
    rewrite (pushUndoState_run w fl v Ht Hg Hr). fold w1. mred.
    change (("modify_artifact" =? "present_artifact")%string) with false.
    change (("modify_artifact" =? "create_task_list")%string) with false.
    change (("modify_artifact" =? "modify_artifact")%string) with true.
    mred. rewrite Hg. mred. rewrite El1. mred. rewrite Ea1. mred. rewrite Eg1.
    mred. rewrite Hfc. mred. unfold saveFlows. wsimpl.
    fold h2. rewrite Hj2. mred. exact Hrun. }
  split.
  { unfold activeFlow. rewrite Hst. subst w3 w1. unfold checkpointed. wsimpl.
    rewrite Hg. exact Hrf. }
  split; [reflexivity|].
  split; [exact (modify_first_split artifactId newContent a _ Hfind)|].
  repeat (split; [reflexivity|]).
  split; [exact Hchat | exact Hper].
Qed.

Lemma modify_existing_artifact_witness :
  NoDup (footprint (heap world2) 5)
  /\ exists w' v',
       handleFunctionCall 1699902900000
         {| name := "modify_artifact";
            args := ModifyArgs "artifact-1699902888812" "step two" |}
         world2
       = (Ok tt, w')
       /\ activeFlow w' = Some v'
       /\ Flow.artifacts v'
          = [ {| Artifact.id := "artifact-1699902888812";
                 Artifact.title := "Plan"; Artifact.type := "plan";
                 Artifact.content := "step two";
                 Artifact.language := None |};
              scriptA ]
       /\ Flow.history v' = Flow.history flowA ++ [notice_updated "Plan"].
Proof.
  assert (Hnd : NoDup (footprint (heap world2) 5)) by compute_done.
  split; [exact Hnd|].
  destruct (modify_existing_artifact 1699902900000 "artifact-1699902888812"
              "step two" world2 5 flowA [("flow-1", flowA); ("flow-2", flowB)]
              planA)
    as (w' & v' & H1 & H2 & H3 & _ & H4 & _); try reflexivity; [exact Hnd|].
  exists w', v'. auto.
Defined.

(** ** (Re)initialisation *)

Lemma renderArtifactViewer_frame w r w' :
  renderArtifactViewer w = (r, w') -> view_only w w'.
Proof.
  unfold renderArtifactViewer. mred. intros H.
  run_cases H; injection H as <- <-; unfold view_only; wsimpl;
    repeat split; reflexivity.
Qed.

Lemma mapM_createMessageElement hist w :
  mapM createMessageElement hist w
  = (if forallb has_text hist
     then Ok (map (fun m => {| shown := m; extra := None |}) hist)
     else Throw TypeError, w).
Proof.
  induction hist as [|m hist IH]; [reflexivity|].
  cbn [mapM forallb map]. unfold bind at 1.
  assert (E : createMessageElement m w
              = (if has_text m then Ok {| shown := m; extra := None |}
                 else Throw TypeError, w))
    by (unfold createMessageElement, has_text; destruct (parts m); reflexivity).
  rewrite E. destruct (has_text m); [|reflexivity].
  unfold bind at 1. rewrite IH.
  destruct (forallb has_text hist); reflexivity.
Qed.

Lemma createMessageElement_one r t w :
  createMessageElement {| role := r; parts := [ {| text := t |} ] |} w
  = (Ok {| shown := {| role := r; parts := [ {| text := t |} ] |};
           extra := None |}, w).
Proof. reflexivity. Qed.

Ltac use_frames :=
  repeat match goal with
    | E : renderArtifactViewer _ = _ |- _ =>
        apply renderArtifactViewer_frame in E
    | E : mapM createMessageElement _ _ = _ |- _ =>
        rewrite mapM_createMessageElement in E; injection E as ? ?; subst
    | E : createMessageElement _ _ = _ |- _ =>
        rewrite createMessageElement_one in E; injection E as ? ?; subst
    end.

Lemma initializeChat_frame softRefresh w r w' :
  initializeChat softRefresh w = (r, w') ->
  view_only (reset_stacks softRefresh w) w'.
Proof.
  unfold initializeChat. mred. intros H.
  destruct softRefresh; mred in H; wsimpl; run_cases H; use_frames;
    injection H as <- <-; unfold view_only, reset_stacks in *; wsimpl;
    intuition congruence.
Qed.

Lemma initializeChat_run softRefresh w fl v :
  prop_get (key (activeFlowId (state w))) (flows (state w)) = Some fl ->
  reify (heap w) fl = Some v ->
  forallb has_text (Flow.history v) = true ->
  initializeChat softRefresh w
  = (renderArtifactViewer ;; setLoading false) (initialized softRefresh v w).
Proof.
  intros Hg Hr Hft.
  destruct (reify_inv _ _ _ Hr) as (hl & sl & al & als & El & Eh & Es & Ea & Eg).
  unfold initializeChat. mred.
  destruct softRefresh; mred; wsimpl; rewrite Hg; mred; wsimpl; rewrite El;
    mred; wsimpl; rewrite Eh; mred; wsimpl;
    (destruct (length (Flow.history v) =? 0)%nat eqn:Elen;
     [ rewrite createMessageElement_one
     | rewrite mapM_createMessageElement, Hft ]);
    mred; wsimpl; rewrite El; mred; wsimpl; rewrite Ea; mred; wsimpl;
    rewrite Eg; unfold initialized; rewrite Elen; reflexivity.
Qed.

Lemma renderArtifactViewer_run w fl v :
  prop_get (key (activeFlowId (state w))) (flows (state w)) = Some fl ->
  reify (heap w) fl = Some v ->
  renderArtifactViewer w
  = match last (Flow.artifacts v) with
    | None => (Ok tt, w)
    | Some lst =>
        if negb (truthy (activeArtifactId (state w)))
           || negb (existsb (fun a => strict_eq (Artifact.id a)
                                        (activeArtifactId (state w)))
                            (Flow.artifacts v))
        then (if (Artifact.id lst =? "")%string then Throw RangeError else Ok tt,
              set_state (set_activeArtifactId (Some (Artifact.id lst)) (state w)) w)
        else (Ok tt, w)
    end.
Proof.
  intros Hg Hr.
  destruct (reify_inv _ _ _ Hr) as (hl & sl & al & als & El & Eh & Es & Ea & Eg).
  unfold renderArtifactViewer. mred. rewrite Hg. mred. rewrite El. mred.
  rewrite Ea. mred. rewrite Eg.
  destruct (last (Flow.artifacts v)) as [lst|]; [|reflexivity].
  destruct (truthy (activeArtifactId (state w))); mred;
    [destruct (existsb _ (Flow.artifacts v)); mred|];
    try reflexivity; destruct (Artifact.id lst =? "")%string; reflexivity.
Qed.

(** ** Resolution of the active artifact *)

Section Resolution.
Variable arts : list Artifact.t.

Lemma existsb_strict_eq i :
  existsb (fun a => strict_eq (Artifact.id a) (Some i)) arts = true
  <-> In i (map Artifact.id arts).
Proof.
  rewrite existsb_exists, in_map_iff. simpl. split.
  - intros (a & Hin & He). apply String.eqb_eq in He. eauto.
  - intros (a & He & Hin). exists a. split; [assumption|].
    apply String.eqb_eq. assumption.
Qed.

Lemma find_strict_eq cur a :
  find (fun a => strict_eq (Artifact.id a) cur) arts = Some a ->
  cur = Some (Artifact.id a) /\ In a arts.
Proof.
  intros H. apply find_some in H as [Hin He]. split; [|assumption].
  destruct cur as [c|]; simpl in He; [|discriminate].
  apply String.eqb_eq in He. congruence.
Qed.

Lemma last_In lst : last arts = Some lst -> In lst arts.
Proof. intros H. apply list_elem_of_In, last_Some_elem_of, H. Qed.

Lemma resolve_empty cur : arts = [] -> resolveActiveArtifact arts cur = None.
Proof. intros ->. reflexivity. Qed.

Lemma resolve_fallback cur lst :
  last arts = Some lst ->
  truthy cur = false
  \/ (forall i, cur = Some i -> ~ In i (map Artifact.id arts)) ->
  resolveActiveArtifact arts cur = Some (Artifact.id lst).
Proof.
  intros Hl Hc. unfold resolveActiveArtifact. rewrite Hl.
  destruct (find _ arts) as [a|] eqn:F; [|reflexivity].
  apply find_strict_eq in F as [-> Hin].
  destruct Hc as [Hc|Hc].
  - rewrite Hc. reflexivity.
  - exfalso. apply (Hc _ eq_refl). apply in_map. assumption.
Qed.

Lemma resolve_kept i :
  i <> "" -> In i (map Artifact.id arts) ->
  resolveActiveArtifact arts (Some i) = Some i.
Proof.
  intros Hne Hin. unfold resolveActiveArtifact.
  destruct (last arts) as [lst|] eqn:Hl.
  - destruct (find _ arts) as [a|] eqn:F.
    + apply find_strict_eq in F as [[= ->] _].
      unfold truthy. apply String.eqb_neq in Hne. rewrite Hne. reflexivity.
    + exfalso. apply existsb_strict_eq in Hin.
      apply existsb_exists in Hin as (a & Ha & He).
      pose proof (find_none _ _ F a Ha) as Hf. cbv beta in Hf. congruence.
  - apply last_None in Hl. rewrite Hl in Hin. destruct Hin.
Qed.

(** After the resolution of line 703 the guard of line 532 holds only for
    a last artifact whose id is empty. *)
Lemma resolved_guard cur lst :
  last arts = Some lst ->
  negb (truthy (resolveActiveArtifact arts cur))
  || negb (existsb (fun a => strict_eq (Artifact.id a)
                               (resolveActiveArtifact arts cur)) arts)
  = true ->
  resolveActiveArtifact arts cur = Some (Artifact.id lst)
  /\ Artifact.id lst = "".
Proof.
  intros Hl. pose proof (last_In _ Hl) as Hlin.
  assert (Hlst : negb (truthy (Some (Artifact.id lst)))
                 || negb (existsb (fun a => strict_eq (Artifact.id a)
                                              (Some (Artifact.id lst))) arts)
                 = true -> Artifact.id lst = "").
  { rewrite (proj2 (existsb_strict_eq _) (in_map _ _ _ Hlin)).
    unfold truthy. destruct (String.eqb_spec (Artifact.id lst) ""); [auto|].
    discriminate. }
  unfold resolveActiveArtifact. rewrite Hl.
  destruct (find _ arts) as [a|] eqn:F; [|auto].
  apply find_strict_eq in F as [-> Hin].
  destruct (truthy (Some (Artifact.id a))) eqn:T; [|auto].
  rewrite T, (proj2 (existsb_strict_eq _) (in_map _ _ _ Hin)). discriminate.
Qed.
End Resolution.

Lemma initializeChat_pointer softRefresh w fl v r w' :
  prop_get (key (activeFlowId (state w))) (flows (state w)) = Some fl ->
  reify (heap w) fl = Some v ->
  forallb has_text (Flow.history v) = true ->
  initializeChat softRefresh w = (r, w') ->
  activeArtifactId (state w')
  = resolveActiveArtifact (Flow.artifacts v) (activeArtifactId (state w))
  /\ (r = Ok tt
      \/ r = Throw RangeError
         /\ resolveActiveArtifact (Flow.artifacts v) (activeArtifactId (state w))
            = Some "").
Proof.
  intros Hg Hr Hft. rewrite (initializeChat_run softRefresh w fl v Hg Hr Hft).
  unfold bind at 1.
  rewrite (renderArtifactViewer_run (initialized softRefresh v w) fl v)
    by (destruct softRefresh; assumption).
  destruct (last (Flow.artifacts v)) as [lst|] eqn:Hl.
  - unfold initialized at 1 2. wsimpl.
    destruct (negb _ || negb _) eqn:G.
    + apply (resolved_guard _ _ _ Hl) in G as [G1 G2].
      rewrite G2. simpl. intros [= <- <-]. wsimpl.
      rewrite G1, G2. auto.
    + mred. intros [= <- <-]. wsimpl. auto.
  - mred. intros [= <- <-]. wsimpl. auto.
Qed.

(** C8. The active-artifact pointer after [initializeChat] (soft or hard),
    for an active Flow with artifacts [arts] and a pointer [cur] before:
    - no artifact: the pointer is [null];
    - [cur] unset ([null] or empty) or not the id of an artifact: the
      pointer is the id of the last artifact;
    - [cur] the id of an artifact: the pointer stays.
    The guard of [renderArtifactViewer] (lines 532-535) applies the same
    rule whenever the Flow has an artifact.  Initialisation completes in
    each case, but for a last artifact with an empty id, which the program
    never creates. *)
Theorem active_artifact_resolution softRefresh w fl v :
  prop_get (key (activeFlowId (state w))) (flows (state w)) = Some fl ->
  reify (heap w) fl = Some v ->
  forallb has_text (Flow.history v) = true ->
  let arts := Flow.artifacts v in
  let cur := activeArtifactId (state w) in
  let unset_or_absent :=
    truthy cur = false
    \/ (forall i, cur = Some i -> ~ In i (map Artifact.id arts)) in
  (exists r w',
     initializeChat softRefresh w = (r, w')
     /\ (arts = [] -> r = Ok tt /\ activeArtifactId (state w') = None)
     /\ (forall lst, last arts = Some lst -> unset_or_absent ->
           activeArtifactId (state w') = Some (Artifact.id lst)
           /\ (Artifact.id lst <> "" -> r = Ok tt))
     /\ (forall i, cur = Some i -> i <> "" -> In i (map Artifact.id arts) ->
           r = Ok tt /\ activeArtifactId (state w') = Some i))
  /\ (exists r w',
        renderArtifactViewer w = (r, w')
        /\ (forall lst, last arts = Some lst -> unset_or_absent ->
              activeArtifactId (state w') = Some (Artifact.id lst)
              /\ (Artifact.id lst <> "" -> r = Ok tt))
        /\ (forall i, cur = Some i -> i <> "" -> In i (map Artifact.id arts) ->
              r = Ok tt /\ activeArtifactId (state w') = Some i)).
Proof.
  intros Hg Hr Hft arts cur unset_or_absent. split.
  - destruct (initializeChat softRefresh w) as [r w'] eqn:E.
    destruct (initializeChat_pointer softRefresh w fl v r w' Hg Hr Hft E)
      as [Hp Hout].
    fold arts cur in Hp, Hout.
    exists r, w'. split; [reflexivity|]. split; [|split].
    + intros Ha. rewrite Hp, (resolve_empty arts cur Ha) in *.
      split; [|reflexivity]. destruct Hout as [->|[_ ?]]; [auto|discriminate].
    + intros lst Hl Hc. rewrite (resolve_fallback arts cur lst Hl Hc) in *.
      split; [assumption|]. intros Hne.
      destruct Hout as [->|[_ ?]]; [auto|congruence].
    + intros i Hc Hne Hin. subst cur. rewrite Hc in *.
      rewrite (resolve_kept arts i Hne Hin) in *.
      split; [|assumption]. destruct Hout as [->|[_ ?]]; [auto|congruence].
  - rewrite (renderArtifactViewer_run w fl v Hg Hr). fold arts cur.
    destruct (last arts) as [lst|] eqn:Hl.
    + destruct (negb (truthy cur) || negb (existsb _ arts)) eqn:G.
      * eexists _, _. split; [reflexivity|]. wsimpl. split.
        -- intros lst' [= <-] _. split; [reflexivity|].
           intros Hne. apply String.eqb_neq in Hne. rewrite Hne. reflexivity.
        -- intros i Hc Hne Hin. exfalso. rewrite Hc in G.
           rewrite (proj2 (existsb_strict_eq arts i) Hin) in G.
           unfold truthy in G. apply String.eqb_neq in Hne. rewrite Hne in G.
           discriminate.
      * exists (Ok tt), w. split; [reflexivity|]. split.
        -- intros lst' [= <-] Hc. exfalso.
           apply orb_false_iff in G as [G1 G2].
           apply negb_false_iff in G1, G2.
           destruct Hc as [Hc|Hc]; [congruence|].
           destruct cur as [c|]; [|discriminate].
           apply existsb_strict_eq in G2. apply (Hc c eq_refl G2).
        -- intros i Hc _ _. auto.
    + exists (Ok tt), w. split; [reflexivity|]. split.
      * intros lst [=].
      * intros i _ _ Hin. apply last_None in Hl. rewrite Hl in Hin. destruct Hin.
Qed.

Lemma active_artifact_resolution_witness :
  forallb has_text (Flow.history flowA) = true
  /\ exists r w',
       initializeChat true
         (set_state (set_activeArtifactId (Some "artifact-7") (state world2))
                    world2)
       = (r, w')
       /\ r = Ok tt
       /\ activeArtifactId (state w') = Some "artifact-1699902888950".
Proof.
  split; [reflexivity|].
  destruct (active_artifact_resolution true
              (set_state (set_activeArtifactId (Some "artifact-7") (state world2))
                         world2) 5 flowA)
    as [(r & w' & E & _ & H2 & _) _]; try reflexivity.
  destruct (H2 scriptA) as [Hp Hr]; [reflexivity| |].
  { right. intros i [= <-]. simpl. intros [H|[H|[]]]; discriminate. }
  exists r, w'. split; [exact E|]. split; [apply Hr; discriminate | exact Hp].
Defined.

Lemma initializeChat_not_stuck softRefresh w w' :
  active_readable w -> initializeChat softRefresh w <> (Stuck, w').
Proof.
  intros Hrd. unfold initializeChat. mred.
  destruct (prop_get (key (activeFlowId (state w))) (flows (state w)))
    as [fl|] eqn:Hg.
  - destruct (Hrd fl Hg) as [v Hr].
    destruct (reify_inv _ _ _ Hr) as (hl & sl & al & als & El & Eh & Es & Ea & Eg).
    destruct softRefresh; mred; wsimpl; rewrite Hg; mred; wsimpl; rewrite El;
      mred; wsimpl; rewrite Eh; mred; wsimpl;
      (destruct (length (Flow.history v) =? 0)%nat eqn:Elen;
       [ rewrite createMessageElement_one
       | rewrite mapM_createMessageElement;
         destruct (forallb has_text (Flow.history v)) ]);
      mred; wsimpl; try discriminate;
      rewrite El; mred; wsimpl; rewrite Ea; mred; wsimpl; rewrite Eg;
      match goal with
      | |- context [renderArtifactViewer ?ww] =>
          rewrite (renderArtifactViewer_run ww fl v Hg Hr)
      end;
      destruct (last (Flow.artifacts v)) as [lst|]; try discriminate;
      match goal with
      | |- context [if ?g then _ else _] => destruct g
      end; try discriminate;
      destruct (Artifact.id lst =? "")%string; discriminate.
  - destruct softRefresh; mred; wsimpl; rewrite Hg; discriminate.
Qed.

(** An initialisation whose promise is dropped. *)
Lemma detach_initializeChat softRefresh w :
  active_readable w ->
  exists w',
    detach (initializeChat softRefresh) w = (Ok tt, w')
    /\ view_only (reset_stacks softRefresh w) w'.
Proof.
  intros Hrd. unfold detach.
  destruct (initializeChat softRefresh w) as [r w'] eqn:E.
  pose proof (initializeChat_frame _ _ _ _ E) as Hv.
  destruct r as [[]|e|].
  - eauto.
  - eauto.
  - exfalso. apply (initializeChat_not_stuck softRefresh w w' Hrd E).
Qed.

(** ** Undo and redo *)

Lemma prop_get_set_eq k l o : prop_get k (prop_set k l o) = Some l.
Proof.
  induction o as [|[k' l'] o IH]; simpl.
  - rewrite String.eqb_refl. reflexivity.
  - destruct (k' =? k)%string eqn:E; simpl; rewrite E; auto.
Qed.

Lemma stringify_prop_set h k l u o j :
  stringify_flows h o = Some j -> reify h l = Some u ->
  is_Some (stringify_flows h (prop_set k l o)).
Proof.
  intros Hj Hu. revert j Hj. induction o as [|[k' l'] o IH]; intros j; simpl.
  - rewrite Hu. eauto.
  - destruct (reify h l') as [v|] eqn:E; [|discriminate].
    destruct (stringify_flows h o) as [r|] eqn:Er; [|discriminate].
    intros _. destruct (k' =? k)%string; simpl.
    + rewrite Hu, Er. eauto.
    + rewrite E. destruct (IH r eq_refl) as [r' ->]. eauto.
Qed.

Lemma saveFlows_run w j :
  stringify_flows (heap w) (flows (state w)) = Some j ->
  saveFlows w
  = (Ok tt,
     set_localStorage
       {| fluid_flows_other := None; fluid_flows := Some j;
          fluid_active_flow_id := Some (key (activeFlowId (state w))) |} w).
Proof. intros Hj. unfold saveFlows. rewrite Hj. reflexivity. Qed.

Lemma persisted_view_only w w' : persisted w -> view_only w w' -> persisted w'.
Proof.
  unfold persisted, view_only.
  intros (P1 & P2 & P3) (V1 & V2 & V3 & _ & _ & V6).
  rewrite V1, V2, V3, V6. auto.
Qed.

Lemma pop_snoc {A} (l : list A) x : pop (l ++ [x]) = Some (l, x).
Proof. unfold pop. rewrite last_snoc, removelast_last. reflexivity. Qed.

Lemma handleUndo_run w fl v hs p pv j :
  prop_get (key (activeFlowId (state w))) (flows (state w)) = Some fl ->
  reify (heap w) fl = Some v ->
  historyStack (state w) = hs ++ [p] ->
  reify (heap w) p = Some pv ->
  stringify_flows (heap w) (flows (state w)) = Some j ->
  exists w',
    handleUndo w = (Ok tt, w')
    /\ heap w' = fst (alloc_flow v (heap w))
    /\ flows (state w')
       = prop_set (key (activeFlowId (state w))) p (flows (state w))
    /\ activeFlowId (state w') = activeFlowId (state w)
    /\ historyStack (state w') = hs
    /\ redoStack (state w') = redoStack (state w) ++ [snd (alloc_flow v (heap w))]
    /\ persisted w'.
Proof.
  intros Hg Hr Hs Hp Hj.
  set (h1 := fst (alloc_flow v (heap w))).
  set (k := key (activeFlowId (state w))).
  assert (Hp1 : reify h1 p = Some pv) by (apply reify_alloc_old; exact Hp).
  assert (Hj1 : stringify_flows h1 (flows (state w)) = Some j)
    by (apply stringify_alloc_old; exact Hj).
  destruct (stringify_prop_set h1 k p pv _ _ Hj1 Hp1) as [j1 Hj1'].
  set (w1 := set_localStorage
               {| fluid_flows_other := None;
                  fluid_flows := Some j1; fluid_active_flow_id := Some k |}
               (set_state
                  (set_flows (prop_set k p (flows (state w)))
                     (set_historyStack hs
                        (set_redoStack
                           (redoStack (state w) ++ [snd (alloc_flow v (heap w))])
                           (state w))))
                  (set_heap h1 w))).
  destruct (detach_initializeChat true w1) as (w' & Hd & Hv).
  { intros l Hl. unfold w1 in Hl. wsimpl. fold k in Hl.
    rewrite prop_get_set_eq in Hl. injection Hl as <-. unfold w1. wsimpl. eauto. }
  exists w'. split.
  { unfold handleUndo. mred. rewrite Hs, length_app.
    replace (length hs + length [p] =? 0)%nat with false
      by (symmetry; apply Nat.eqb_neq; simpl; lia).
    rewrite Hg. mred. rewrite Hr. mred. wsimpl. rewrite pop_snoc. mred. wsimpl.
    rewrite (saveFlows_run _ j1) by exact Hj1'. exact Hd. }
  unfold reset_stacks in Hv.
  assert (Hper : persisted w1).
  { unfold persisted, w1. wsimpl. rewrite Hj1'. eauto. }
  pose proof (persisted_view_only _ _ Hper Hv) as Hper'.
  destruct Hv as (V1 & V2 & V3 & V4 & V5 & V6).
  unfold w1 in V1, V2, V3, V4, V5. wsimpl.
  repeat (split; [assumption|]). assumption.
Qed.

Lemma handleRedo_run w fl v rs n nv j :
  prop_get (key (activeFlowId (state w))) (flows (state w)) = Some fl ->
  reify (heap w) fl = Some v ->
  redoStack (state w) = rs ++ [n] ->
  reify (heap w) n = Some nv ->
  stringify_flows (heap w) (flows (state w)) = Some j ->
  exists w',
    handleRedo w = (Ok tt, w')
    /\ heap w' = fst (alloc_flow v (heap w))
    /\ flows (state w')
       = prop_set (key (activeFlowId (state w))) n (flows (state w))
    /\ activeFlowId (state w') = activeFlowId (state w)
    /\ redoStack (state w') = rs
    /\ historyStack (state w')
       = historyStack (state w) ++ [snd (alloc_flow v (heap w))]
    /\ persisted w'.
Proof.
  intros Hg Hr Hs Hp Hj.
  set (h1 := fst (alloc_flow v (heap w))).
  set (k := key (activeFlowId (state w))).
  assert (Hp1 : reify h1 n = Some nv) by (apply reify_alloc_old; exact Hp).
  assert (Hj1 : stringify_flows h1 (flows (state w)) = Some j)
    by (apply stringify_alloc_old; exact Hj).
  destruct (stringify_prop_set h1 k n nv _ _ Hj1 Hp1) as [j1 Hj1'].
  set (w1 := set_localStorage
               {| fluid_flows_other := None;
                  fluid_flows := Some j1; fluid_active_flow_id := Some k |}
               (set_state
                  (set_flows (prop_set k n (flows (state w)))
                     (set_redoStack rs
                        (set_historyStack
                           (historyStack (state w) ++ [snd (alloc_flow v (heap w))])
                           (state w))))
                  (set_heap h1 w))).
  destruct (detach_initializeChat true w1) as (w' & Hd & Hv).
  { intros l Hl. unfold w1 in Hl. wsimpl. fold k in Hl.
    rewrite prop_get_set_eq in Hl. injection Hl as <-. unfold w1. wsimpl. eauto. }
  exists w'. split.
  { unfold handleRedo. mred. rewrite Hs, length_app.
    replace (length rs + length [n] =? 0)%nat with false
      by (symmetry; apply Nat.eqb_neq; simpl; lia).
    rewrite Hg. mred. rewrite Hr. mred. wsimpl. rewrite pop_snoc. mred. wsimpl.
    rewrite (saveFlows_run _ j1) by exact Hj1'. exact Hd. }
  unfold reset_stacks in Hv.
  assert (Hper : persisted w1).
  { unfold persisted, w1. wsimpl. rewrite Hj1'. eauto. }
  pose proof (persisted_view_only _ _ Hper Hv) as Hper'.
  destruct Hv as (V1 & V2 & V3 & V4 & V5 & V6).
  unfold w1 in V1, V2, V3, V4, V5. wsimpl.
  repeat (split; [assumption|]). assumption.
Qed.

Lemma persisted_stringify w :
  persisted w ->
  exists j, stringify_flows (heap w) (flows (state w)) = Some j.
Proof. intros (P1 & [j P2] & _). exists j. congruence. Qed.

Lemma undo_then_redo w fl v p pv j :
  prop_get (key (activeFlowId (state w))) (flows (state w)) = Some fl ->
  reify (heap w) fl = Some v ->
  stringify_flows (heap w) (flows (state w)) = Some j ->
  last (historyStack (state w)) = Some p ->
  reify (heap w) p = Some pv ->
  exists w1 w2 c,
    handleUndo w = (Ok tt, w1)
    /\ activeFlow w1 = Some pv
    /\ handleRedo w1 = (Ok tt, w2)
    /\ activeFlow w2 = Some v
    /\ activeFlowId (state w2) = activeFlowId (state w)
    /\ redoStack (state w2) = redoStack (state w)
    /\ historyStack (state w2) = removelast (historyStack (state w)) ++ [c]
    /\ reify (heap w2) c = Some pv
    /\ persisted w2.
Proof.
  intros Hg Hr Hj Hl Hp.
  apply last_Some in Hl as [hs Hs].
  destruct (handleUndo_run w fl v hs p pv j Hg Hr Hs Hp Hj)
    as (w1 & Hu & U1 & U2 & U3 & U4 & U5 & U6).
  set (k := key (activeFlowId (state w))) in *.
  set (c := snd (alloc_flow v (heap w))) in *.
  assert (Hg1 : prop_get (key (activeFlowId (state w1))) (flows (state w1)) = Some p)
    by (rewrite U3, U2; apply prop_get_set_eq).
  assert (Hp1 : reify (heap w1) p = Some pv)
    by (rewrite U1; apply reify_alloc_old; exact Hp).
  assert (Hc1 : reify (heap w1) c = Some v)
    by (rewrite U1; apply reify_alloc_flow).
  destruct (persisted_stringify w1 U6) as [j1 Hj1].
  destruct (handleRedo_run w1 p pv (redoStack (state w)) c v j1 Hg1 Hp1 U5 Hc1 Hj1)
    as (w2 & Hd & R1 & R2 & R3 & R4 & R5 & R6).
  exists w1, w2, (snd (alloc_flow pv (heap w1))).
  split; [exact Hu|].
  split; [unfold activeFlow; rewrite Hg1; exact Hp1|].
  split; [exact Hd|].
  split.
  { unfold activeFlow. rewrite R3, R2, prop_get_set_eq, R1.
    apply reify_alloc_old. exact Hc1. }
  split; [congruence|]. split; [exact R4|].
  split; [rewrite R5, U4, Hs, removelast_last; reflexivity|].
  split; [rewrite R1; apply reify_alloc_flow | exact R6].
Qed.

Lemma redo_then_undo w fl v n nv j :
  prop_get (key (activeFlowId (state w))) (flows (state w)) = Some fl ->
  reify (heap w) fl = Some v ->
  stringify_flows (heap w) (flows (state w)) = Some j ->
  last (redoStack (state w)) = Some n ->
  reify (heap w) n = Some nv ->
  exists w1 w2 c,
    handleRedo w = (Ok tt, w1)
    /\ activeFlow w1 = Some nv
    /\ handleUndo w1 = (Ok tt, w2)
    /\ activeFlow w2 = Some v
    /\ activeFlowId (state w2) = activeFlowId (state w)
    /\ historyStack (state w2) = historyStack (state w)
    /\ redoStack (state w2) = removelast (redoStack (state w)) ++ [c]
    /\ reify (heap w2) c = Some nv
    /\ persisted w2.
Proof.
  intros Hg Hr Hj Hl Hp.
  apply last_Some in Hl as [rs Hs].
  destruct (handleRedo_run w fl v rs n nv j Hg Hr Hs Hp Hj)
    as (w1 & Hu & U1 & U2 & U3 & U4 & U5 & U6).
  set (k := key (activeFlowId (state w))) in *.
  set (c := snd (alloc_flow v (heap w))) in *.
  assert (Hg1 : prop_get (key (activeFlowId (state w1))) (flows (state w1)) = Some n)
    by (rewrite U3, U2; apply prop_get_set_eq).
  assert (Hp1 : reify (heap w1) n = Some nv)
    by (rewrite U1; apply reify_alloc_old; exact Hp).
  assert (Hc1 : reify (heap w1) c = Some v)
    by (rewrite U1; apply reify_alloc_flow).
  destruct (persisted_stringify w1 U6) as [j1 Hj1].
  destruct (handleUndo_run w1 n nv (historyStack (state w)) c v j1 Hg1 Hp1 U5 Hc1 Hj1)
    as (w2 & Hd & R1 & R2 & R3 & R4 & R5 & R6).
  exists w1, w2, (snd (alloc_flow nv (heap w1))).
  split; [exact Hu|].
  split; [unfold activeFlow; rewrite Hg1; exact Hp1|].
  split; [exact Hd|].
  split.
  { unfold activeFlow. rewrite R3, R2, prop_get_set_eq, R1.
    apply reify_alloc_old. exact Hc1. }
  split; [congruence|]. split; [exact R4|].
  split; [rewrite R5, U4, Hs, removelast_last; reflexivity|].
  split; [rewrite R1; apply reify_alloc_flow | exact R6].
Qed.

(** C1. With the active Flow [v] and a snapshot on top of the undo stack,
    [handleUndo] followed by [handleRedo] ends with the active Flow equal to
    [v] again (in between it is the snapshot); the redo stack is as before
    and the undo stack holds a copy of the snapshot on top again.  The same
    with the roles of the two stacks exchanged for [handleRedo] followed by
    [handleUndo]. *)
Theorem undo_redo_roundtrip w fl v j :
  prop_get (key (activeFlowId (state w))) (flows (state w)) = Some fl ->
  reify (heap w) fl = Some v ->
  stringify_flows (heap w) (flows (state w)) = Some j ->
  (forall p pv,
     last (historyStack (state w)) = Some p ->
     reify (heap w) p = Some pv ->
     exists w1 w2 c,
       handleUndo w = (Ok tt, w1)
       /\ activeFlow w1 = Some pv
       /\ handleRedo w1 = (Ok tt, w2)
       /\ activeFlow w2 = Some v
       /\ activeFlowId (state w2) = activeFlowId (state w)
       /\ redoStack (state w2) = redoStack (state w)
       /\ historyStack (state w2) = removelast (historyStack (state w)) ++ [c]
       /\ reify (heap w2) c = Some pv
       /\ persisted w2)
  /\ (forall n nv,
        last (redoStack (state w)) = Some n ->
        reify (heap w) n = Some nv ->
        exists w1 w2 c,
          handleRedo w = (Ok tt, w1)
          /\ activeFlow w1 = Some nv
          /\ handleUndo w1 = (Ok tt, w2)
          /\ activeFlow w2 = Some v
          /\ activeFlowId (state w2) = activeFlowId (state w)
          /\ historyStack (state w2) = historyStack (state w)
          /\ redoStack (state w2) = removelast (redoStack (state w)) ++ [c]
          /\ reify (heap w2) c = Some nv
          /\ persisted w2).
Proof.
  intros Hg Hr Hj. split.
  - intros p pv. apply (undo_then_redo w fl v p pv j Hg Hr Hj).
  - intros n nv. apply (redo_then_undo w fl v n nv j Hg Hr Hj).
Qed.

Lemma undo_redo_roundtrip_witness :
  last (historyStack (state world2_undone)) = Some 14
  /\ reify (heap world2_undone) 14 = Some flowA0
  /\ exists w1 w2,
       handleUndo world2_undone = (Ok tt, w1)
       /\ activeFlow w1 = Some flowA0
       /\ handleRedo w1 = (Ok tt, w2)
       /\ activeFlow w2 = activeFlow world2_undone.
Proof.
  split; [reflexivity|]. split; [reflexivity|].
  destruct (undo_redo_roundtrip world2_undone 5 flowA
              [("flow-1", flowA); ("flow-2", flowB)])
    as [H _]; try reflexivity.
  destruct (H 14 flowA0) as (w1 & w2 & c & H1 & H2 & H3 & H4 & _);
    try reflexivity.
  exists w1, w2. auto.
Defined.

(** ** Switching and deleting flows *)

Lemma stringify_prop_delete h k o j :
  stringify_flows h o = Some j ->
  is_Some (stringify_flows h (prop_delete k o)).
Proof.
  revert j. induction o as [|[k' l'] o IH]; intros j; simpl; [eauto|].
  destruct (reify h l') as [v|] eqn:E; [|discriminate].
  destruct (stringify_flows h o) as [r|] eqn:Er; [|discriminate].
  intros _. destruct (IH r eq_refl) as [r' Hr'].
  unfold prop_delete in *. simpl.
  destruct (negb (k' =? k)%string); simpl; [rewrite E, Hr'|]; eauto.
Qed.

Lemma stringify_active_readable w j :
  stringify_flows (heap w) (flows (state w)) = Some j -> active_readable w.
Proof. intros Hj fl Hg. eapply stringify_flows_lookup; eauto. Qed.

Lemma resolve_in arts cur i :
  resolveActiveArtifact arts cur = Some i -> In i (map Artifact.id arts).
Proof.
  unfold resolveActiveArtifact.
  destruct (last arts) as [lst|] eqn:Hl; [|discriminate].
  pose proof (last_In _ _ Hl) as Hlin.
  destruct (find _ arts) as [a|] eqn:F.
  - apply find_some in F as [Hin _].
    destruct (truthy (Some (Artifact.id a))); intros [= <-]; apply in_map; assumption.
  - intros [= <-]. apply in_map. assumption.
Qed.

(** A hard initialisation of a well-formed Flow (messages with a part,
    artifacts with an id), or with no active Flow at all, completes. *)
Lemma initializeChat_completes softRefresh w r w' :
  (forall fl,
     prop_get (key (activeFlowId (state w))) (flows (state w)) = Some fl ->
     exists v, reify (heap w) fl = Some v /\ well_formed v = true) ->
  initializeChat softRefresh w = (r, w') -> r = Ok tt.
Proof.
  intros Hwf E.
  destruct (prop_get (key (activeFlowId (state w))) (flows (state w)))
    as [fl|] eqn:Hg.
  - destruct (Hwf fl eq_refl) as (v & Hr & Hv).
    apply andb_true_iff in Hv as [Hv1 Hv2].
    destruct (initializeChat_pointer softRefresh w fl v r w' Hg Hr Hv1 E)
      as [_ [->|[_ Hbad]]]; [reflexivity|].
    exfalso. apply resolve_in in Hbad. apply in_map_iff in Hbad as (a & Ha & Hin).
    rewrite forallb_forall in Hv2. specialize (Hv2 a Hin).
    rewrite Ha in Hv2. discriminate.
  - revert E. unfold initializeChat. mred.
    destruct softRefresh; mred; wsimpl; rewrite Hg; intros [= <- _]; reflexivity.
Qed.

(** C2, as the code has it.  Switching to the flow that is active already
    changes nothing.  Switching to another one makes it active, persists
    that, and then initialises the chat hard, which empties both the undo
    and the redo stack whatever they held; flows and heap stay. *)
Theorem switchFlow_resets_stacks id w j :
  stringify_flows (heap w) (flows (state w)) = Some j ->
  (strict_eq id (activeFlowId (state w)) = true -> switchFlow id w = (Ok tt, w))
  /\ (strict_eq id (activeFlowId (state w)) = false ->
      exists r w',
        switchFlow id w = (r, w')
        /\ r <> Stuck
        /\ activeFlowId (state w') = Some id
        /\ historyStack (state w') = []
        /\ redoStack (state w') = []
        /\ flows (state w') = flows (state w)
        /\ heap w' = heap w
        /\ persisted w'
        /\ ((forall fl, prop_get id (flows (state w)) = Some fl ->
               exists v, reify (heap w) fl = Some v /\ well_formed v = true) ->
            r = Ok tt)).
Proof.
  intros Hj. split; intros He.
  - unfold switchFlow. mred. rewrite He. reflexivity.
  - set (w1 := set_localStorage
                 {| fluid_flows_other := None;
                    fluid_flows := Some j; fluid_active_flow_id := Some id |}
                 (set_state (set_activeFlowId (Some id) (state w)) w)).
    destruct (initializeChat false w1) as [r w'] eqn:E.
    pose proof (initializeChat_frame _ _ _ _ E) as (V1 & V2 & V3 & V4 & V5 & V6).
    assert (Hper : persisted w').
    { apply (persisted_view_only (reset_stacks false w1));
        [|apply (initializeChat_frame _ _ _ _ E)].
      unfold persisted, reset_stacks, w1. wsimpl. rewrite Hj. eauto. }
    exists r, w'. split.
    { unfold switchFlow. mred. rewrite He. mred. wsimpl.
      rewrite (saveFlows_run _ j) by exact Hj. exact E. }
    split.
    { intros ->. apply (initializeChat_not_stuck false w1 w'); [|exact E].
      apply (stringify_active_readable w1 j). exact Hj. }
    unfold reset_stacks, w1 in V1, V2, V3, V4, V5. wsimpl.
    repeat (split; [assumption|]).
    intros Hwf. apply (initializeChat_completes false w1 r w'); [|exact E].
    exact Hwf.
Qed.

Lemma switchFlow_resets_stacks_witness :
  strict_eq "flow-2" (activeFlowId (state world2_undone)) = false
  /\ historyStack (state world2_undone) = [14]
  /\ redoStack (state world2_undone) = [20]
  /\ exists r w',
       switchFlow "flow-2" world2_undone = (r, w')
       /\ r = Ok tt
       /\ activeFlowId (state w') = Some "flow-2"
       /\ historyStack (state w') = []
       /\ redoStack (state w') = [].
Proof.
  split; [reflexivity|]. split; [reflexivity|]. split; [reflexivity|].
  destruct (switchFlow_resets_stacks "flow-2" world2_undone
              [("flow-1", flowA); ("flow-2", flowB)] eq_refl) as [_ H].
  destruct (H eq_refl) as (r & w' & H1 & _ & H3 & H4 & H5 & _ & _ & _ & H9).
  exists r, w'. split; [exact H1|]. split; [|auto].
  apply H9. intros fl [= <-]. exists flowB. split; reflexivity.
Defined.

(** C2, as stated, fails: with one snapshot on each stack, switching from
    the first flow to the second leaves both stacks empty. *)
Lemma switchFlow_keeps_stacks_counterexample :
  activeFlowId (state world2_undone) = Some "flow-1"
  /\ historyStack (state world2_undone) = [14]
  /\ redoStack (state world2_undone) = [20]
  /\ exists w',
       switchFlow "flow-2" world2_undone = (Ok tt, w')
       /\ activeFlowId (state w') = Some "flow-2"
       /\ historyStack (state w') = []
       /\ redoStack (state w') = []
       /\ historyStack (state w') <> historyStack (state world2_undone)
       /\ redoStack (state w') <> redoStack (state world2_undone).
Proof.
  split; [reflexivity|]. split; [reflexivity|]. split; [reflexivity|].
  eexists. split; [vm_compute; reflexivity|].
  repeat split; try reflexivity; discriminate.
Qed.

Lemma prop_get_delete k o : prop_get k (prop_delete k o) = None.
Proof.
  induction o as [|[k' l'] o IH]; simpl; [reflexivity|].
  destruct (k' =? k)%string eqn:E; simpl; [assumption|].
  rewrite E. assumption.
Qed.

(** With distinct keys and two flows or more, a flow remains after a
    deletion, and the first one is the first in insertion order that is not
    the deleted one. *)
Lemma first_remaining k (o : list (string * nat)) :
  NoDup (Object_keys o) -> 2 <= length (Object_keys o) ->
  exists k' l o1 o2,
    head (Object_keys (prop_delete k o)) = Some k'
    /\ k' <> k
    /\ o = o1 ++ (k', l) :: o2
    /\ Forall (fun p => fst p = k) o1.
Proof.
  destruct o as [|[k1 l1] [|[k2 l2] o]]; simpl; try lia.
  intros Hnd _. apply NoDup_cons in Hnd as [Hn1 _].
  destruct (String.eqb_spec k1 k) as [->|Hne1]; simpl.
  - destruct (String.eqb_spec k2 k) as [->|Hne2]; simpl.
    + exfalso. apply Hn1. left.
    + exists k2, l2, [(k, l1)], o. repeat split; auto.
  - exists k1, l1, [], ((k2, l2) :: o). repeat split; auto.
Qed.

Lemma deleteFlow_effect id w fl v j l :
  2 <= length (Object_keys (flows (state w))) ->
  prop_get id (flows (state w)) = Some l ->
  truthy (activeFlowId (state w)) = true ->
  prop_get (key (activeFlowId (state w))) (flows (state w)) = Some fl ->
  reify (heap w) fl = Some v ->
  stringify_flows (heap w) (flows (state w)) = Some j ->
  exists w',
    deleteFlow id true w = (Ok Deleted, w')
    /\ flows (state w') = prop_delete id (flows (state w))
    /\ activeFlowId (state w')
       = (if strict_eq id (activeFlowId (state w))
          then head (Object_keys (prop_delete id (flows (state w))))
          else activeFlowId (state w))
    /\ persisted w'
    /\ heap w' = fst (alloc_flow v (heap w))
    /\ historyStack (state w') = []
    /\ redoStack (state w') = [].
Proof.
  intros Hlen Hid Ht Hg Hr Hj.
  set (o' := prop_delete id (flows (state w))).
  set (a' := if strict_eq id (activeFlowId (state w))
             then head (Object_keys o') else activeFlowId (state w)).
  destruct (stringify_prop_delete (heap (checkpointed v w)) id _ j
              (stringify_alloc_old v _ _ _ Hj)) as [j' Hj'].
  fold o' in Hj'.
  set (w3 := set_localStorage
               {| fluid_flows_other := None;
                  fluid_flows := Some j'; fluid_active_flow_id := Some (key a') |}
               (set_state
                  (set_activeFlowId a' (set_flows o' (state (checkpointed v w))))
                  (checkpointed v w))).
  destruct (detach_initializeChat false w3) as (w' & Hd & Hv).
  { apply (stringify_active_readable w3 j'). exact Hj'. }
  exists w'. split.
  { unfold deleteFlow. mred.
    replace (length (Object_keys (flows (state w))) <=? 1)%nat with false
      by (symmetry; apply Nat.leb_gt; lia).
    rewrite Hid. mred. rewrite (pushUndoState_run w fl v Ht Hg Hr).
    unfold checkpointed at 1 2 3. wsimpl. fold o'.
    destruct (strict_eq id (activeFlowId (state w))) eqn:He; mred; wsimpl;
      fold o'; (rewrite (saveFlows_run _ j') by exact Hj'); wsimpl;
      match goal with
      | |- context [initializeChat false ?X] =>
          assert (EX : X = w3)
            by (unfold w3, a', checkpointed; rewrite ?He; reflexivity);
          rewrite EX
      end;
      unfold detach in Hd;
      destruct (initializeChat false w3) as [[[]|e|] w''];
      congruence. }
  assert (Hper : persisted (reset_stacks false w3)).
  { unfold persisted, reset_stacks, w3. wsimpl. rewrite Hj'. eauto. }
  pose proof (persisted_view_only _ _ Hper Hv) as Hper'.
  destruct Hv as (V1 & V2 & V3 & V4 & V5 & _).
  unfold reset_stacks, w3 in V1, V2, V3, V4, V5. wsimpl.
  repeat (split; [assumption|]). assumption.
Qed.

Lemma deleteFlow_run id w fl v j l :
  2 <= length (Object_keys (flows (state w))) ->
  prop_get id (flows (state w)) = Some l ->
  truthy (activeFlowId (state w)) = true ->
  prop_get (key (activeFlowId (state w))) (flows (state w)) = Some fl ->
  reify (heap w) fl = Some v ->
  stringify_flows (heap w) (flows (state w)) = Some j ->
  exists w',
    deleteFlow id true w = (Ok Deleted, w')
    /\ flows (state w') = prop_delete id (flows (state w))
    /\ activeFlowId (state w')
       = (if strict_eq id (activeFlowId (state w))
          then head (Object_keys (prop_delete id (flows (state w))))
          else activeFlowId (state w))
    /\ persisted w'.
Proof.
  intros Hlen Hid Ht Hg Hr Hj.
  destruct (deleteFlow_effect id w fl v j l Hlen Hid Ht Hg Hr Hj)
    as (w' & H1 & H2 & H3 & H4 & _).
  exists w'. auto.
Qed.

(** C5. [deleteFlow] on a store with one flow (or none) is refused with the
    alert and changes nothing.  With two flows or more, a confirmed deletion
    of an existing flow removes it; the active flow id stays when another
    flow was deleted, and becomes the first key of the remaining flows, in
    insertion order, when the active flow was deleted.  If the user does not
    confirm, nothing changes. *)
Theorem deleteFlow_cases id confirmed w :
  (length (Object_keys (flows (state w))) <= 1 ->
   deleteFlow id confirmed w = (Ok CannotDeleteLast, w))
  /\ (forall fl v j l,
        2 <= length (Object_keys (flows (state w))) ->
        prop_get id (flows (state w)) = Some l ->
        truthy (activeFlowId (state w)) = true ->
        prop_get (key (activeFlowId (state w))) (flows (state w)) = Some fl ->
        reify (heap w) fl = Some v ->
        stringify_flows (heap w) (flows (state w)) = Some j ->
        deleteFlow id false w = (Ok NotConfirmed, w)
        /\ exists w',
             deleteFlow id true w = (Ok Deleted, w')
             /\ flows (state w') = prop_delete id (flows (state w))
             /\ prop_get id (flows (state w')) = None
             /\ (activeFlowId (state w) <> Some id ->
                 activeFlowId (state w') = activeFlowId (state w))
             /\ (activeFlowId (state w) = Some id ->
                 activeFlowId (state w')
                 = head (Object_keys (prop_delete id (flows (state w))))
                 /\ (NoDup (Object_keys (flows (state w))) ->
                     exists k l' o1 o2,
                       activeFlowId (state w') = Some k
                       /\ k <> id
                       /\ flows (state w) = o1 ++ (k, l') :: o2
                       /\ Forall (fun p => fst p = id) o1))
             /\ persisted w').
Proof.
  split.
  - intros Hlen. unfold deleteFlow. mred.
    replace (length (Object_keys (flows (state w))) <=? 1)%nat with true
      by (symmetry; apply Nat.leb_le; lia).
    reflexivity.
  - intros fl v j l Hlen Hid Ht Hg Hr Hj. split.
    + unfold deleteFlow. mred.
      replace (length (Object_keys (flows (state w))) <=? 1)%nat with false
        by (symmetry; apply Nat.leb_gt; lia).
      rewrite Hid. reflexivity.
    + destruct (deleteFlow_run id w fl v j l Hlen Hid Ht Hg Hr Hj)
        as (w' & Hrun & Hf & Ha & Hper).
      exists w'. split; [exact Hrun|]. split; [exact Hf|].
      split; [rewrite Hf; apply prop_get_delete|].
      split; [|split; [|exact Hper]].
      * intros Hne. rewrite Ha.
        destruct (activeFlowId (state w)) as [a|]; simpl; [|reflexivity].
        destruct (String.eqb_spec id a) as [->|_]; [congruence|reflexivity].
      * intros Hact. rewrite Ha, Hact. simpl. rewrite String.eqb_refl.
        split; [reflexivity|]. intros Hnd.
        destruct (first_remaining id _ Hnd Hlen)
          as (k & l' & o1 & o2 & H1 & H2 & H3 & H4).
        exists k, l', o1, o2. auto.
Qed.

Lemma deleteFlow_cases_witness :
  deleteFlow "flow-1" true world1 = (Ok CannotDeleteLast, world1)
  /\ (exists w',
        deleteFlow "flow-2" true world2 = (Ok Deleted, w')
        /\ activeFlowId (state w') = Some "flow-1")
  /\ (exists w',
        deleteFlow "flow-1" true world2 = (Ok Deleted, w')
        /\ activeFlowId (state w') = Some "flow-2").
Proof.
  split; [apply (deleteFlow_cases "flow-1" true world1); simpl; lia|].
  split.
  - destruct (deleteFlow_cases "flow-2" true world2) as [_ H].
    destruct (H 5 flowA [("flow-1", flowA); ("flow-2", flowB)] 9)
      as (_ & w' & H1 & _ & _ & H4 & _); try reflexivity.
    exists w'. split; [exact H1|]. rewrite H4; [reflexivity|discriminate].
  - destruct (deleteFlow_cases "flow-1" true world2) as [_ H].
    destruct (H 5 flowA [("flow-1", flowA); ("flow-2", flowB)] 5)
      as (_ & w' & H1 & _ & _ & _ & H5 & _); try reflexivity.
    exists w'. split; [exact H1|]. destruct (H5 eq_refl) as [-> _]. reflexivity.
Defined.

(** ** Artifact ids *)

Lemma get_artifacts_snoc (h : list obj) x a : forall (ls : list nat) arts,
  get_artifacts h ls = Some arts -> get_artifact h x = Some a ->
  get_artifacts h (ls ++ [x]) = Some (arts ++ [a]).
Proof.
  induction ls as [|p ls IH]; intros arts; simpl.
  - intros [= <-] ->. reflexivity.
  - destruct (get_artifact h p) as [b|]; [|discriminate].
    destruct (get_artifacts h ls) as [r|]; [|discriminate].
    intros [= <-] Hx. rewrite (IH r eq_refl Hx). reflexivity.
Qed.

(** [array.push] on an artifact array. *)
Lemma reify_write_artifacts (h : list obj) x als0 als' arts' l v :
  h !! x = Some (OArtifacts als0) ->
  get_artifacts h als' = Some arts' ->
  reify h l = Some v ->
  exists al,
    (exists i n hl sl, h !! l = Some (OFlow i n hl sl al))
    /\ reify (<[x := OArtifacts als']> h) l
       = Some (if (al =? x)%nat then set_artifacts arts' v else v).
Proof.
  intros Hx Hg' Hr.
  destruct (reify_inv _ _ _ Hr) as (hl & sl & al & als & El & Eh & Es & Ea & Eg).
  exists al. split; [eauto|].
  assert (Hxl : x < length h) by (eapply lookup_lt_Some; eauto).
  destruct v as [i n hs ss arts]; simpl in *.
  destruct (Nat.eqb_spec al x) as [->|Hne].
  - apply reify_intro with (hl := hl) (sl := sl) (al := x) (als := als');
      try (rewrite list_lookup_insert_ne by congruence; assumption).
    + apply list_lookup_insert_eq; assumption.
    + eapply get_artifacts_write_other; eauto; discriminate.
  - apply reify_intro with (hl := hl) (sl := sl) (al := al) (als := als);
      try (rewrite list_lookup_insert_ne by congruence; assumption).
    eapply get_artifacts_write_other; eauto; discriminate.
Qed.

Lemma stringify_write_artifacts (h : list obj) x als0 als' arts' o j :
  h !! x = Some (OArtifacts als0) ->
  get_artifacts h als' = Some arts' ->
  stringify_flows h o = Some j ->
  is_Some (stringify_flows (<[x := OArtifacts als']> h) o).
Proof.
  intros Hx Hg'. revert j. induction o as [|[k l] o IH]; intros j; simpl; [eauto|].
  destruct (reify h l) as [v|] eqn:E; [|discriminate].
  destruct (stringify_flows h o) as [r|]; [|discriminate].
  intros _.
  destruct (reify_write_artifacts h x als0 als' arts' l v Hx Hg' E) as (al & _ & ->).
  destruct (IH r eq_refl) as [r' ->]. eauto.
Qed.

(** [present_artifact]: the new artifact, its id made of the clock reading,
    goes to the end of the sequence and becomes the active one; the store
    is persisted.  The ids of the Flow stay distinct exactly when the
    reading gives an id that no artifact of the Flow has yet. *)
Lemma present_artifact_run now title type content language w fl v j :
  truthy (activeFlowId (state w)) = true ->
  prop_get (key (activeFlowId (state w))) (flows (state w)) = Some fl ->
  reify (heap w) fl = Some v ->
  stringify_flows (heap w) (flows (state w)) = Some j ->
  let a := {| Artifact.id := "artifact-" +:+ show now; Artifact.title := title;
              Artifact.type := type; Artifact.content := content;
              Artifact.language := language |} in
  exists w',
    handleFunctionCall now
      {| name := "present_artifact";
         args := PresentArgs title type content language |} w
    = (Ok tt, w')
    /\ activeFlow w' = Some (set_artifacts (Flow.artifacts v ++ [a]) v)
    /\ activeArtifactId (state w') = Some (Artifact.id a)
    /\ persisted w'
    /\ (NoDup (map Artifact.id (Flow.artifacts v ++ [a]))
        <-> NoDup (map Artifact.id (Flow.artifacts v))
            /\ ~ In (Artifact.id a) (map Artifact.id (Flow.artifacts v))).
Proof.
  intros Ht Hg Hr Hj a.
  set (w1 := checkpointed v w).
  assert (Hr1 : reify (heap w1) fl = Some v) by (apply reify_alloc_old; exact Hr).
  assert (Hj1 : stringify_flows (heap w1) (flows (state w1)) = Some j)
    by (apply stringify_alloc_old; exact Hj).
  set (x := length (heap w1)).
  set (h2 := heap w1 ++ [OArtifact a]).
  assert (Hr2 : reify h2 fl = Some v) by (apply reify_app; exact Hr1).
  assert (Hj2 : stringify_flows h2 (flows (state w1)) = Some j)
    by (apply stringify_flows_app; exact Hj1).
  destruct (reify_inv _ _ _ Hr2) as (hl & sl & al & als & El & Eh & Es & Ea & Eg).
  assert (Hx : get_artifact h2 x = Some a).
  { unfold get_artifact, h2, x. rewrite list_lookup_middle by reflexivity.
    reflexivity. }
  pose proof (get_artifacts_snoc h2 x a als _ Eg Hx) as Eg'.
  set (h3 := <[al := OArtifacts (als ++ [x])]> h2).
  destruct (stringify_write_artifacts h2 al als (als ++ [x]) _ _ _ Ea Eg' Hj2)
    as [j3 Hj3].
  destruct (reify_write_artifacts h2 al als (als ++ [x]) _ fl v Ea Eg' Hr2)
    as (al' & (i & n & hl' & sl' & El') & Hr3).
  assert (al' = al) as -> by congruence.
  rewrite Nat.eqb_refl in Hr3. fold h3 in Hr3, Hj3.
  set (v3 := set_artifacts (Flow.artifacts v ++ [a]) v) in *.
  set (w4 := set_localStorage
               {| fluid_flows_other := None; fluid_flows := Some j3;
                  fluid_active_flow_id := Some (key (activeFlowId (state w))) |}
               (set_state
                  (set_activeArtifactId (Some (Artifact.id a)) (state w1))
                  (set_heap h3 w1))).
  exists w4. split.
  { unfold handleFunctionCall. mred. cbn [name args].
    rewrite (pushUndoState_run w fl v Ht Hg Hr). fold w1. mred.
    change (("present_artifact" =? "present_artifact")%string) with true.
    mred. wsimpl. rewrite Hg. mred. wsimpl.
    match goal with
    | |- context [heap w1 ++ [OArtifact ?z]] =>
        change (heap w1 ++ [OArtifact z]) with h2
    end.
    rewrite El. mred. wsimpl. rewrite Ea. mred. wsimpl.
    change (<[al := OArtifacts (als ++ [length (heap w1)])]> h2) with h3.
    change ("artifact-" +:+ show now) with (Artifact.id a).
    unfold saveFlows. wsimpl. rewrite Hj3. mred.
    change (renderArtifactViewer w4 = (Ok tt, w4)).
    rewrite (renderArtifactViewer_run w4 fl v3 Hg Hr3).
    unfold v3 at 1 2. cbn [Flow.artifacts set_artifacts].
    rewrite last_snoc. unfold w4 at 1 2. wsimpl.
    rewrite existsb_app. cbn [existsb strict_eq]. rewrite String.eqb_refl.
    rewrite orb_true_r. reflexivity. }
  split.
  { unfold activeFlow, w4, w1, checkpointed. wsimpl. rewrite Hg. exact Hr3. }
  split; [reflexivity|]. split.
  { unfold persisted, w4. wsimpl. rewrite Hj3.
    split; [reflexivity|]. split; [eauto | reflexivity]. }
  rewrite map_app. cbn [map]. rewrite NoDup_app. split.
  - intros (H1 & H2 & _). split; [exact H1|].
    intros Hin. apply list_elem_of_In in Hin. apply (H2 _ Hin). left.
  - intros [H1 H2]. split; [exact H1|]. split.
    + intros y Hy Hy'. apply list_elem_of_singleton in Hy'. subst y.
      apply H2. apply list_elem_of_In. exact Hy.
    + apply NoDup_singleton.
Qed.

(** C6 fails on the code: the id of a new artifact is the clock reading and
    nothing compares it with the ids already there.  One response with two
    [present_artifact] calls, dispatched within the same millisecond,
    leaves the Flow with two artifacts of the same id; a later
    [modify_artifact] with that id can only ever reach the first. *)
Theorem present_artifact_same_millisecond :
  exists w' v',
    handleFormSubmit "two plans"
      (Response (Some "Here are two plans.")
                [(1699902888812%N, present "Plan A" "plan" "a");
                 (1699902888812%N, present "Plan B" "plan" "b")])
      world_fresh
    = (Ok tt, w')
    /\ activeFlow w' = Some v'
    /\ map Artifact.id (Flow.artifacts v')
       = ["artifact-1699902888812"; "artifact-1699902888812"]
    /\ map Artifact.title (Flow.artifacts v') = ["Plan A"; "Plan B"]
    /\ ~ NoDup (map Artifact.id (Flow.artifacts v')).
Proof.
  eexists _, _. split; [vm_compute; reflexivity|].
  split; [vm_compute; reflexivity|].
  split; [reflexivity|]. split; [reflexivity|].
  simpl. intros Hnd. apply NoDup_cons in Hnd as [Hn _]. apply Hn. left.
Qed.

(** ** The flows object *)

Lemma prop_get_In k (o : list (string * nat)) :
  is_Some (prop_get k o) <-> In k (Object_keys o).
Proof.
  induction o as [|[k' l'] o IH]; simpl.
  - split; [intros [x Hx]; discriminate | tauto].
  - destruct (String.eqb_spec k' k) as [->|Hne].
    + split; [auto | eauto].
    + rewrite IH. split; [auto | intros [?|?]; [congruence|assumption]].
Qed.

Lemma prop_get_None k (o : list (string * nat)) :
  prop_get k o = None <-> ~ In k (Object_keys o).
Proof.
  rewrite <- prop_get_In. destruct (prop_get k o); split; try tauto.
  - intros [=].
  - intros H. exfalso. apply H. eauto.
  - intros _ [x [=]].
Qed.

Lemma prop_set_new k l (o : list (string * nat)) :
  ~ In k (Object_keys o) -> prop_set k l o = o ++ [(k, l)].
Proof.
  induction o as [|[k' l'] o IH]; simpl; [reflexivity|].
  intros Hn. destruct (String.eqb_spec k' k) as [->|Hne]; [tauto|].
  rewrite IH by tauto. reflexivity.
Qed.

Lemma prop_set_keys k l (o : list (string * nat)) :
  In k (Object_keys o) -> Object_keys (prop_set k l o) = Object_keys o.
Proof.
  induction o as [|[k' l'] o IH]; simpl; [tauto|].
  intros Hin. destruct (String.eqb_spec k' k) as [->|Hne]; simpl; [reflexivity|].
  rewrite IH; [reflexivity|]. destruct Hin; [congruence|assumption].
Qed.

Lemma prop_set_keys_cases k l (o : list (string * nat)) :
  Object_keys (prop_set k l o)
  = Object_keys o \/ Object_keys (prop_set k l o) = Object_keys o ++ [k].
Proof.
  destruct (prop_get k o) as [x|] eqn:E.
  - left. apply prop_set_keys. apply prop_get_In. eauto.
  - right. rewrite prop_set_new by (apply prop_get_None; exact E).
    unfold Object_keys. rewrite map_app. reflexivity.
Qed.

Lemma prop_set_NoDup k l (o : list (string * nat)) :
  NoDup (Object_keys o) -> NoDup (Object_keys (prop_set k l o)).
Proof.
  intros Hnd. destruct (prop_get k o) as [x|] eqn:E.
  - rewrite prop_set_keys; [assumption|]. apply prop_get_In. eauto.
  - apply prop_get_None in E. rewrite prop_set_new by assumption.
    unfold Object_keys in *. rewrite map_app. simpl.
    apply NoDup_app. split; [assumption|]. split.
    + intros y Hy Hy'. apply list_elem_of_singleton in Hy'. subst y.
      apply E. apply list_elem_of_In. exact Hy.
    + apply NoDup_singleton.
Qed.

Lemma stringify_flows_keys (h : list obj) o j :
  stringify_flows h o = Some j -> map fst j = Object_keys o.
Proof.
  revert j. induction o as [|[k l] o IH]; intros j; simpl.
  - intros [= <-]. reflexivity.
  - destruct (reify h l) as [v|]; [|discriminate].
    destruct (stringify_flows h o) as [r|]; [|discriminate].
    intros [= <-]. simpl. f_equal. apply IH. reflexivity.
Qed.

Lemma stringify_flows_snoc (h : list obj) o j k l v :
  stringify_flows h o = Some j -> reify h l = Some v ->
  stringify_flows h (o ++ [(k, l)]) = Some (j ++ [(k, v)]).
Proof.
  revert j. induction o as [|[k' l'] o IH]; intros j; simpl.
  - intros [= <-] ->. reflexivity.
  - destruct (reify h l') as [v'|]; [|discriminate].
    destruct (stringify_flows h o) as [r|]; [|discriminate].
    intros [= <-] Hv. rewrite (IH r eq_refl Hv). reflexivity.
Qed.

(** ** Own properties in own-key order *)

Lemma insert_index_keys n k l (o : list (string * nat)) k' :
  In k' (Object_keys (insert_index n k l o))
  <-> k' = k \/ In k' (Object_keys o).
Proof.
  induction o as [|[k0 l0] o IH]; cbn [insert_index].
  - simpl. intuition congruence.
  - unfold Object_keys in *.
    destruct (array_index k0) as [n0|]; [destruct (n0 <? n)%N|];
      cbn [map fst In]; rewrite ?IH; intuition congruence.
Qed.

Lemma insert_index_NoDup n k l (o : list (string * nat)) :
  ~ In k (Object_keys o) -> NoDup (Object_keys o) ->
  NoDup (Object_keys (insert_index n k l o)).
Proof.
  induction o as [|[k0 l0] o IH]; cbn [insert_index]; intros Hk Hnd.
  - apply NoDup_singleton.
  - assert (Hc : NoDup (Object_keys ((k, l) :: (k0, l0) :: o))).
    { cbn [Object_keys map fst]. apply NoDup_cons.
      split; [rewrite list_elem_of_In; exact Hk | exact Hnd]. }
    destruct (array_index k0) as [n0|]; [destruct (n0 <? n)%N|]; try exact Hc.
    cbn [Object_keys map fst] in *. apply NoDup_cons in Hnd as [H0 Hnd].
    apply NoDup_cons. split.
    + rewrite list_elem_of_In in *.
      change (~ In k0 (Object_keys (insert_index n k l o))).
      rewrite insert_index_keys. intros [->|H]; [|exact (H0 H)].
      apply Hk. left. reflexivity.
    + apply IH; [|exact Hnd]. intros H. apply Hk. right. exact H.
Qed.

Lemma insert_index_stringify (h : list obj) n k l u o :
  is_Some (stringify_flows h o) -> reify h l = Some u ->
  is_Some (stringify_flows h (insert_index n k l o)).
Proof.
  intros Hj Hu. induction o as [|[k0 l0] o IH]; cbn [insert_index].
  - simpl. rewrite Hu. eauto.
  - assert (Hc : is_Some (stringify_flows h ((k, l) :: (k0, l0) :: o))).
    { destruct Hj as [j Hj]. cbn [stringify_flows] in *. rewrite Hu.
      destruct (reify h l0); [|discriminate].
      destruct (stringify_flows h o); [eauto|discriminate]. }
    destruct (array_index k0) as [n0|]; [destruct (n0 <? n)%N|]; try exact Hc.
    destruct Hj as [j Hj]. cbn [stringify_flows] in *.
    destruct (reify h l0); [|discriminate].
    destruct (stringify_flows h o) as [r|]; [|discriminate].
    destruct IH as [r' ->]; eauto.
Qed.

(** A key that comes after all the keys of the object goes to the end. *)
Lemma insert_index_last n k l (o : list (string * nat)) :
  array_index k = Some n ->
  forallb (fun k' => key_before k' k) (Object_keys o) = true ->
  insert_index n k l o = o ++ [(k, l)].
Proof.
  intros Hn. induction o as [|[k0 l0] o IH]; cbn [insert_index]; [reflexivity|].
  cbn [Object_keys map fst forallb]. intros H.
  apply andb_true_iff in H as [H0 H]. unfold key_before in H0.
  rewrite Hn in H0. destruct (array_index k0) as [n0|]; [|discriminate].
  rewrite H0, (IH H). reflexivity.
Qed.

Lemma define_property_keys k l (o : list (string * nat)) k' :
  In k' (Object_keys (define_property k l o))
  <-> k' = k \/ In k' (Object_keys o).
Proof.
  unfold define_property.
  assert (Hs : In k' (Object_keys (prop_set k l o))
               <-> k' = k \/ In k' (Object_keys o)).
  { destruct (prop_get k o) as [x|] eqn:E.
    - assert (Hin : In k (Object_keys o)) by (apply prop_get_In; eauto).
      rewrite (prop_set_keys k l o Hin). split; [auto|].
      intros [->|H]; assumption.
    - rewrite prop_set_new by (apply prop_get_None; exact E).
      unfold Object_keys. rewrite map_app, in_app_iff. simpl. intuition. }
  destruct (prop_get k o); [exact Hs|].
  destruct (array_index k); [apply insert_index_keys | exact Hs].
Qed.

Lemma define_property_NoDup k l (o : list (string * nat)) :
  NoDup (Object_keys o) -> NoDup (Object_keys (define_property k l o)).
Proof.
  intros Hnd. unfold define_property.
  destruct (prop_get k o) as [x|] eqn:E; [apply prop_set_NoDup; exact Hnd|].
  destruct (array_index k); [|apply prop_set_NoDup; exact Hnd].
  apply insert_index_NoDup; [apply prop_get_None; exact E | exact Hnd].
Qed.

Lemma define_property_stringify (h : list obj) k l u o j :
  stringify_flows h o = Some j -> reify h l = Some u ->
  is_Some (stringify_flows h (define_property k l o)).
Proof.
  intros Hj Hu. unfold define_property.
  destruct (prop_get k o); [exact (stringify_prop_set h k l u o j Hj Hu)|].
  destruct (array_index k); [|exact (stringify_prop_set h k l u o j Hj Hu)].
  apply (insert_index_stringify h _ k l u); eauto.
Qed.

Lemma define_property_last k l (o : list (string * nat)) :
  ~ In k (Object_keys o) ->
  forallb (fun k' => key_before k' k) (Object_keys o) = true ->
  define_property k l o = o ++ [(k, l)].
Proof.
  intros Hk Hb. unfold define_property.
  rewrite (proj2 (prop_get_None k o) Hk).
  destruct (array_index k) as [n|] eqn:En.
  - apply insert_index_last; assumption.
  - apply prop_set_new. exact Hk.
Qed.

Lemma array_index_show k n : array_index k = Some n -> k = show n.
Proof.
  unfold array_index.
  destruct (NilEmpty.uint_of_string k) as [d|]; [|discriminate]. cbv zeta.
  destruct (show (N.of_uint d) =? k)%string eqn:E; [|discriminate].
  destruct (N.of_uint d <? 4294967295)%N; [|discriminate].
  cbn [andb]. intros [= <-]. symmetry. apply String.eqb_eq. exact E.
Qed.

Lemma key_before_trans k k0 x :
  key_before k k0 = true -> key_before k0 x = true -> key_before k x = true.
Proof.
  unfold key_before.
  destruct (array_index k), (array_index k0), (array_index x);
    try reflexivity; try discriminate.
  rewrite !N.ltb_lt. lia.
Qed.

Lemma own_key_order_snoc a k :
  array_index k = None -> own_key_order a = true ->
  own_key_order (a ++ [k]) = true.
Proof.
  intros Hk. induction a as [|k0 a IH]; cbn [app own_key_order forallb];
    [reflexivity|].
  intros H. apply andb_true_iff in H as [H0 H].
  rewrite forallb_app, H0, (IH H). cbn [forallb]. unfold key_before.
  rewrite Hk. destruct (array_index k0); reflexivity.
Qed.

Lemma insert_index_ordered n k l (o : list (string * nat)) :
  array_index k = Some n -> ~ In k (Object_keys o) ->
  own_key_order (Object_keys o) = true ->
  own_key_order (Object_keys (insert_index n k l o)) = true.
Proof.
  intros Hn. induction o as [|[k0 l0] o IH]; cbn [insert_index]; intros Hk Ho;
    [reflexivity|].
  cbn [Object_keys map fst own_key_order] in Ho.
  apply andb_true_iff in Ho as [H0 Ho].
  assert (Hk0 : k0 <> k) by (intros ->; apply Hk; left; reflexivity).
  assert (Hk' : ~ In k (Object_keys o)) by (intros H; apply Hk; right; exact H).
  assert (Hfront : key_before k k0 = true ->
                   own_key_order (Object_keys ((k, l) :: (k0, l0) :: o)) = true).
  { intros Hb. cbn [Object_keys map fst own_key_order forallb].
    rewrite Hb, H0, Ho.
    assert (H : forallb (key_before k) (map fst o) = true).
    { apply forallb_forall. intros x Hx. rewrite forallb_forall in H0.
      exact (key_before_trans _ _ _ Hb (H0 x Hx)). }
    rewrite H. reflexivity. }
  destruct (array_index k0) as [n0|] eqn:E0.
  - destruct (N.ltb_spec n0 n) as [Hlt|Hge].
    + cbn [Object_keys map fst own_key_order]. apply andb_true_iff. split.
      * apply forallb_forall. intros x Hx.
        change (In x (Object_keys (insert_index n k l o))) in Hx.
        apply insert_index_keys in Hx as [->|Hx].
        -- unfold key_before. rewrite E0, Hn. apply N.ltb_lt. exact Hlt.
        -- rewrite forallb_forall in H0. apply H0. exact Hx.
      * apply IH; assumption.
    + apply Hfront. unfold key_before. rewrite Hn, E0. apply N.ltb_lt.
      assert (n0 <> n).
      { intros ->. apply Hk0.
        rewrite (array_index_show _ _ E0), (array_index_show _ _ Hn).
        reflexivity. }
      lia.
  - apply Hfront. unfold key_before. rewrite Hn, E0. reflexivity.
Qed.

(** Defining a property keeps own-key order. *)
Lemma define_property_ordered k l (o : list (string * nat)) :
  own_key_order (Object_keys o) = true ->
  own_key_order (Object_keys (define_property k l o)) = true.
Proof.
  intros Ho. unfold define_property. destruct (prop_get k o) as [x|] eqn:E.
  - rewrite prop_set_keys; [exact Ho | apply prop_get_In; eauto].
  - apply prop_get_None in E. destruct (array_index k) as [n|] eqn:En.
    + apply insert_index_ordered; assumption.
    + rewrite prop_set_new by exact E. unfold Object_keys. rewrite map_app.
      apply own_key_order_snoc; assumption.
Qed.

(** ** Loading the store *)

Lemma JSON_parse_flows_run : forall j o w,
  JSON_parse_flows j o w
  = (Ok (fst (alloc_flows j o (heap w))),
     set_heap (snd (alloc_flows j o (heap w))) w).
Proof.
  induction j as [|[k v] j IH]; intros o w; cbn [JSON_parse_flows alloc_flows].
  - unfold ret. destruct w; reflexivity.
  - unfold bind at 1, JSON_parse. rewrite IH. reflexivity.
Qed.

Lemma alloc_flows_extends : forall j o (h : list obj),
  exists ext, snd (alloc_flows j o h) = h ++ ext.
Proof.
  induction j as [|[k v] j IH]; intros o h; cbn [alloc_flows].
  - exists []. rewrite app_nil_r. reflexivity.
  - destruct (IH (define_property k (snd (alloc_flow v h)) o)
                 (fst (alloc_flow v h))) as [ext E].
    destruct (alloc_flow_extends v h) as [ext' E'].
    exists (ext' ++ ext). rewrite E, E', app_assoc. reflexivity.
Qed.

Lemma alloc_flows_readable : forall j o (h : list obj),
  is_Some (stringify_flows h o) ->
  is_Some (stringify_flows (snd (alloc_flows j o h)) (fst (alloc_flows j o h))).
Proof.
  induction j as [|[k v] j IH]; intros o h [jo Hjo]; cbn [alloc_flows];
    [eauto|].
  apply IH.
  eapply define_property_stringify.
  - apply stringify_alloc_old. exact Hjo.
  - apply reify_alloc_flow.
Qed.

Lemma alloc_flows_NoDup : forall j o (h : list obj),
  NoDup (Object_keys o) -> NoDup (Object_keys (fst (alloc_flows j o h))).
Proof.
  induction j as [|[k v] j IH]; intros o h Hnd; cbn [alloc_flows];
    [assumption|].
  apply IH. apply define_property_NoDup. assumption.
Qed.

Lemma alloc_flows_keys : forall j o (h : list obj) k,
  In k (Object_keys (fst (alloc_flows j o h)))
  <-> In k (Object_keys o) \/ In k (map fst j).
Proof.
  induction j as [|[k' v] j IH]; intros o h k; cbn [alloc_flows map fst];
    [simpl; tauto|].
  rewrite IH, define_property_keys. simpl. intuition congruence.
Qed.

Lemma alloc_flows_ordered : forall j o (h : list obj),
  own_key_order (Object_keys o) = true ->
  own_key_order (Object_keys (fst (alloc_flows j o h))) = true.
Proof.
  induction j as [|[k v] j IH]; intros o h Ho; cbn [alloc_flows];
    [assumption|].
  apply IH. apply define_property_ordered. assumption.
Qed.

Lemma own_key_order_before a k b :
  own_key_order (a ++ k :: b) = true ->
  forallb (fun k' => key_before k' k) a = true.
Proof.
  induction a as [|k0 a IH]; cbn [app own_key_order forallb]; [reflexivity|].
  intros H. apply andb_true_iff in H as [H0 H].
  rewrite forallb_app in H0. apply andb_true_iff in H0 as [_ H0].
  cbn [forallb] in H0. apply andb_true_iff in H0 as [H0 _].
  rewrite H0, (IH H). reflexivity.
Qed.

(** Distinct keys in own-key order come back in their order, with their
    values. *)
Lemma alloc_flows_stringify : forall j o (h : list obj) jo,
  stringify_flows h o = Some jo ->
  NoDup (Object_keys o ++ map fst j) ->
  own_key_order (Object_keys o ++ map fst j) = true ->
  stringify_flows (snd (alloc_flows j o h)) (fst (alloc_flows j o h))
  = Some (jo ++ j).
Proof.
  induction j as [|[k v] j IH]; intros o h jo Hjo Hnd Hord; cbn [alloc_flows].
  - rewrite app_nil_r. exact Hjo.
  - simpl in Hnd, Hord.
    assert (Hk : ~ In k (Object_keys o)).
    { apply NoDup_app in Hnd as (_ & Hd & _). intros Hin.
      apply (Hd k); [apply list_elem_of_In; exact Hin | left]. }
    rewrite (define_property_last k _ o Hk (own_key_order_before _ _ _ Hord)).
    replace (jo ++ (k, v) :: j) with ((jo ++ [(k, v)]) ++ j)
      by (rewrite <- app_assoc; reflexivity).
    apply IH.
    + apply stringify_flows_snoc.
      * apply stringify_alloc_old. exact Hjo.
      * apply reify_alloc_flow.
    + unfold Object_keys. rewrite map_app. simpl. rewrite <- app_assoc.
      exact Hnd.
    + unfold Object_keys. rewrite map_app. simpl. rewrite <- app_assoc.
      exact Hord.
Qed.

(** What [loadFlows] reads: the flows object and the heap after parsing. *)
Local Abbreviation parsed w :=
  (match fluid_flows (localStorage w) with
   | Some j => alloc_flows j [] (heap w)
   | None => ([], heap w)
   end).

Lemma loadFlows_run now w :
  loadable (localStorage w) ->
  exists w',
    loadFlows now w = (Ok tt, w')
    /\ (fst (parsed w) <> [] ->
        flows (state w') = fst (parsed w) /\ heap w' = snd (parsed w))
    /\ (fst (parsed w) = [] ->
        flows (state w')
        = [("flow-" +:+ show now, length (snd (parsed w)) + 3)]
        /\ heap w'
           = snd (parsed w)
               ++ [OMessages []; OSnapshots [];
                   OArtifacts [];
                   OFlow ("flow-" +:+ show now) "My First Flow"
                         (length (snd (parsed w)))
                         (length (snd (parsed w)) + 1)
                         (length (snd (parsed w)) + 2)])
    /\ activeFlowId (state w')
       = (if truthy (fluid_active_flow_id (localStorage w))
             && (match prop_get (key (fluid_active_flow_id (localStorage w)))
                                (flows (state w')) with
                 | Some _ => true
                 | None => false
                 end
                 || inherited (key (fluid_active_flow_id (localStorage w))))
          then fluid_active_flow_id (localStorage w)
          else head (Object_keys (flows (state w'))))
    /\ historyStack (state w') = historyStack (state w)
    /\ redoStack (state w') = redoStack (state w)
    /\ localStorage w' = localStorage w.
Proof.
  intros Hty.
  assert (Hset : forall w0 : World, set_heap (heap w0) w0 = w0)
    by (intros []; reflexivity).
  assert (Hp : exists w1 : World,
             w1 = set_heap (snd (parsed w)) w
             /\ loadFlows now w
                = (let o := fst (parsed w) in
                   modify (set_flows o) ;;
                   (if (length (Object_keys o) =? 0)%nat then
                      let id := "flow-" +:+ show now in
                      hl <- alloc (OMessages []) ;;
                      sl <- alloc (OSnapshots []) ;;
                      al <- alloc (OArtifacts []) ;;
                      fl <- alloc (OFlow id "My First Flow" hl sl al) ;;
                      modify (fun s => set_flows (prop_set id fl (flows s)) s) ;;
                      modify (set_activeFlowId (Some id))
                    else ret tt) ;;
                   s <- get ;;
                   let activeId := fluid_active_flow_id (localStorage w) in
                   modify (set_activeFlowId
                             (if truthy activeId
                                 && (match prop_get (key activeId) (flows s) with
                                     | Some _ => true
                                     | None => false
                                     end
                                     || inherited (key activeId))
                              then activeId
                              else head (Object_keys (flows s))))) w1).
  { eexists. split; [reflexivity|].
    unfold loadFlows. unfold bind at 1. unfold bind at 1.
    unfold loadable in Hty.
    destruct (fluid_flows (localStorage w)) as [j|].
    - rewrite JSON_parse_flows_run. reflexivity.
    - destruct (fluid_flows_other (localStorage w)) as [[]|];
        [| exfalso; apply Hty; reflexivity |];
        unfold ret at 1; cbn [fst snd]; rewrite Hset; reflexivity. }
  destruct Hp as (w1 & -> & ->). cbv zeta. mred. wsimpl.
  destruct (fst (parsed w)) as [|p o] eqn:Eo.
  - cbn [Object_keys map length Nat.eqb]. mred. wsimpl.
    eexists. split; [reflexivity|]. wsimpl.
    split; [intros H; congruence|]. split.
    + intros _. rewrite !length_app. cbn [length prop_set].
      replace (length (snd (parsed w)) + 1 + 1 + 1)
        with (length (snd (parsed w)) + 3) by lia.
      replace (length (snd (parsed w)) + 1 + 1)
        with (length (snd (parsed w)) + 2) by lia.
      rewrite <- !app_assoc. split; reflexivity.
    + repeat split; reflexivity.
  - cbn [Object_keys map length Nat.eqb]. mred. wsimpl.
    eexists. split; [reflexivity|]. wsimpl.
    split; [intros _; split; reflexivity|].
    split; [intros [=]|]. repeat split; reflexivity.
Qed.

(** The value of a Flow object just built with three empty arrays. *)
Lemma reify_empty_flow (h : list obj) i n :
  reify (h ++ [OMessages []; OSnapshots []; OArtifacts [];
               OFlow i n (length h) (length h + 1) (length h + 2)])
        (length h + 3)
  = Some {| Flow.id := i; Flow.name := n; Flow.history := [];
            Flow.snapshots := []; Flow.artifacts := [] |}.
Proof.
  apply reify_intro with (hl := length h) (sl := length h + 1)
                         (al := length h + 2) (als := []).
  - rewrite lookup_app_r by lia.
    replace (length h + 3 - length h) with 3 by lia. reflexivity.
  - rewrite lookup_app_r by lia. rewrite Nat.sub_diag. reflexivity.
  - rewrite lookup_app_r by lia.
    replace (length h + 1 - length h) with 1 by lia. reflexivity.
  - rewrite lookup_app_r by lia.
    replace (length h + 2 - length h) with 2 by lia. reflexivity.
  - reflexivity.
Qed.

Lemma alloc_flows_nil j (h : list obj) :
  fst (alloc_flows j [] h) = [] -> j = [].
Proof.
  destruct j as [|[k v] j]; [reflexivity|]. intros E. exfalso.
  assert (Hin : In k (Object_keys (fst (alloc_flows ((k, v) :: j) [] h))))
    by (apply alloc_flows_keys; right; left; reflexivity).
  rewrite E in Hin. destruct Hin.
Qed.

(** X1. First run: with no stored flows (the item missing, holding text
    that is no JSON, or holding an empty object), [loadFlows] leaves exactly
    one Flow, named "My First Flow", with no message, snapshot or artifact,
    under the id made of the clock reading.  That id becomes the active
    one, and the new Flow the active Flow, unless the stored active id is
    the name of a member of [Object.prototype]: such a name is kept as the
    active id although no flow has it. *)
Theorem loadFlows_first_run now w :
  fluid_flows (localStorage w) = Some []
  \/ fluid_flows (localStorage w) = None
     /\ fluid_flows_other (localStorage w) <> Some NotFlows ->
  exists w' fl,
    loadFlows now w = (Ok tt, w')
    /\ flows (state w') = [("flow-" +:+ show now, fl)]
    /\ reify (heap w') fl = Some (firstFlow now)
    /\ activeFlowId (state w')
       = (if truthy (fluid_active_flow_id (localStorage w))
             && inherited (key (fluid_active_flow_id (localStorage w)))
          then fluid_active_flow_id (localStorage w)
          else Some ("flow-" +:+ show now))
    /\ (truthy (fluid_active_flow_id (localStorage w))
        && inherited (key (fluid_active_flow_id (localStorage w))) = false ->
        activeFlow w' = Some (firstFlow now)).
Proof.
  intros Hs.
  assert (Hty : loadable (localStorage w))
    by (unfold loadable; destruct Hs as [E|[_ E]];
        [rewrite E; discriminate | intros _; exact E]).
  destruct (loadFlows_run now w Hty) as (w' & Hrun & _ & He & Ha & _).
  assert (Hp : parsed w = ([], heap w))
    by (destruct Hs as [E|[E _]]; rewrite E; reflexivity).
  rewrite Hp in He. destruct (He eq_refl) as [Hf Hh]. cbn [fst snd] in *.
  assert (Hr : reify (heap w') (length (heap w) + 3) = Some (firstFlow now))
    by (rewrite Hh; apply reify_empty_flow).
  assert (Hact : activeFlowId (state w')
                 = (if truthy (fluid_active_flow_id (localStorage w))
                       && inherited
                            (key (fluid_active_flow_id (localStorage w)))
                    then fluid_active_flow_id (localStorage w)
                    else Some ("flow-" +:+ show now))).
  { rewrite Ha, Hf. cbn [prop_get Object_keys map fst head].
    destruct (truthy (fluid_active_flow_id (localStorage w))) eqn:T;
      [|reflexivity].
    destruct (fluid_active_flow_id (localStorage w)) as [a|]; [|discriminate].
    cbn [key andb]. destruct (inherited a).
    - rewrite orb_true_r. reflexivity.
    - rewrite orb_false_r.
      destruct (String.eqb_spec ("flow-" +:+ show now) a) as [<-|_];
        reflexivity. }
  exists w', (length (heap w) + 3).
  split; [exact Hrun|]. split; [exact Hf|]. split; [exact Hr|].
  split; [exact Hact|].
  intros Hn. unfold activeFlow. rewrite Hact, Hn, Hf. cbn [key prop_get].
  rewrite String.eqb_refl. exact Hr.
Qed.

Lemma loadFlows_first_run_witness :
  exists w' fl,
    loadFlows 1699902000000
      (set_localStorage {| fluid_flows_other := None; fluid_flows := None;
                           fluid_active_flow_id := Some "constructor" |}
                        world1)
    = (Ok tt, w')
    /\ flows (state w') = [("flow-1699902000000", fl)]
    /\ reify (heap w') fl = Some (firstFlow 1699902000000)
    /\ activeFlowId (state w') = Some "constructor".
Proof.
  destruct (loadFlows_first_run 1699902000000
              (set_localStorage
                 {| fluid_flows_other := None; fluid_flows := None;
                    fluid_active_flow_id := Some "constructor" |}
                 world1))
    as (w' & fl & H1 & H2 & H3 & H4 & _);
    [right; split; [reflexivity | discriminate]|].
  exists w', fl. split; [exact H1|]. split; [exact H2|].
  split; [exact H3 | exact H4].
Defined.

(** X2. Unless the item [fluid_flows] holds JSON for something else than
    an object of Flows, [loadFlows] completes and ends with a store that
    has a flow, distinct keys in own-key order, and every flow readable.
    The active id is the stored one when that is not empty and is the key
    of a flow or the name of a member of [Object.prototype], and the first
    key, in own-key order, otherwise.  The two stacks and the storage
    stay. *)
Theorem loadFlows_establishes now w :
  loadable (localStorage w) ->
  exists w',
    loadFlows now w = (Ok tt, w')
    /\ flows (state w') <> []
    /\ NoDup (Object_keys (flows (state w')))
    /\ own_key_order (Object_keys (flows (state w'))) = true
    /\ is_Some (stringify_flows (heap w') (flows (state w')))
    /\ (exists k, activeFlowId (state w') = Some k
                  /\ (truthy (fluid_active_flow_id (localStorage w)) = true ->
                      In (key (fluid_active_flow_id (localStorage w)))
                         (Object_keys (flows (state w')))
                      \/ inherited
                           (key (fluid_active_flow_id (localStorage w)))
                         = true ->
                      Some k = fluid_active_flow_id (localStorage w))
                  /\ (truthy (fluid_active_flow_id (localStorage w)) = false
                      \/ (~ In (key (fluid_active_flow_id (localStorage w)))
                               (Object_keys (flows (state w')))
                          /\ inherited
                               (key (fluid_active_flow_id (localStorage w)))
                             = false) ->
                      Some k = head (Object_keys (flows (state w')))
                      /\ In k (Object_keys (flows (state w')))))
    /\ (exists ext, heap w' = heap w ++ ext)
    /\ historyStack (state w') = historyStack (state w)
    /\ redoStack (state w') = redoStack (state w)
    /\ localStorage w' = localStorage w.
Proof.
  intros Hty.
  destruct (loadFlows_run now w Hty)
    as (w' & Hrun & Hne & He & Ha & Hh & Hr & Hl).
  exists w'. split; [exact Hrun|].
  assert (Hstore : flows (state w') <> []
                   /\ NoDup (Object_keys (flows (state w')))
                   /\ own_key_order (Object_keys (flows (state w'))) = true
                   /\ is_Some (stringify_flows (heap w') (flows (state w')))
                   /\ exists ext, heap w' = heap w ++ ext).
  { destruct (fst (parsed w)) as [|p o] eqn:Eo.
    - destruct (He eq_refl) as [Hf Hheap]. rewrite Hf, Hheap.
      split; [discriminate|]. split; [apply NoDup_singleton|].
      split; [reflexivity|]. split.
      + cbn [stringify_flows]. rewrite reify_empty_flow. eauto.
      + destruct (fluid_flows (localStorage w)) as [j|].
        * destruct (alloc_flows_extends j [] (heap w)) as [ext ->].
          rewrite <- app_assoc. eauto.
        * cbn [snd]. eauto.
    - destruct Hne as [Hf Hheap]; [discriminate|]. rewrite Hf, Hheap.
      destruct (fluid_flows (localStorage w)) as [j|]; [|discriminate].
      rewrite <- Eo. split; [rewrite Eo; discriminate|]. split.
      + apply alloc_flows_NoDup. constructor.
      + split; [apply alloc_flows_ordered; reflexivity|].
        split; [apply alloc_flows_readable; cbn; eauto|].
        apply alloc_flows_extends. }
  destruct Hstore as (H1 & H2 & H3 & H4 & H5).
  repeat (split; [assumption|]). split; [|auto].
  destruct (flows (state w')) as [|[k0 l0] o'] eqn:Ef; [congruence|].
  rewrite Ha.
  destruct (truthy (fluid_active_flow_id (localStorage w))) eqn:T.
  - destruct (fluid_active_flow_id (localStorage w)) as [a|] eqn:Ea;
      [|discriminate]. cbn [key andb].
    destruct (prop_get a ((k0, l0) :: o')) as [x|] eqn:Eg.
    + exists a. split; [reflexivity|]. split; [reflexivity|].
      intros [?|[Hn _]]; [discriminate|].
      exfalso. apply Hn. apply prop_get_In. eauto.
    + destruct (inherited a) eqn:I; cbn [orb].
      * exists a. split; [reflexivity|]. split; [reflexivity|].
        intros [?|[_ ?]]; discriminate.
      * exists k0. split; [reflexivity|]. split.
        -- intros _ [Hin|?]; [|discriminate]. apply prop_get_In in Hin.
           rewrite Eg in Hin. destruct Hin as [? [=]].
        -- intros _. split; [reflexivity | left; reflexivity].
  - cbn [andb]. exists k0. split; [reflexivity|].
    split; [discriminate|]. intros _. split; [reflexivity | left; reflexivity].
Qed.

(** Stored text with the key "b" before the key "1", and a stored active id
    that no flow has but every object inherits: the flows come back with
    "1" first, and the stored id stays the active one. *)
Lemma loadFlows_establishes_witness :
  exists w',
    loadFlows 1699903000000
      (set_localStorage
         {| fluid_flows_other := None;
            fluid_flows := Some [("b", flowB); ("1", flowA)];
            fluid_active_flow_id := Some "constructor" |}
         world_fresh)
    = (Ok tt, w')
    /\ Object_keys (flows (state w')) = ["1"; "b"]
    /\ own_key_order (Object_keys (flows (state w'))) = true
    /\ activeFlowId (state w') = Some "constructor".
Proof.
  destruct (loadFlows_establishes 1699903000000
              (set_localStorage
                 {| fluid_flows_other := None;
                    fluid_flows := Some [("b", flowB); ("1", flowA)];
                    fluid_active_flow_id := Some "constructor" |}
                 world_fresh))
    as (w' & H1 & _ & _ & H2 & _); [intros [=]|].
  exists w'. split; [exact H1|].
  pose proof H1 as H. vm_compute in H. injection H as <-.
  repeat split; reflexivity.
Defined.

(** X3. Round trip: what [saveFlows] wrote, [loadFlows] reads back in any
    later session: the same keys in the same order, each Flow with the same
    value (messages, snapshots and artifacts in order), and the same active
    flow id.  The flows object is one that JS can hold: its keys are
    distinct and in own-key order. *)
Theorem save_load_round_trip now w0 w1 w a :
  saveFlows w0 = (Ok tt, w1) ->
  NoDup (Object_keys (flows (state w0))) ->
  own_key_order (Object_keys (flows (state w0))) = true ->
  activeFlowId (state w0) = Some a ->
  a <> "" ->
  In a (Object_keys (flows (state w0))) ->
  localStorage w = localStorage w1 ->
  exists w',
    loadFlows now w = (Ok tt, w')
    /\ stringify_flows (heap w') (flows (state w'))
       = stringify_flows (heap w0) (flows (state w0))
    /\ Object_keys (flows (state w')) = Object_keys (flows (state w0))
    /\ activeFlowId (state w') = activeFlowId (state w0)
    /\ activeFlow w' = activeFlow w0.
Proof.
  intros Hsave Hnd Hord Hact Hne Hin Hls.
  unfold saveFlows in Hsave.
  destruct (stringify_flows (heap w0) (flows (state w0))) as [j|] eqn:Hj;
    [|discriminate].
  injection Hsave as <-. cbn [localStorage set_localStorage] in Hls.
  pose proof (stringify_flows_keys _ _ _ Hj) as Hk.
  assert (Hty : loadable (localStorage w))
    by (rewrite Hls; intros [=]).
  destruct (loadFlows_run now w Hty) as (w' & Hrun & Hnz & _ & Ha & _).
  rewrite Hls in Hnz, Ha.
  cbn [fluid_flows fluid_active_flow_id fluid_flows_other] in Hnz, Ha.
  assert (Hs : stringify_flows (snd (alloc_flows j [] (heap w)))
                               (fst (alloc_flows j [] (heap w))) = Some j).
  { apply (alloc_flows_stringify j [] (heap w) []); [reflexivity| |];
      cbn [Object_keys map app]; rewrite Hk; assumption. }
  destruct Hnz as [Hf Hh].
  { intros E. apply alloc_flows_nil in E. subst j. rewrite <- Hk in Hin.
    destruct Hin. }
  rewrite <- Hf, <- Hh in Hs.
  pose proof (stringify_flows_keys _ _ _ Hs) as Hk'.
  assert (Hact' : activeFlowId (state w') = Some a).
  { rewrite Ha, Hact. cbn [key].
    assert (Hg : is_Some (prop_get a (flows (state w'))))
      by (apply prop_get_In; rewrite <- Hk', Hk; exact Hin).
    destruct Hg as [x ->]. unfold truthy.
    apply String.eqb_neq in Hne. rewrite Hne. reflexivity. }
  exists w'. split; [exact Hrun|]. split; [exact Hs|].
  split; [congruence|]. split; [congruence|].
  unfold activeFlow. rewrite Hact', Hact. cbn [key].
  clear - Hs Hj. revert Hs Hj. generalize (flows (state w')) (flows (state w0)).
  intros o o'. revert o o' . induction j as [|[k v] j IH]; intros o o' Ho Ho'.
  - destruct o as [|[]], o' as [|[]]; simpl in *; try reflexivity;
      repeat match goal with
        | H : context [match ?x with _ => _ end] |- _ => destruct x eqn:?
        end; discriminate.
  - destruct o as [|[k1 l1] o], o' as [|[k2 l2] o']; simpl in Ho, Ho';
      try discriminate.
    destruct (reify (heap w') l1) as [v1|] eqn:E1; [|discriminate].
    destruct (stringify_flows (heap w') o) as [r1|] eqn:R1; [|discriminate].
    destruct (reify (heap w0) l2) as [v2|] eqn:E2; [|discriminate].
    destruct (stringify_flows (heap w0) o') as [r2|] eqn:R2; [|discriminate].
    injection Ho as -> -> ->. injection Ho' as -> -> ->.
    simpl. destruct (k =? a)%string; [congruence|]. apply IH; assumption.
Qed.

Lemma save_load_round_trip_witness :
  exists w1 w',
    saveFlows world2 = (Ok tt, w1)
    /\ loadFlows 1699903000000 world_fresh_session = (Ok tt, w')
    /\ stringify_flows (heap w') (flows (state w'))
       = Some [("flow-1", flowA); ("flow-2", flowB)]
    /\ activeFlowId (state w') = Some "flow-1".
Proof.
  destruct (save_load_round_trip 1699903000000 world2 world2
              world_fresh_session "flow-1")
    as (w' & H1 & H2 & _ & H4 & _); try reflexivity.
  - cbn. apply NoDup_cons. split; [|apply NoDup_singleton].
    intros H. apply list_elem_of_singleton in H. discriminate.
  - discriminate.
  - left. reflexivity.
  - exists world2, w'. split; [reflexivity|]. split; [exact H1|].
    split; [rewrite H2; reflexivity | exact H4].
Defined.

(** The key order cannot be left out of the round trip: a flows list with
    the key "b" before the key "1" is not one a JS object has, and what is
    read back after writing it has its keys in own-key order. *)
Lemma round_trip_in_own_key_order :
  let w0 := set_state (set_flows [("b", 5); ("1", 9)]
                         (set_activeFlowId (Some "b") (state world2)))
                      world2 in
  own_key_order (Object_keys (flows (state w0))) = false
  /\ exists w1 w',
       saveFlows w0 = (Ok tt, w1)
       /\ loadFlows 1699903000000
            (set_localStorage (localStorage w1) world_fresh_session)
          = (Ok tt, w')
       /\ Object_keys (flows (state w')) = ["1"; "b"]
       /\ activeFlowId (state w') = Some "b".
Proof.
  intros w0. split; [reflexivity|].
  eexists _, _. split; [vm_compute; reflexivity|].
  split; [vm_compute; reflexivity|]. split; reflexivity.
Qed.

(** ** Heaps that evolve by allocation and in-place writes *)

Lemma reify_write_name (h : list obj) x i n n' hl sl al l v :
  h !! x = Some (OFlow i n hl sl al) ->
  reify h l = Some v ->
  reify (<[x := OFlow i n' hl sl al]> h) l
  = Some (if (l =? x)%nat then set_name n' v else v).
Proof.
  intros Hx Hr.
  destruct (reify_inv _ _ _ Hr) as (hl' & sl' & al' & als & El & Eh & Es & Ea & Eg).
  assert (Hxl : x < length h) by (eapply lookup_lt_Some; eauto).
  destruct v as [i' m hs ss arts]; simpl in *.
  destruct (Nat.eqb_spec l x) as [->|Hne].
  - rewrite Hx in El. injection El as <- <- <- <- <-.
    apply reify_intro with (hl := hl) (sl := sl) (al := al) (als := als);
      try (rewrite list_lookup_insert_ne by congruence; assumption).
    + apply list_lookup_insert_eq; assumption.
    + eapply get_artifacts_write_other; eauto; discriminate.
  - apply reify_intro with (hl := hl') (sl := sl') (al := al') (als := als);
      try (rewrite list_lookup_insert_ne by congruence; assumption).
    eapply get_artifacts_write_other; eauto; discriminate.
Qed.

Lemma write_ok_readable (h : list obj) x o l v :
  write_ok h x o -> reify h l = Some v -> is_Some (reify (<[x := o]> h) l).
Proof.
  intros Hw Hr. destruct Hw as [x ms ms' Hx|x a a' Hx|x als als' arts' Hx Hg|
                                x i n n' hl sl al Hx].
  - destruct (reify_write_messages h x ms ms' l v Hx Hr) as (? & _ & ->). eauto.
  - destruct (reify_write_artifact h x a a' l v Hx Hr) as (? & ? & _ & _ & ->).
    eauto.
  - destruct (reify_write_artifacts h x als als' arts' l v Hx Hg Hr)
      as (? & _ & ->). eauto.
  - rewrite (reify_write_name h x i n n' hl sl al l v Hx Hr). eauto.
Qed.

Lemma footprint_write_outside (h : list obj) x o c :
  ~ In x (footprint h c) -> footprint (<[x := o]> h) c = footprint h c.
Proof.
  unfold footprint. intros Hn.
  assert (Hc : x <> c).
  { intros ->. apply Hn. destruct (h !! c) as [[]|]; left; reflexivity. }
  rewrite list_lookup_insert_ne by exact Hc.
  destruct (h !! c) as [[i n hl sl al| | | |]|]; try reflexivity.
  assert (Ha : x <> al) by (intros ->; apply Hn; simpl; auto).
  rewrite list_lookup_insert_ne by exact Ha. reflexivity.
Qed.

Section Evolves.
Variable lo : nat.

Lemma evolves_trans (h1 h2 h3 : list obj) :
  evolves lo h1 h2 -> evolves lo h2 h3 -> evolves lo h1 h3.
Proof.
  intros H12 H23. induction H23; [assumption | |].
  - apply evolves_alloc. auto.
  - apply evolves_write; auto.
Qed.

Lemma evolves_length (h h' : list obj) :
  evolves lo h h' -> length h <= length h'.
Proof.
  induction 1; [lia | rewrite length_app; lia | rewrite length_insert; lia].
Qed.

(** What could be read can still be read. *)
Lemma evolves_readable (h h' : list obj) l :
  evolves lo h h' -> is_Some (reify h l) -> is_Some (reify h' l).
Proof.
  induction 1 as [h|h h' ext _ IH|h h' x o _ IH Hx Hw]; intros Hr; [assumption| |].
  - destruct (IH Hr) as [u Hu]. rewrite (reify_app _ _ _ _ Hu). eauto.
  - destruct (IH Hr) as [u Hu]. eapply write_ok_readable; eauto.
Qed.

Lemma evolves_stringify (h h' : list obj) o :
  evolves lo h h' ->
  is_Some (stringify_flows h o) -> is_Some (stringify_flows h' o).
Proof.
  intros He. induction o as [|[k l] o IH]; simpl; [eauto|].
  intros [j Hj].
  destruct (reify h l) as [v|] eqn:E; [|discriminate].
  destruct (stringify_flows h o) as [r|] eqn:Er; [|discriminate].
  destruct (evolves_readable h h' l He) as [v' ->]; [rewrite E; eauto|].
  destruct IH as [r' ->]; eauto.
Qed.

(** An object whose cells all lie at [lo] or above keeps its value and its
    cells. *)
Lemma evolves_frozen (h h' : list obj) c v :
  evolves lo h h' ->
  reify h c = Some v ->
  (forall y, In y (footprint h c) -> lo <= y) ->
  reify h' c = Some v /\ footprint h' c = footprint h c.
Proof.
  induction 1 as [h|h h' ext _ IH|h h' x o _ IH Hx Hw]; intros Hr Hf; [auto| |].
  - destruct (IH Hr Hf) as [Hr' Hf']. split.
    + apply reify_app. exact Hr'.
    + rewrite (footprint_app _ _ _ _ Hr'). exact Hf'.
  - destruct (IH Hr Hf) as [Hr' Hf'].
    assert (Hn : ~ In x (footprint h' c)).
    { rewrite Hf'. intros Hin. apply Hf in Hin. lia. }
    split.
    + apply reify_write_outside; assumption.
    + rewrite footprint_write_outside by exact Hn. exact Hf'.
Qed.
End Evolves.

(** A snapshot just taken survives whatever happens to older objects. *)
Lemma snapshot_frozen v (h h' : list obj) :
  evolves (length h) (fst (alloc_flow v h)) h' ->
  reify h' (snd (alloc_flow v h)) = Some v.
Proof.
  intros He.
  apply (evolves_frozen (length h) _ h' _ v He (reify_alloc_flow v h)).
  apply footprint_alloc_flow.
Qed.

Lemma evolves_flow_cell lo (h h' : list obj) l i n hl sl al :
  evolves lo h h' ->
  h !! l = Some (OFlow i n hl sl al) ->
  exists n', h' !! l = Some (OFlow i n' hl sl al).
Proof.
  induction 1 as [h|h h' ext _ IH|h h' x o _ IH Hx Hw]; intros Hl; [eauto| |].
  - destruct (IH Hl) as [n' Hn']. exists n'. apply lookup_app_l_Some. exact Hn'.
  - destruct (IH Hl) as [n' Hn'].
    destruct (Nat.eq_dec x l) as [->|Hne].
    + assert (Hlt : l < length h') by (eapply lookup_lt_Some; eauto).
      destruct Hw as [x ms ms' Hc|x a a' Hc|x als als' arts' Hc Hg|
                      x i' m m' hl' sl' al' Hc]; try congruence.
      rewrite Hn' in Hc. injection Hc as <- <- <- <- <-.
      exists m'. apply list_lookup_insert_eq. exact Hlt.
    + exists n'. rewrite list_lookup_insert_ne by exact Hne. exact Hn'.
Qed.

(** ** Effects of the steps of a tool call *)

(** ** Snapshots are never written to *)

Lemma apart_sym (h : list obj) c l : apart h c l -> apart h l c.
Proof. intros H y Hy Hy'. exact (H y Hy' Hy). Qed.

Lemma footprint_self (h : list obj) l : In l (footprint h l).
Proof. unfold footprint. destruct (h !! l) as [[]|]; left; reflexivity. Qed.

Lemma readable_bound (h : list obj) l : is_Some (reify h l) -> l < length h.
Proof.
  intros [v Hv]. apply (footprint_bound _ _ _ _ Hv). apply footprint_self.
Qed.

Lemma footprint_alloc_old v (h : list obj) l :
  is_Some (reify h l) -> footprint (fst (alloc_flow v h)) l = footprint h l.
Proof.
  intros [u Hu]. destruct (alloc_flow_extends v h) as [ext ->].
  apply (footprint_app _ _ _ _ Hu).
Qed.

Lemma footprint_write_leaf (h : list obj) x o o' l :
  h !! x = Some o ->
  match o with OFlow _ _ _ _ _ | OArtifacts _ => False | _ => True end ->
  match o' with OFlow _ _ _ _ _ | OArtifacts _ => False | _ => True end ->
  footprint (<[x := o']> h) l = footprint h l.
Proof.
  intros Hx Ho Ho'. unfold footprint.
  assert (Hxl : x < length h) by (eapply lookup_lt_Some; eauto).
  destruct (Nat.eq_dec x l) as [->|Hne].
  - rewrite list_lookup_insert_eq by exact Hxl. rewrite Hx.
    destruct o; destruct o'; tauto.
  - rewrite list_lookup_insert_ne by exact Hne.
    destruct (h !! l) as [[i n hl sl al| | | |]|]; try reflexivity.
    destruct (Nat.eq_dec x al) as [->|Hna].
    + rewrite list_lookup_insert_eq by exact Hxl. rewrite Hx.
      destruct o; destruct o'; tauto.
    + rewrite list_lookup_insert_ne by exact Hna. reflexivity.
Qed.

Section Edits.
Variables (fl : nat) (h0 : list obj).
Hypothesis Hlive : is_Some (reify h0 fl).

Lemma edits_live (h : list obj) :
  edits fl h0 h ->
  is_Some (reify h fl)
  /\ (forall y, In y (footprint h fl) ->
                In y (footprint h0 fl) \/ length h0 <= y)
  /\ length h0 <= length h.
Proof.
  induction 1 as [|h ext _ IH|h x o _ IH Hx Hw Hgrow].
  - split; [exact Hlive|]. split; [auto | lia].
  - destruct IH as ([u Hu] & Hf & Hlen). split; [|split].
    + exists u. apply reify_app. exact Hu.
    + rewrite (footprint_app _ _ _ _ Hu). exact Hf.
    + rewrite length_app. lia.
  - destruct IH as ([u Hu] & Hf & Hlen). split; [|split].
    + eapply write_ok_readable; eauto.
    + intros y Hy. destruct (Hgrow y Hy) as [Hy'|Hy']; auto.
    + rewrite length_insert. exact Hlen.
Qed.

(** A Flow object that shares no cell with the one at [fl] keeps its value
    and its cells. *)
Lemma edits_frozen (h : list obj) c v :
  edits fl h0 h ->
  reify h0 c = Some v ->
  apart h0 c fl ->
  reify h c = Some v /\ footprint h c = footprint h0 c.
Proof.
  intros He Hr Ha.
  induction He as [|h ext He IH|h x o He IH Hx Hw Hgrow]; [auto| |].
  - destruct IH as [Hr' Hf']. split.
    + apply reify_app. exact Hr'.
    + rewrite (footprint_app _ _ _ _ Hr'). exact Hf'.
  - destruct IH as [Hr' Hf'].
    assert (Hn : ~ In x (footprint h c)).
    { rewrite Hf'. intros Hin.
      destruct (proj1 (proj2 (edits_live h He)) x Hx) as [Hold|Hnew].
      - exact (Ha x Hin Hold).
      - apply (footprint_bound _ _ _ _ Hr) in Hin. lia. }
    split.
    + apply reify_write_outside; assumption.
    + rewrite footprint_write_outside by exact Hn. exact Hf'.
Qed.
End Edits.

Section Effects.
Variables (lo : nat) (h0 : list obj) (fl : nat).
Variables (i n : string) (hl sl al : nat).
Hypothesis Hcell : h0 !! fl = Some (OFlow i n hl sl al).
Hypothesis Hhl : hl < lo.
Hypothesis Hread : is_Some (reify h0 fl).

Lemma appendMessage_evolves w r t ex :
  truthy (activeFlowId (state w)) = true ->
  prop_get (key (activeFlowId (state w))) (flows (state w)) = Some fl ->
  evolves lo h0 (heap w) ->
  is_Some (stringify_flows h0 (flows (state w))) ->
  exists w',
    appendMessage r t ex w = (Ok tt, w')
    /\ state w' = state w
    /\ evolves lo h0 (heap w')
    /\ chatHistoryEl w' = chatHistoryEl w ++ [ {| shown := msg r t; extra := ex |} ]
    /\ catalystsHidden w' = catalystsHidden w
    /\ persisted w'
    /\ (forall u, reify (heap w) fl = Some u ->
                  reify (heap w') fl
                  = Some (set_history (Flow.history u ++ [msg r t]) u))
    /\ (forall hb, edits fl hb (heap w) -> edits fl hb (heap w')).
Proof.
  intros Ht Hg He Hs.
  destruct (evolves_readable lo h0 (heap w) fl He Hread) as [u Hu].
  destruct (evolves_stringify lo h0 (heap w) _ He Hs) as [j Hj].
  destruct (evolves_flow_cell lo h0 (heap w) fl i n hl sl al He Hcell) as [n' Hc'].
  destruct (appendMessage_run w r t ex fl u j Ht Hg Hu Hj)
    as (w' & hl' & Hrun & Hst & Hin & Hheap & Hrf & Hper & Hchat & Hcat & Hm & sl' & al' & Hfl).
  assert (hl' = hl) as -> by congruence.
  exists w'. split; [exact Hrun|]. split; [exact Hst|]. split.
  { rewrite Hheap. apply evolves_write; [exact He | exact Hhl |].
    eapply write_messages. exact Hm. }
  split; [exact Hchat|]. split; [exact Hcat|]. split; [exact Hper|].
  split.
  { intros u' Hu'. assert (u' = u) as -> by congruence. exact Hrf. }
  intros hb Hed. rewrite Hheap.
  apply edits_write; [exact Hed | exact Hin | eapply write_messages; exact Hm |].
  intros y Hy. left.
  rewrite (footprint_write_leaf _ _ _ (OMessages _) _ Hm I I) in Hy. exact Hy.
Qed.
End Effects.

Section ToolCalls.
Variables (w : World) (fl : nat) (v : Flow.t) (j : list (string * Flow.t)).
Hypothesis Ht : truthy (activeFlowId (state w)) = true.
Hypothesis Hg :
  prop_get (key (activeFlowId (state w))) (flows (state w)) = Some fl.
Hypothesis Hr : reify (heap w) fl = Some v.
Hypothesis Hj : stringify_flows (heap w) (flows (state w)) = Some j.

Local Abbreviation w1 := (checkpointed v w).
Local Abbreviation h1 := (fst (alloc_flow v (heap w))).
Local Abbreviation lo := (length (heap w)).

(** The cells of the live Flow, as the checkpoint leaves them. *)
Lemma live_cells :
  exists hl sl al als,
    h1 !! fl = Some (OFlow (Flow.id v) (Flow.name v) hl sl al)
    /\ h1 !! hl = Some (OMessages (Flow.history v))
    /\ h1 !! al = Some (OArtifacts als)
    /\ get_artifacts h1 als = Some (Flow.artifacts v)
    /\ hl < lo /\ al < lo /\ (forall x, In x als -> x < lo).
Proof.
  destruct (reify_inv _ _ _ Hr) as (hl & sl & al & als & El & Eh & Es & Ea & Eg).
  destruct (alloc_flow_extends v (heap w)) as [ext ->].
  exists hl, sl, al, als.
  split; [apply lookup_app_l_Some; exact El|].
  split; [apply lookup_app_l_Some; exact Eh|].
  split; [apply lookup_app_l_Some; exact Ea|].
  split; [apply get_artifacts_app; exact Eg|].
  split; [eapply lookup_lt_Some; eauto|].
  split; [eapply lookup_lt_Some; eauto|].
  intros x Hx. eapply get_artifacts_bound; eauto.
Qed.

Lemma call_effect_checkpointed : call_effect v w w1.
Proof.
  unfold call_effect, checkpointed. wsimpl.
  repeat (split; [reflexivity|]). apply evolves_refl.
Qed.

Lemma call_effect_state w' :
  state w' = state w1 ->
  evolves lo h1 (heap w') ->
  call_effect v w w'.
Proof.
  intros Hs He. unfold call_effect. rewrite Hs. unfold checkpointed. wsimpl.
  repeat (split; [reflexivity|]). exact He.
Qed.

(** A checkpoint followed by one appended Message. *)
Lemma message_call_effect r t ex :
  exists w',
    (pushUndoState ;; appendMessage r t ex) w = (Ok tt, w')
    /\ call_effect v w w'
    /\ persisted w'
    /\ reify (heap w') fl = Some (set_history (Flow.history v ++ [msg r t]) v)
    /\ chatHistoryEl w'
       = chatHistoryEl w ++ [ {| shown := msg r t; extra := ex |} ]
    /\ catalystsHidden w' = catalystsHidden w
    /\ edits fl h1 (heap w').
Proof.
  destruct live_cells as (hl & sl & al & als & El & Eh & Ea & Eg & Hhl & Hal & Hals).
  destruct (appendMessage_evolves lo h1 fl _ _ hl sl al El Hhl
              (ex_intro _ v (reify_alloc_old v _ _ _ Hr)) w1 r t ex Ht Hg
              (evolves_refl _ _)
              (ex_intro _ j (stringify_alloc_old v _ _ _ Hj)))
    as (w' & Hrun & Hst & He & Hchat & Hcat & Hper & Hval & Hed).
  exists w'. split.
  { unfold bind. rewrite (pushUndoState_run w fl v Ht Hg Hr). exact Hrun. }
  split; [apply call_effect_state; assumption|].
  split; [exact Hper|].
  split; [|split; [exact Hchat | split; [exact Hcat|]]].
  - apply Hval. apply reify_alloc_old. exact Hr.
  - apply Hed. apply edits_refl.
Qed.

(** [present_artifact]. *)
Lemma present_call_effect now title type content language :
  let a := {| Artifact.id := "artifact-" +:+ show now; Artifact.title := title;
              Artifact.type := type; Artifact.content := content;
              Artifact.language := language |} in
  exists w',
    handleFunctionCall now
      {| name := "present_artifact";
         args := PresentArgs title type content language |} w
    = (Ok tt, w')
    /\ call_effect v w w'
    /\ persisted w'
    /\ reify (heap w') fl = Some (set_artifacts (Flow.artifacts v ++ [a]) v)
    /\ activeArtifactId (state w') = Some (Artifact.id a)
    /\ chatHistoryEl w' = chatHistoryEl w
    /\ edits fl h1 (heap w').
Proof.
  intros a.
  destruct live_cells as (hl & sl & al & als & El & Eh & Ea & Eg & Hhl & Hal & Hals).
  set (x := length h1).
  set (h2 := h1 ++ [OArtifact a]).
  assert (He2 : evolves lo h1 h2) by (apply evolves_alloc, evolves_refl).
  assert (El2 := lookup_app_l_Some _ [OArtifact a] _ _ El).
  assert (Ea2 := lookup_app_l_Some _ [OArtifact a] _ _ Ea).
  assert (Eg2 := get_artifacts_app _ [OArtifact a] _ _ Eg).
  fold h2 in El2, Ea2, Eg2.
  assert (Hx : get_artifact h2 x = Some a).
  { unfold get_artifact, h2, x. rewrite list_lookup_middle by reflexivity.
    reflexivity. }
  pose proof (get_artifacts_snoc h2 x a als _ Eg2 Hx) as Eg'.
  set (h3 := <[al := OArtifacts (als ++ [x])]> h2).
  assert (He3 : evolves lo h1 h3).
  { apply evolves_write; [exact He2 | exact Hal |].
    eapply write_artifacts; eauto. }
  assert (Hr2 : reify h2 fl = Some v)
    by (apply reify_app, reify_alloc_old; exact Hr).
  destruct (reify_write_artifacts h2 al als (als ++ [x]) _ fl v Ea2 Eg' Hr2)
    as (al' & (i & n & hl' & sl' & El') & Hr3).
  assert (al' = al) as -> by congruence.
  rewrite Nat.eqb_refl in Hr3. fold h3 in Hr3.
  destruct (evolves_stringify lo h1 h3 (flows (state w)) He3
              (ex_intro _ j (stringify_alloc_old v _ _ _ Hj))) as [j3 Hj3].
  set (v3 := set_artifacts (Flow.artifacts v ++ [a]) v) in *.
  set (w4 := set_localStorage
               {| fluid_flows_other := None; fluid_flows := Some j3;
                  fluid_active_flow_id := Some (key (activeFlowId (state w))) |}
               (set_state
                  (set_activeArtifactId (Some (Artifact.id a)) (state w1))
                  (set_heap h3 w1))).
  exists w4. split.
  { unfold handleFunctionCall. mred. cbn [name args].
    rewrite (pushUndoState_run w fl v Ht Hg Hr). mred.
    change (("present_artifact" =? "present_artifact")%string) with true.
    mred. wsimpl. rewrite Hg. mred. wsimpl.
    match goal with
    | |- context [heap w1 ++ [OArtifact ?z]] =>
        change (heap w1 ++ [OArtifact z]) with h2
    end.
    rewrite El2. mred. wsimpl. rewrite Ea2. mred. wsimpl.
    change (<[al := OArtifacts (als ++ [length (heap w1)])]> h2) with h3.
    change ("artifact-" +:+ show now) with (Artifact.id a).
    unfold saveFlows. mred. wsimpl.
    change (flows (state w1)) with (flows (state w)). rewrite Hj3.
    change (renderArtifactViewer w4 = (Ok tt, w4)).
    rewrite (renderArtifactViewer_run w4 fl v3 Hg Hr3).
    unfold v3 at 1 2. cbn [Flow.artifacts set_artifacts].
    rewrite last_snoc. unfold w4 at 1 2. wsimpl.
    rewrite existsb_app. cbn [existsb strict_eq]. rewrite String.eqb_refl.
    rewrite orb_true_r. reflexivity. }
  split.
  { unfold call_effect, w4, checkpointed. wsimpl.
    repeat (split; [reflexivity|]). exact He3. }
  split.
  { unfold persisted, w4, checkpointed. wsimpl. rewrite Hj3.
    split; [reflexivity|]. split; [eauto | reflexivity]. }
  split; [exact Hr3|]. split; [reflexivity|]. split; [reflexivity|].
  change (edits fl h1 h3).
  assert (Hxl : al < length h2) by (eapply lookup_lt_Some; eauto).
  assert (Hne : al <> fl) by (intros ->; congruence).
  apply edits_write.
  - apply edits_alloc, edits_refl.
  - unfold footprint. rewrite El2, Ea2. simpl. auto.
  - eapply write_artifacts; eauto.
  - intros y. unfold footprint.
    rewrite (list_lookup_insert_ne h2 al fl _ Hne), El2, Ea2.
    rewrite (list_lookup_insert_eq h2 al _ Hxl).
    cbn [In]. rewrite in_app_iff. cbn [In].
    intros [Hy|[Hy|[Hy|[Hy|[Hy|[Hy|[]]]]]]]; auto 10.
    right. subst y. unfold x. lia.
Qed.

(** Overwriting the first artifact with a given id, as [modify_artifact]
    and the Save button do, up to [saveFlows]. *)
Lemma overwrite_effect artifactId c x a hl sl al als :
  h1 !! fl = Some (OFlow (Flow.id v) (Flow.name v) hl sl al) ->
  h1 !! al = Some (OArtifacts als) ->
  find (fun p : nat * Artifact.t => (Artifact.id (snd p) =? artifactId)%string)
       (combine als (Flow.artifacts v)) = Some (x, a) ->
  exists j2,
    evolves lo h1 (<[x := OArtifact (with_content c a)]> h1)
    /\ stringify_flows (<[x := OArtifact (with_content c a)]> h1)
                       (flows (state w)) = Some j2
    /\ reify (<[x := OArtifact (with_content c a)]> h1) fl
       = Some (set_artifacts
                 (zip_with (fun p b => if (p =? x)%nat
                                       then with_content c a else b)
                           als (Flow.artifacts v)) v)
    /\ edits fl h1 (<[x := OArtifact (with_content c a)]> h1).
Proof.
  destruct live_cells
    as (hl' & sl' & al' & als' & El & Eh & Ea & Eg & Hhl & Hal & Hals).
  intros El' Ea' Hf.
  assert (al' = al) as -> by congruence.
  assert (als' = als) as -> by congruence.
  pose proof (proj1 (find_some _ _ Hf)) as Hin.
  pose proof (get_artifacts_combine _ x a als _ Eg Hin) as Hx.
  assert (Hxlo : x < lo) by (apply Hals; eapply in_combine_l; eauto).
  assert (He : evolves lo h1 (<[x := OArtifact (with_content c a)]> h1)).
  { apply evolves_write; [apply evolves_refl | exact Hxlo |].
    eapply write_artifact; eauto. }
  destruct (evolves_stringify lo h1 _ (flows (state w)) He
              (ex_intro _ j (stringify_alloc_old v _ _ _ Hj))) as [j2 Hj2].
  exists j2. split; [exact He|]. split; [exact Hj2|].
  destruct (reify_write_artifact h1 x a (with_content c a) fl v Hx
              (reify_alloc_old v _ _ _ Hr))
    as (al2 & als2 & (i & n & hl2 & sl2 & El2) & Ea2 & Hr2).
  assert (al2 = al) as -> by congruence.
  assert (als2 = als) as -> by congruence.
  split; [exact Hr2|].
  apply edits_write.
  - apply edits_refl.
  - unfold footprint. rewrite El, Ea. do 4 right.
    eapply in_combine_l; eauto.
  - eapply write_artifact; eauto.
  - intros y Hy. left.
    rewrite (footprint_write_leaf _ _ _ (OArtifact _) _ Hx I I) in Hy. exact Hy.
Qed.

(** [modify_artifact], whether the artifact exists or not. *)
Lemma modify_call_effect now artifactId c :
  exists w',
    handleFunctionCall now
      {| name := "modify_artifact"; args := ModifyArgs artifactId c |} w
    = (Ok tt, w')
    /\ call_effect v w w'
    /\ persisted w'
    /\ edits fl h1 (heap w').
Proof.
  destruct live_cells as (hl & sl & al & als & El & Eh & Ea & Eg & Hhl & Hal & Hals).
  assert (Hread : is_Some (reify h1 fl))
    by (exists v; apply reify_alloc_old; exact Hr).
  assert (Hs1 : is_Some (stringify_flows h1 (flows (state w))))
    by (exists j; apply stringify_alloc_old; exact Hj).
  destruct (find (fun p : nat * Artifact.t =>
                    (Artifact.id (snd p) =? artifactId)%string)
                 (combine als (Flow.artifacts v))) as [[x a]|] eqn:Hf.
  - destruct (overwrite_effect artifactId c x a hl sl al als El Ea Hf)
      as (j2 & He & Hj2 & _ & Hed2).
    set (h2 := <[x := OArtifact (with_content c a)]> h1) in *.
    set (w3 := set_localStorage
                 {| fluid_flows_other := None; fluid_flows := Some j2;
                    fluid_active_flow_id := Some (key (activeFlowId (state w))) |}
                 (set_heap h2 w1)).
    destruct (appendMessage_evolves lo h1 fl _ _ hl sl al El Hhl Hread w3 model
                ("I have updated the artifact: *" +:+ Artifact.title a +:+ "*.")
                None Ht Hg He Hs1)
      as (w' & Hrun & Hst & He' & _ & _ & Hper & _ & Hed).
    exists w'.
    split; [|split; [apply call_effect_state; assumption
                    |split; [exact Hper | apply Hed; exact Hed2]]].
    rewrite <- Hrun.
    unfold handleFunctionCall. mred. cbn [name args].
    rewrite (pushUndoState_run w fl v Ht Hg Hr). mred.
    change (("modify_artifact" =? "present_artifact")%string) with false.
    change (("modify_artifact" =? "create_task_list")%string) with false.
    change (("modify_artifact" =? "modify_artifact")%string) with true.
    mred. rewrite Hg. mred.
    change (heap w1) with h1. rewrite El. mred.
    change (heap w1) with h1. rewrite Ea. mred.
    change (heap w1) with h1. rewrite Eg. mred. rewrite Hf. mred. wsimpl.
    change (heap w1) with h1. fold h2.
    unfold saveFlows. mred. wsimpl.
    change (flows (state w1)) with (flows (state w)). rewrite Hj2.
    reflexivity.
  - destruct (message_call_effect model
                ("Apologies, I could not find an artifact with the ID "
                   +:+ artifactId +:+ ".") None)
      as (w' & Hrun & Hc & Hper & _ & _ & _ & Hed).
    exists w'. split; [|split; [|split]; assumption].
    rewrite <- Hrun.
    unfold handleFunctionCall. mred. cbn [name args].
    rewrite (pushUndoState_run w fl v Ht Hg Hr). mred.
    change (("modify_artifact" =? "present_artifact")%string) with false.
    change (("modify_artifact" =? "create_task_list")%string) with false.
    change (("modify_artifact" =? "modify_artifact")%string) with true.
    mred. rewrite Hg. mred.
    change (heap w1) with h1. rewrite El. mred.
    change (heap w1) with h1. rewrite Ea. mred.
    change (heap w1) with h1. rewrite Eg. mred. rewrite Hf. reflexivity.
Qed.

(** Every call with the arguments its name declares completes with the
    effect of [call_effect], leaving the store serialisable. *)
Lemma handleFunctionCall_effect now fc :
  well_shaped fc = true ->
  exists w',
    handleFunctionCall now fc w = (Ok tt, w') /\ call_effect v w w'.
Proof.
  destruct fc as [nm ar]. unfold well_shaped. cbn [name args]. intros Hw.
  destruct (nm =? "present_artifact")%string eqn:E1.
  { apply String.eqb_eq in E1. subst nm.
    destruct ar; try discriminate.
    destruct (present_call_effect now title type content language)
      as (w' & Hrun & Hc & _).
    eauto. }
  destruct (nm =? "create_task_list")%string eqn:E2.
  { apply String.eqb_eq in E2. subst nm.
    destruct ar; try discriminate.
    destruct (message_call_effect model
                "I have created the following task list for you:" (Some tasks))
      as (w' & Hrun & Hc & _).
    exists w'. split; [|exact Hc]. rewrite <- Hrun.
    unfold handleFunctionCall. mred. cbn [name args].
    rewrite (pushUndoState_run w fl v Ht Hg Hr). reflexivity. }
  destruct (nm =? "modify_artifact")%string eqn:E3.
  { apply String.eqb_eq in E3. subst nm.
    destruct ar; try discriminate.
    destruct (modify_call_effect now artifactId newContent)
      as (w' & Hrun & Hc & _).
    eauto. }
  exists w1. split; [|apply call_effect_checkpointed].
  unfold handleFunctionCall. mred. cbn [name args].
  rewrite (pushUndoState_run w fl v Ht Hg Hr). mred.
  rewrite E1, E2, E3. reflexivity.
Qed.
(** The same, with the writes confined to the cells of the active Flow. *)
Lemma handleFunctionCall_edits now fc :
  well_shaped fc = true ->
  exists w',
    handleFunctionCall now fc w = (Ok tt, w')
    /\ call_effect v w w'
    /\ edits fl h1 (heap w').
Proof.
  destruct fc as [nm ar]. unfold well_shaped. cbn [name args]. intros Hw.
  destruct (nm =? "present_artifact")%string eqn:E1.
  { apply String.eqb_eq in E1. subst nm.
    destruct ar; try discriminate.
    destruct (present_call_effect now title type content language)
      as (w' & Hrun & Hc & _ & _ & _ & _ & Hed).
    eauto. }
  destruct (nm =? "create_task_list")%string eqn:E2.
  { apply String.eqb_eq in E2. subst nm.
    destruct ar; try discriminate.
    destruct (message_call_effect model
                "I have created the following task list for you:" (Some tasks))
      as (w' & Hrun & Hc & _ & _ & _ & _ & Hed).
    exists w'. split; [|split; [exact Hc | exact Hed]]. rewrite <- Hrun.
    unfold handleFunctionCall. mred. cbn [name args].
    rewrite (pushUndoState_run w fl v Ht Hg Hr). reflexivity. }
  destruct (nm =? "modify_artifact")%string eqn:E3.
  { apply String.eqb_eq in E3. subst nm.
    destruct ar; try discriminate.
    destruct (modify_call_effect now artifactId newContent)
      as (w' & Hrun & Hc & _ & Hed).
    eauto. }
  exists w1. split; [|split; [apply call_effect_checkpointed | apply edits_refl]].
  unfold handleFunctionCall. mred. cbn [name args].
  rewrite (pushUndoState_run w fl v Ht Hg Hr). mred.
  rewrite E1, E2, E3. reflexivity.
Qed.
End ToolCalls.

(** X4. Every tool call is undoable, whatever its name.  On a store that
    can be serialised and whose active Flow holds [v], a call with the
    arguments its name declares completes; Undo right after it completes
    too and brings back exactly [v] as the active Flow, with the undo stack
    as it was before the call and the Flow the call had produced as the one
    entry of the redo stack. *)
Theorem tool_call_then_undo now fc w fl v j :
  well_shaped fc = true ->
  truthy (activeFlowId (state w)) = true ->
  prop_get (key (activeFlowId (state w))) (flows (state w)) = Some fl ->
  reify (heap w) fl = Some v ->
  stringify_flows (heap w) (flows (state w)) = Some j ->
  exists w1 w' u r,
    handleFunctionCall now fc w = (Ok tt, w1)
    /\ handleUndo w1 = (Ok tt, w')
    /\ activeFlow w1 = Some u
    /\ activeFlow w' = Some v
    /\ historyStack (state w') = historyStack (state w)
    /\ redoStack (state w') = [r]
    /\ reify (heap w') r = Some u
    /\ persisted w'.
Proof.
  intros Hw Ht Hg Hr Hj.
  destruct (handleFunctionCall_effect w fl v j Ht Hg Hr Hj now fc Hw)
    as (w1 & Hrun & Hfl & Hid & _ & _ & Hhs & Hrs & He).
  pose proof (snapshot_frozen v _ _ He) as Hsnap.
  destruct (evolves_readable _ _ _ fl He
              (ex_intro _ v (reify_alloc_old v _ _ _ Hr))) as [u Hu].
  destruct (evolves_stringify _ _ _ (flows (state w)) He
              (ex_intro _ j (stringify_alloc_old v _ _ _ Hj))) as [j1 Hj1].
  assert (Hg1 : prop_get (key (activeFlowId (state w1))) (flows (state w1))
                = Some fl) by (rewrite Hfl, Hid; exact Hg).
  rewrite <- Hfl in Hj1.
  destruct (handleUndo_run w1 fl u _ _ v j1 Hg1 Hu Hhs Hsnap Hj1)
    as (w' & Hun & Hheap & Hflows & Hid' & Hhs' & Hrs' & Hper).
  exists w1, w', u, (snd (alloc_flow u (heap w1))).
  split; [exact Hrun|]. split; [exact Hun|].
  split; [unfold activeFlow; rewrite Hg1; exact Hu|].
  split.
  { unfold activeFlow. rewrite Hflows, Hid', prop_get_set_eq, Hheap.
    apply reify_alloc_old. exact Hsnap. }
  split; [exact Hhs'|].
  split; [rewrite Hrs', Hrs; reflexivity|].
  split; [rewrite Hheap; apply reify_alloc_flow | exact Hper].
Qed.

Lemma tool_call_then_undo_witness :
  exists w1 w' u r,
    handleFunctionCall 1699903000000%N
      {| name := "modify_artifact"; args := ModifyArgs (Artifact.id planA) "v2" |}
      world2 = (Ok tt, w1)
    /\ handleUndo w1 = (Ok tt, w')
    /\ activeFlow w1 = Some u
    /\ activeFlow w' = Some flowA
    /\ historyStack (state w') = historyStack (state world2)
    /\ redoStack (state w') = [r]
    /\ reify (heap w') r = Some u
    /\ persisted w'.
Proof.
  apply (tool_call_then_undo 1699903000000%N
           {| name := "modify_artifact";
              args := ModifyArgs (Artifact.id planA) "v2" |}
           world2 5 flowA
           [(Flow.id flowA, flowA); (Flow.id flowB, flowB)]);
    reflexivity.
Defined.

(** X5. History is linear: a tool call empties the redo stack, so Redo
    right after a call does nothing, whatever had been undone before. *)
Theorem no_redo_after_tool_call now fc w fl v j :
  well_shaped fc = true ->
  truthy (activeFlowId (state w)) = true ->
  prop_get (key (activeFlowId (state w))) (flows (state w)) = Some fl ->
  reify (heap w) fl = Some v ->
  stringify_flows (heap w) (flows (state w)) = Some j ->
  exists w',
    handleFunctionCall now fc w = (Ok tt, w')
    /\ redoStack (state w') = []
    /\ handleRedo w' = (Ok tt, w').
Proof.
  intros Hw Ht Hg Hr Hj.
  destruct (handleFunctionCall_effect w fl v j Ht Hg Hr Hj now fc Hw)
    as (w' & Hrun & _ & _ & _ & _ & _ & Hrs & _).
  exists w'. split; [exact Hrun|]. split; [exact Hrs|].
  unfold handleRedo. mred. rewrite Hrs. reflexivity.
Qed.

Lemma no_redo_after_tool_call_witness :
  exists w',
    handleFunctionCall 1699903000000%N
      {| name := "create_task_list"; args := TaskListArgs [] |} world2_undone
    = (Ok tt, w')
    /\ redoStack (state w') = []
    /\ handleRedo w' = (Ok tt, w').
Proof.
  apply (no_redo_after_tool_call 1699903000000%N
           {| name := "create_task_list"; args := TaskListArgs [] |}
           world2_undone 5 flowA
           [(Flow.id flowA, flowA); (Flow.id flowB, flowB)]);
    reflexivity.
Defined.

(** ** Submissions *)

Lemma trim_end_empty s : trim_end s = "" -> all_space s = true.
Proof.
  induction s as [|c r IH]; [reflexivity|]. cbn [trim_end all_space].
  destruct (trim_end r); [|discriminate].
  destruct (is_space c); [|discriminate]. intros _. apply IH. reflexivity.
Qed.

Lemma trim_start_space s : all_space (trim_start s) = true -> all_space s = true.
Proof.
  induction s as [|c r IH]; [reflexivity|]. cbn [trim_start].
  destruct (is_space c) eqn:E; [|trivial].
  intros H. cbn [all_space]. rewrite E. apply IH. exact H.
Qed.

Lemma trim_start_blank s : all_space s = true -> trim_start s = "".
Proof.
  induction s as [|c r IH]; [reflexivity|]. cbn [trim_start all_space].
  destruct (is_space c); [exact IH | discriminate].
Qed.

(** [trim] leaves nothing exactly of the strings that are white space
    only. *)
Lemma trim_blank s : trim s = "" <-> all_space s = true.
Proof.
  unfold trim. split.
  - intros H. apply trim_start_space, trim_end_empty. exact H.
  - intros H. rewrite (trim_start_blank s H). reflexivity.
Qed.

Lemma trim_not_blank s : all_space s = false -> trim s <> "".
Proof. intros Hb H. apply trim_blank in H. congruence. Qed.



Section Submission.
Variables (w : World) (fl : nat) (v : Flow.t) (j : list (string * Flow.t)).
Hypothesis Ht : truthy (activeFlowId (state w)) = true.
Hypothesis Hg :
  prop_get (key (activeFlowId (state w))) (flows (state w)) = Some fl.
Hypothesis Hr : reify (heap w) fl = Some v.
Hypothesis Hj : stringify_flows (heap w) (flows (state w)) = Some j.

(** Lines 365-370 in one step. *)
Lemma acceptSubmission_effect t :
  exists w',
    acceptSubmission t w = (Ok tt, loading true w')
    /\ call_effect v w w'
    /\ persisted w'
    /\ reify (heap w') fl = Some (set_history (Flow.history v ++ [msg user t]) v)
    /\ chatHistoryEl w' = chatHistoryEl w ++ [element (msg user t)]
    /\ catalystsHidden w' = true
    /\ edits fl (fst (alloc_flow v (heap w))) (heap w').
Proof.
  destruct (message_call_effect (set_catalystsHidden true w) fl v j Ht Hg Hr Hj
              user t None)
    as (w' & Hrun & Hc & Hper & Hval & Hchat & Hcat & Hed).
  exists w'. split.
  { unfold acceptSubmission. unfold bind at 1.
    rewrite (pushUndoState_run w fl v Ht Hg Hr).
    unfold bind at 1. unfold bind at 1.
    revert Hrun. unfold bind at 1.
    rewrite (pushUndoState_run (set_catalystsHidden true w) fl v Ht Hg Hr).
    intros Hrun.
    change (set_catalystsHidden true (checkpointed v w))
      with (checkpointed v (set_catalystsHidden true w)).
    rewrite Hrun. reflexivity. }
  split; [exact Hc|]. split; [exact Hper|]. split; [exact Hval|].
  split; [exact Hchat|]. split; [exact Hcat | exact Hed].
Qed.
End Submission.

(** X7. When the gateway rejects the request, or there is no chat session
    to send it to, the submission still completes: the user Message stays
    in the active Flow, followed by exactly one apology of the model; the
    loading flag is lowered again; the one checkpoint of the submission
    holds the Flow as it was before, and the store is persisted. *)
Theorem submit_gateway_failure input reply w fl v j :
  reply = Rejected \/ aiChat (state w) = None ->
  isLoading (state w) = false ->
  all_space input = false ->
  truthy (activeFlowId (state w)) = true ->
  prop_get (key (activeFlowId (state w))) (flows (state w)) = Some fl ->
  reify (heap w) fl = Some v ->
  stringify_flows (heap w) (flows (state w)) = Some j ->
  exists w' c,
    handleFormSubmit input reply w = (Ok tt, w')
    /\ activeFlow w'
       = Some (set_history
                 (Flow.history v
                    ++ [msg user (trim input);
                        msg model
                          "apologies sprite*. an error occurred. please try again."])
                 v)
    /\ isLoading (state w') = false
    /\ historyStack (state w') = historyStack (state w) ++ [c]
    /\ reify (heap w') c = Some v
    /\ redoStack (state w') = []
    /\ persisted w'.
Proof.
  intros Hfail Hl Hb Ht Hg Hr Hj.
  destruct (acceptSubmission_effect w fl v j Ht Hg Hr Hj (trim input))
    as (w1 & Hacc & (Hfl & Hid & _ & Hai & Hhs & Hrs & He) & _ & Hval & _).
  destruct (live_cells w fl v Hr)
    as (hl & sl & al & als & El & Eh & Ea & Eg & Hhl & Hal & Hals).
  assert (Ht1 : truthy (activeFlowId (state (loading true w1))) = true)
    by (cbn; rewrite Hid; exact Ht).
  assert (Hg1 : prop_get (key (activeFlowId (state (loading true w1))))
                         (flows (state (loading true w1))) = Some fl)
    by (cbn; rewrite Hid, Hfl; exact Hg).
  assert (Hs1 : is_Some (stringify_flows (fst (alloc_flow v (heap w)))
                           (flows (state (loading true w1)))))
    by (cbn; rewrite Hfl; exists j; apply stringify_alloc_old; exact Hj).
  destruct (appendMessage_evolves _ _ fl _ _ hl sl al El Hhl
              (ex_intro _ v (reify_alloc_old v _ _ _ Hr))
              (loading true w1) model
              "apologies sprite*. an error occurred. please try again." None
              Ht1 Hg1 He Hs1)
    as (w2 & Hrun & Hst & He2 & _ & _ & Hper & Hval2 & _).
  exists (loading false w2), (snd (alloc_flow v (heap w))).
  split.
  { rewrite (handleFormSubmit_accept input reply w Hl (trim_not_blank _ Hb)).
    unfold bind. rewrite Hacc.
    unfold awaitReply, try_finally, try_catch. mred.
    change (aiChat (state (loading true w1))) with (aiChat (state w1)).
    rewrite Hai.
    destruct Hfail as [-> | ->];
      [destruct (aiChat (state w))|]; mred; rewrite Hrun; reflexivity. }
  split.
  { unfold activeFlow. cbn. rewrite Hst. cbn. rewrite Hid, Hfl, Hg.
    rewrite (Hval2 _ Hval). unfold set_history. cbn [Flow.history Flow.id
      Flow.name Flow.snapshots Flow.artifacts]. rewrite <- app_assoc.
    reflexivity. }
  split; [reflexivity|].
  split; [cbn; rewrite Hst; cbn; exact Hhs|].
  split; [apply snapshot_frozen; exact He2|].
  split; [cbn; rewrite Hst; cbn; exact Hrs | exact Hper].
Qed.

Lemma submit_gateway_failure_witness :
  exists w' c,
    handleFormSubmit " add a step " Rejected world1 = (Ok tt, w')
    /\ activeFlow w'
       = Some (set_history
                 (Flow.history flowA
                    ++ [msg user "add a step";
                        msg model
                          "apologies sprite*. an error occurred. please try again."])
                 flowA)
    /\ isLoading (state w') = false
    /\ historyStack (state w') = historyStack (state world1) ++ [c]
    /\ reify (heap w') c = Some flowA
    /\ redoStack (state w') = []
    /\ persisted w'.
Proof.
  apply (submit_gateway_failure " add a step " Rejected world1 5 flowA
           [(Flow.id flowA, flowA)]); [left|..]; reflexivity.
Defined.

(** ** Whole turns *)

Lemma appendMessage_serviceable r t ex fl w :
  serviceable fl w ->
  exists w',
    appendMessage r t ex w = (Ok tt, w')
    /\ state w' = state w
    /\ serviceable fl w'.
Proof.
  intros (Ht & Hg & [v Hr] & [j Hj]).
  destruct (appendMessage_run w r t ex fl v j Ht Hg Hr Hj)
    as (w' & hl & Hrun & Hst & _ & _ & Hval & (Hper1 & Hper2 & _) & _).
  exists w'. split; [exact Hrun|]. split; [exact Hst|].
  unfold serviceable. rewrite Hst.
  split; [exact Ht|]. split; [exact Hg|]. split; [eauto|].
  rewrite <- Hst, <- Hper1. exact Hper2.
Qed.

Lemma handleFunctionCall_serviceable now fc fl w :
  well_shaped fc = true ->
  serviceable fl w ->
  exists w' c,
    handleFunctionCall now fc w = (Ok tt, w')
    /\ serviceable fl w'
    /\ isLoading (state w') = isLoading (state w)
    /\ aiChat (state w') = aiChat (state w)
    /\ historyStack (state w') = historyStack (state w) ++ [c]
    /\ redoStack (state w') = [].
Proof.
  intros Hw (Ht & Hg & [v Hr] & [j Hj]).
  destruct (handleFunctionCall_effect w fl v j Ht Hg Hr Hj now fc Hw)
    as (w' & Hrun & Hfl & Hid & Hl & Hai & Hhs & Hrs & He).
  exists w', (snd (alloc_flow v (heap w))).
  split; [exact Hrun|]. split.
  { unfold serviceable. rewrite Hfl, Hid.
    split; [exact Ht|]. split; [exact Hg|]. split.
    - eapply evolves_readable; [exact He|].
      exists v. apply reify_alloc_old. exact Hr.
    - eapply evolves_stringify; [exact He|].
      exists j. apply stringify_alloc_old. exact Hj. }
  repeat (split; [assumption|]). assumption.
Qed.

(** The calls of one response, dispatched in order. *)
Lemma calls_run fl (calls : list (N * FunctionCall)) :
  Forall (fun c => well_shaped (snd c) = true) calls ->
  forall w,
    serviceable fl w ->
    exists w' cs,
      forM (fun c => handleFunctionCall (fst c) (snd c)) calls w = (Ok tt, w')
      /\ serviceable fl w'
      /\ isLoading (state w') = isLoading (state w)
      /\ historyStack (state w') = historyStack (state w) ++ cs
      /\ length cs = length calls
      /\ redoStack (state w')
         = match calls with [] => redoStack (state w) | _ => [] end.
Proof.
  induction 1 as [|[now fc] calls Hw _ IH]; intros w Hs.
  - exists w, []. rewrite app_nil_r. repeat (split; [trivial|]). reflexivity.
  - destruct (handleFunctionCall_serviceable now fc fl w Hw Hs)
      as (w1 & c & Hrun & Hs1 & Hl & _ & Hhs & Hrs).
    destruct (IH w1 Hs1) as (w' & cs & Hrun' & Hs' & Hl' & Hhs' & Hlen & Hrs').
    exists w', (c :: cs). split.
    { cbn [forM]. unfold bind. cbn [fst snd]. rewrite Hrun. exact Hrun'. }
    split; [exact Hs'|]. split; [congruence|].
    split; [rewrite Hhs', Hhs, <- app_assoc; reflexivity|].
    split; [cbn; congruence|].
    rewrite Hrs'. destruct calls; [exact Hrs | reflexivity].
Qed.

(** X8. A turn never gets stuck half way.  A submission that is accepted,
    in a session with a chat and a readable active Flow, and answered by
    any text and any list of tool calls with the arguments their names
    declare, completes; the loading flag is lowered again; the undo stack
    has grown by one checkpoint for the submission plus one per tool call;
    the redo stack is empty, and the active Flow can still be read and the
    store serialised. *)
Theorem submit_completes input text calls w fl v j ch :
  isLoading (state w) = false ->
  all_space input = false ->
  aiChat (state w) = Some ch ->
  truthy (activeFlowId (state w)) = true ->
  prop_get (key (activeFlowId (state w))) (flows (state w)) = Some fl ->
  reify (heap w) fl = Some v ->
  stringify_flows (heap w) (flows (state w)) = Some j ->
  Forall (fun c => well_shaped (snd c) = true) calls ->
  exists w' cs,
    handleFormSubmit input (Response text calls) w = (Ok tt, w')
    /\ serviceable fl w'
    /\ isLoading (state w') = false
    /\ historyStack (state w')
       = historyStack (state w) ++ snd (alloc_flow v (heap w)) :: cs
    /\ length cs = length calls
    /\ redoStack (state w') = [].
Proof.
  intros Hl Hb Hch Ht Hg Hr Hj Hcalls.
  destruct (acceptSubmission_effect w fl v j Ht Hg Hr Hj (trim input))
    as (w1 & Hacc & (Hfl & Hid & _ & Hai & Hhs & Hrs & He) & (Hp1 & Hp2 & _)
        & Hval & _).
  assert (Hs1 : serviceable fl (loading true w1)).
  { unfold serviceable. cbn. rewrite Hfl, Hid.
    split; [exact Ht|]. split; [exact Hg|]. split; [eauto|].
    rewrite <- Hfl, <- Hp1. exact Hp2. }
  assert (exists w2,
             (match text with
              | Some t => if truthy (Some t) then appendMessage model t None
                          else ret tt
              | None => ret tt
              end) (loading true w1) = (Ok tt, w2)
             /\ state w2 = state (loading true w1)
             /\ serviceable fl w2) as (w2 & Htext & Hst2 & Hs2).
  { destruct text as [t|]; [|exists (loading true w1); auto].
    destruct (truthy (Some t)); [|exists (loading true w1); auto].
    apply appendMessage_serviceable. exact Hs1. }
  destruct (calls_run fl calls Hcalls w2 Hs2)
    as (w3 & cs & Hrun & Hs3 & _ & Hhs3 & Hlen & Hrs3).
  exists (loading false w3), cs. split.
  { rewrite (handleFormSubmit_accept input (Response text calls) w Hl
               (trim_not_blank _ Hb)).
    unfold bind at 1. rewrite Hacc.
    unfold awaitReply, try_finally, try_catch. unfold bind at 1, get.
    change (aiChat (state (loading true w1))) with (aiChat (state w1)).
    rewrite Hai, Hch. unfold bind at 1. rewrite Htext, Hrun. reflexivity. }
  split; [exact Hs3|]. split; [reflexivity|].
  split.
  { cbn. rewrite Hhs3, Hst2. cbn. rewrite Hhs, <- app_assoc. reflexivity. }
  split; [exact Hlen|].
  cbn. rewrite Hrs3, Hst2. cbn. rewrite Hrs. destruct calls; reflexivity.
Qed.

Lemma submit_completes_witness :
  exists w' cs,
    handleFormSubmit "revise the plan"
      (Response (Some "Done.")
         [(1699903000000%N,
           {| name := "modify_artifact";
              args := ModifyArgs (Artifact.id planA) "step one, step two" |});
          (1699903000001%N,
           {| name := "present_artifact";
              args := PresentArgs "Notes" "document" "n" None |})])
      world1 = (Ok tt, w')
    /\ serviceable 5 w'
    /\ isLoading (state w') = false
    /\ historyStack (state w')
       = historyStack (state world1)
           ++ snd (alloc_flow flowA (heap world1)) :: cs
    /\ length cs = 2
    /\ redoStack (state w') = [].
Proof.
  apply (submit_completes "revise the plan" (Some "Done.")
           [(1699903000000%N,
             {| name := "modify_artifact";
                args := ModifyArgs (Artifact.id planA) "step one, step two" |});
            (1699903000001%N,
             {| name := "present_artifact";
                args := PresentArgs "Notes" "document" "n" None |})]
           world1 5 flowA [(Flow.id flowA, flowA)] (Flow.history flowA));
    try reflexivity.
  repeat constructor.
Defined.

(** ** Editing an artifact by hand *)

(** X9. Saving a manual edit of an artifact of the active Flow takes one
    checkpoint, holding the Flow as it was, empties the redo stack, gives
    the first artifact with that id the edited text with the white space
    around it removed as its content, its id, title, type and language
    staying, leaves every other artifact, the history and the chat pane
    alone, and persists the store. *)
Theorem manual_edit_saved artifactId text w fl v j a :
  truthy (activeFlowId (state w)) = true ->
  prop_get (key (activeFlowId (state w))) (flows (state w)) = Some fl ->
  reify (heap w) fl = Some v ->
  stringify_flows (heap w) (flows (state w)) = Some j ->
  NoDup (footprint (heap w) fl) ->
  find (fun b => (Artifact.id b =? artifactId)%string) (Flow.artifacts v)
  = Some a ->
  exists w' c,
    saveBtn_onclick artifactId (Some text) w = (Ok tt, w')
    /\ activeFlow w'
       = Some (set_artifacts
                 (modify_first artifactId (trim text) (Flow.artifacts v)) v)
    /\ (exists pre post,
          Flow.artifacts v = pre ++ a :: post
          /\ Forall (fun b => Artifact.id b <> artifactId) pre
          /\ activeFlow w'
             = Some {| Flow.id := Flow.id v; Flow.name := Flow.name v;
                       Flow.history := Flow.history v;
                       Flow.snapshots := Flow.snapshots v;
                       Flow.artifacts :=
                         pre ++ {| Artifact.id := Artifact.id a;
                                   Artifact.title := Artifact.title a;
                                   Artifact.type := Artifact.type a;
                                   Artifact.content := trim text;
                                   Artifact.language := Artifact.language a |}
                             :: post |})
    /\ historyStack (state w') = historyStack (state w) ++ [c]
    /\ reify (heap w') c = Some v
    /\ redoStack (state w') = []
    /\ chatHistoryEl w' = chatHistoryEl w
    /\ persisted w'.
Proof.
  intros Ht Hg Hr Hj Hnd Hfind.
  destruct (reify_inv _ _ _ Hr)
    as (hl0 & sl0 & al0 & als0 & El0 & Eh0 & Es0 & Ea0 & Eg0).
  assert (Hnd' : NoDup als0).
  { unfold footprint in Hnd. rewrite El0, Ea0 in Hnd.
    do 4 apply NoDup_cons in Hnd as [_ Hnd]. exact Hnd. }
  destruct (live_cells w fl v Hr)
    as (hl & sl & al & als & El & Eh & Ea & Eg & Hhl & Hal & Hals).
  destruct (alloc_flow_extends v (heap w)) as [ext Hext].
  assert (al0 = al) as ->.
  { pose proof (lookup_app_l_Some _ ext _ _ El0) as H.
    rewrite <- Hext in H. congruence. }
  assert (als0 = als) as ->.
  { pose proof (lookup_app_l_Some _ ext _ _ Ea0) as H.
    rewrite <- Hext in H. congruence. }
  clear ext Hext.
  pose proof (get_artifacts_length _ _ _ Eg) as Hlen.
  destruct (find_combine_some artifactId a als _ Hlen Hfind) as [x Hfc].
  destruct (find_combine_first artifactId (trim text) x a als _ Hlen Hnd' Hfc)
    as (_ & _ & Hzip).
  destruct (overwrite_effect w fl v j Hr Hj artifactId (trim text) x a
              hl sl al als El Ea Hfc) as (j2 & He & Hj2 & Hr2 & _).
  rewrite Hzip in Hr2.
  set (h2 := <[x := OArtifact (with_content (trim text) a)]>
               (fst (alloc_flow v (heap w)))) in *.
  exists (set_localStorage
            {| fluid_flows_other := None; fluid_flows := Some j2;
               fluid_active_flow_id := Some (key (activeFlowId (state w))) |}
            (set_heap h2 (checkpointed v w))),
         (snd (alloc_flow v (heap w))).
  split.
  { unfold saveBtn_onclick. unfold bind at 1.
    rewrite (pushUndoState_run w fl v Ht Hg Hr). mred.
    change (prop_get (key (activeFlowId (state (checkpointed v w))))
                     (flows (state (checkpointed v w))))
      with (prop_get (key (activeFlowId (state w))) (flows (state w))).
    rewrite Hg. mred.
    change (heap (checkpointed v w)) with (fst (alloc_flow v (heap w))).
    rewrite El. mred.
    change (heap (checkpointed v w)) with (fst (alloc_flow v (heap w))).
    rewrite Ea. mred.
    change (heap (checkpointed v w)) with (fst (alloc_flow v (heap w))).
    rewrite Eg. mred. rewrite Hfc. mred. wsimpl.
    change (heap (checkpointed v w)) with (fst (alloc_flow v (heap w))).
    fold h2. unfold saveFlows. mred. wsimpl.
    change (flows (state (checkpointed v w))) with (flows (state w)).
    rewrite Hj2. reflexivity. }
  assert (Hact : activeFlow
                   (set_localStorage
                      {| fluid_flows_other := None; fluid_flows := Some j2;
                         fluid_active_flow_id :=
                           Some (key (activeFlowId (state w))) |}
                      (set_heap h2 (checkpointed v w)))
                 = Some (set_artifacts
                           (modify_first artifactId (trim text)
                                         (Flow.artifacts v)) v))
    by (unfold activeFlow; cbn; rewrite Hg; exact Hr2).
  split; [exact Hact|].
  split.
  { destruct (modify_first_split artifactId (trim text) a _ Hfind)
      as (pre & post & E1 & E2 & E3).
    exists pre, post. split; [exact E1|]. split; [exact E2|].
    rewrite Hact, E3. reflexivity. }
  split; [reflexivity|].
  split; [apply snapshot_frozen; exact He|].
  split; [reflexivity|]. split; [reflexivity|].
  unfold persisted. cbn. rewrite Hj2. split; [reflexivity|].
  split; [eauto | reflexivity].
Qed.

Lemma manual_edit_saved_witness :
  exists w' c,
    saveBtn_onclick (Artifact.id planA) (Some "  step one, revised  ") world2
    = (Ok tt, w')
    /\ activeFlow w'
       = Some {| Flow.id := "flow-1"; Flow.name := Flow.name flowA;
                 Flow.history := Flow.history flowA;
                 Flow.snapshots := Flow.snapshots flowA;
                 Flow.artifacts :=
                   [ {| Artifact.id := "artifact-1699902888812";
                        Artifact.title := "Plan"; Artifact.type := "plan";
                        Artifact.content := "step one, revised";
                        Artifact.language := None |};
                     scriptA ] |}
    /\ historyStack (state w') = historyStack (state world2) ++ [c]
    /\ reify (heap w') c = Some flowA
    /\ redoStack (state w') = []
    /\ chatHistoryEl w' = chatHistoryEl world2
    /\ persisted w'.
Proof.
  assert (Hnd : NoDup (footprint (heap world2) 5)) by compute_done.
  destruct (manual_edit_saved (Artifact.id planA) "  step one, revised  "
              world2 5 flowA [(Flow.id flowA, flowA); (Flow.id flowB, flowB)]
              planA)
    as (w' & c & H1 & H2 & _ & H3); try reflexivity; [exact Hnd|].
  exists w', c. split; [exact H1|]. split; [exact H2|]. exact H3.
Defined.

(** ** Managing flows *)

(** X10. Renaming a flow gives it the answer of the prompt with the white
    space around it removed and persists the store; every other flow, and
    every other field of the renamed one, stays as it was.  The checkpoint
    taken first is one of the active Flow, whichever flow is renamed. *)
Theorem renameFlow_renames id newName w fl v j fl2 :
  truthy (activeFlowId (state w)) = true ->
  prop_get (key (activeFlowId (state w))) (flows (state w)) = Some fl ->
  reify (heap w) fl = Some v ->
  stringify_flows (heap w) (flows (state w)) = Some j ->
  prop_get id (flows (state w)) = Some fl2 ->
  all_space newName = false ->
  exists w' c,
    renameFlow id (Some newName) w = (Ok tt, w')
    /\ flows (state w') = flows (state w)
    /\ activeFlowId (state w') = activeFlowId (state w)
    /\ (forall l x,
          reify (heap w) l = Some x ->
          reify (heap w') l
          = Some (if (l =? fl2)%nat then set_name (trim newName) x else x))
    /\ historyStack (state w') = historyStack (state w) ++ [c]
    /\ reify (heap w') c = Some v
    /\ redoStack (state w') = []
    /\ persisted w'.
Proof.
  intros Ht Hg Hr Hj Hid Hb.
  destruct (stringify_flows_lookup _ _ _ _ _ Hj Hid) as [u Hu].
  destruct (reify_inv _ _ _ Hu) as (hl & sl & al & als & El & _).
  assert (Hlo : fl2 < length (heap w)) by (eapply lookup_lt_Some; eauto).
  set (h1 := fst (alloc_flow v (heap w))).
  assert (El1 : h1 !! fl2 = Some (OFlow (Flow.id u) (Flow.name u) hl sl al)).
  { unfold h1. destruct (alloc_flow_extends v (heap w)) as [ext ->].
    apply lookup_app_l_Some. exact El. }
  set (h2 := <[fl2 := OFlow (Flow.id u) (trim newName) hl sl al]> h1).
  assert (He : evolves (length (heap w)) h1 h2).
  { apply evolves_write; [apply evolves_refl | exact Hlo |].
    eapply write_name. exact El1. }
  destruct (evolves_stringify _ h1 h2 (flows (state w)) He
              (ex_intro _ j (stringify_alloc_old v _ _ _ Hj))) as [j2 Hj2].
  assert (Htr : (trim newName =? "")%string = false).
  { apply String.eqb_neq. intros H. apply trim_blank in H. congruence. }
  exists (set_localStorage
            {| fluid_flows_other := None; fluid_flows := Some j2;
               fluid_active_flow_id := Some (key (activeFlowId (state w))) |}
            (set_heap h2 (checkpointed v w))),
         (snd (alloc_flow v (heap w))).
  split.
  { unfold renameFlow. unfold bind at 1.
    rewrite (pushUndoState_run w fl v Ht Hg Hr). mred.
    change (flows (state (checkpointed v w))) with (flows (state w)).
    rewrite Hid.
    destruct newName as [|c0 r0]; [discriminate|].
    change (truthy (Some (String c0 r0))) with true.
    rewrite Htr. mred.
    change (heap (checkpointed v w)) with h1. rewrite El1. mred. wsimpl.
    change (heap (checkpointed v w)) with h1. fold h2.
    unfold saveFlows. mred. wsimpl.
    change (flows (state (checkpointed v w))) with (flows (state w)).
    rewrite Hj2. reflexivity. }
  split; [reflexivity|]. split; [reflexivity|].
  split.
  { intros l x Hx. cbn. unfold h2.
    apply (reify_write_name h1 fl2 _ _ _ hl sl al l x El1).
    apply reify_alloc_old. exact Hx. }
  split; [reflexivity|].
  split; [apply snapshot_frozen; exact He|].
  split; [reflexivity|].
  unfold persisted. cbn. rewrite Hj2. split; [reflexivity|].
  split; [eauto | reflexivity].
Qed.

Lemma renameFlow_renames_witness :
  exists w' c,
    renameFlow "flow-2" (Some " Drafts ") world2 = (Ok tt, w')
    /\ flows (state w') = flows (state world2)
    /\ activeFlowId (state w') = activeFlowId (state world2)
    /\ (forall l x,
          reify (heap world2) l = Some x ->
          reify (heap w') l
          = Some (if (l =? 9)%nat then set_name "Drafts" x else x))
    /\ historyStack (state w') = historyStack (state world2) ++ [c]
    /\ reify (heap w') c = Some flowA
    /\ redoStack (state w') = []
    /\ persisted w'.
Proof.
  apply (renameFlow_renames "flow-2" " Drafts " world2 5 flowA
           [(Flow.id flowA, flowA); (Flow.id flowB, flowB)] 9);
    reflexivity.
Defined.

(** X11. A rename that is cancelled, or answered with nothing but white
    space, still takes the checkpoint: the flows keep their names, but the
    undo stack gets a copy of the active Flow and the redo stack is
    emptied; nothing is persisted. *)
Theorem renameFlow_cancelled id answer w fl v fl2 :
  truthy (activeFlowId (state w)) = true ->
  prop_get (key (activeFlowId (state w))) (flows (state w)) = Some fl ->
  reify (heap w) fl = Some v ->
  prop_get id (flows (state w)) = Some fl2 ->
  match answer with Some newName => all_space newName = true | None => True end ->
  renameFlow id answer w = (Ok tt, checkpointed v w)
  /\ localStorage (checkpointed v w) = localStorage w
  /\ redoStack (state (checkpointed v w)) = []
  /\ forall l x, reify (heap w) l = Some x ->
                 reify (heap (checkpointed v w)) l = Some x.
Proof.
  intros Ht Hg Hr Hid Ha. split.
  - unfold renameFlow. unfold bind at 1.
    rewrite (pushUndoState_run w fl v Ht Hg Hr). mred.
    change (flows (state (checkpointed v w))) with (flows (state w)).
    rewrite Hid. destruct answer as [newName|]; [|reflexivity].
    apply trim_blank in Ha. rewrite Ha.
    destruct (truthy (Some newName)); reflexivity.
  - split; [reflexivity|]. split; [reflexivity|].
    intros l x Hx. apply reify_alloc_old. exact Hx.
Qed.

Lemma renameFlow_cancelled_witness :
  renameFlow "flow-2" (Some "  ") world2_undone
  = (Ok tt, checkpointed flowA world2_undone)
  /\ localStorage (checkpointed flowA world2_undone) = localStorage world2_undone
  /\ redoStack (state (checkpointed flowA world2_undone)) = []
  /\ forall l x, reify (heap world2_undone) l = Some x ->
                 reify (heap (checkpointed flowA world2_undone)) l = Some x.
Proof.
  apply (renameFlow_cancelled "flow-2" (Some "  ") world2_undone 5 flowA 9);
    reflexivity.
Defined.

(** X12. Creating a flow, when no flow has the id made of the clock
    reading: the new flow comes last, is named "New Flow n" with n one more
    than the number of flows there were, has no message, snapshot or
    artifact, and is active; every flow there was stays as it was; the
    store is persisted.  Both stacks end up empty: the checkpoint that
    [createNewFlow] takes first is dropped again by the initialisation of
    the chat, so a creation cannot be undone. *)
Theorem createNewFlow_fresh now w fl v j :
  truthy (activeFlowId (state w)) = true ->
  prop_get (key (activeFlowId (state w))) (flows (state w)) = Some fl ->
  reify (heap w) fl = Some v ->
  stringify_flows (heap w) (flows (state w)) = Some j ->
  prop_get ("flow-" +:+ show now) (flows (state w)) = None ->
  exists w' nfl,
    createNewFlow now w = (Ok tt, w')
    /\ flows (state w') = flows (state w) ++ [("flow-" +:+ show now, nfl)]
    /\ activeFlowId (state w') = Some ("flow-" +:+ show now)
    /\ activeFlow w'
       = Some {| Flow.id := "flow-" +:+ show now;
                 Flow.name :=
                   "New Flow "
                     +:+ show (N.of_nat (length (Object_keys (flows (state w))) + 1));
                 Flow.history := []; Flow.snapshots := [];
                 Flow.artifacts := [] |}
    /\ (forall l x, reify (heap w) l = Some x -> reify (heap w') l = Some x)
    /\ historyStack (state w') = []
    /\ redoStack (state w') = []
    /\ persisted w'.
Proof.
  intros Ht Hg Hr Hj Hnew.
  set (id := "flow-" +:+ show now) in *.
  set (nm := "New Flow "
               +:+ show (N.of_nat (length (Object_keys (flows (state w))) + 1))).
  set (h1 := fst (alloc_flow v (heap w))).
  set (nfl := length h1 + 3).
  set (h5 := h1 ++ [OMessages []; OSnapshots []; OArtifacts [];
                    OFlow id nm (length h1) (length h1 + 1) (length h1 + 2)]).
  set (nf := {| Flow.id := id; Flow.name := nm; Flow.history := [];
                Flow.snapshots := []; Flow.artifacts := [] |}).
  assert (Hnf : reify h5 nfl = Some nf) by apply (reify_empty_flow h1 id nm).
  assert (Hj5 : stringify_flows h5 (flows (state w) ++ [(id, nfl)])
                = Some (j ++ [(id, nf)])).
  { apply stringify_flows_snoc; [|exact Hnf].
    apply stringify_flows_app, stringify_alloc_old. exact Hj. }
  set (w3 := set_localStorage
               {| fluid_flows_other := None;
                  fluid_flows := Some (j ++ [(id, nf)]);
                  fluid_active_flow_id := Some id |}
               (set_state
                  (set_activeFlowId (Some id)
                     (set_flows (flows (state w) ++ [(id, nfl)])
                        (state (checkpointed v w))))
                  (set_heap h5 (checkpointed v w)))).
  destruct (detach_initializeChat false w3)
    as (w' & Hd & V1 & V2 & V3 & V4 & V5 & V6).
  { apply (stringify_active_readable w3 _ Hj5). }
  exists w', nfl. split.
  { unfold createNewFlow. unfold bind at 1.
    rewrite (pushUndoState_run w fl v Ht Hg Hr). mred. wsimpl.
    change (heap (checkpointed v w)) with h1.
    change (flows (state (checkpointed v w))) with (flows (state w)).
    fold id nm.
    rewrite (prop_set_new id _ _ (proj1 (prop_get_None _ _) Hnew)).
    rewrite !length_app. cbn [length].
    replace (length h1 + 1 + 1 + 1) with nfl by (unfold nfl; lia).
    replace (length h1 + 1 + 1) with (length h1 + 2) by lia.
    rewrite <- !app_assoc. cbn [app]. fold h5.
    unfold saveFlows. mred. wsimpl. rewrite Hj5. exact Hd. }
  unfold reset_stacks, w3 in V1, V2, V3, V4, V5, V6. wsimpl.
  split; [exact V2|]. split; [exact V3|].
  split.
  { unfold activeFlow. rewrite V1, V2, V3. cbn [key].
    rewrite <- (prop_set_new id nfl _ (proj1 (prop_get_None _ _) Hnew)).
    rewrite prop_get_set_eq. exact Hnf. }
  split.
  { intros l x Hx. rewrite V1. apply reify_app, reify_alloc_old. exact Hx. }
  split; [exact V4|]. split; [exact V5|].
  unfold persisted. rewrite V1, V2, V3, V6. rewrite Hj5.
  split; [reflexivity|]. split; [cbn; eauto | reflexivity].
Qed.

Lemma createNewFlow_fresh_witness :
  exists w' nfl,
    createNewFlow 1699903000000 world2 = (Ok tt, w')
    /\ flows (state w') = flows (state world2) ++ [("flow-1699903000000", nfl)]
    /\ activeFlowId (state w') = Some "flow-1699903000000"
    /\ activeFlow w'
       = Some {| Flow.id := "flow-1699903000000"; Flow.name := "New Flow 3";
                 Flow.history := []; Flow.snapshots := [];
                 Flow.artifacts := [] |}
    /\ (forall l x, reify (heap world2) l = Some x -> reify (heap w') l = Some x)
    /\ historyStack (state w') = []
    /\ redoStack (state w') = []
    /\ persisted w'.
Proof.
  apply (createNewFlow_fresh 1699903000000 world2 5 flowA
           [(Flow.id flowA, flowA); (Flow.id flowB, flowB)]);
    reflexivity.
Defined.

(** ** What the chat pane shows *)

Lemma renderArtifactViewer_chat w r w' :
  renderArtifactViewer w = (r, w') -> chatHistoryEl w' = chatHistoryEl w.
Proof.
  unfold renderArtifactViewer. mred. intros H.
  run_cases H; injection H as <- <-; reflexivity.
Qed.

(** X13. A task list is shown once and not kept.  A [create_task_list]
    call puts the tasks in the chat pane, attached to its notice, but
    stores only the text of the notice in the Flow; when the chat is
    initialised again (by Undo, Redo, a switch of flows or a reload) the
    pane is rebuilt from the Flow and every Message in it, the notice
    included, comes without attachment. *)
Theorem task_list_shown_once now tasks softRefresh w fl v j :
  truthy (activeFlowId (state w)) = true ->
  prop_get (key (activeFlowId (state w))) (flows (state w)) = Some fl ->
  reify (heap w) fl = Some v ->
  stringify_flows (heap w) (flows (state w)) = Some j ->
  forallb has_text (Flow.history v) = true ->
  let notice := msg model "I have created the following task list for you:" in
  exists w1 r w2,
    handleFunctionCall now
      {| name := "create_task_list"; args := TaskListArgs tasks |} w
    = (Ok tt, w1)
    /\ chatHistoryEl w1
       = chatHistoryEl w ++ [ {| shown := notice; extra := Some tasks |} ]
    /\ activeFlow w1 = Some (set_history (Flow.history v ++ [notice]) v)
    /\ initializeChat softRefresh w1 = (r, w2)
    /\ chatHistoryEl w2 = map element (Flow.history v ++ [notice])
    /\ Forall (fun e => extra e = None) (chatHistoryEl w2).
Proof.
  intros Ht Hg Hr Hj Hft notice.
  destruct (message_call_effect w fl v j Ht Hg Hr Hj model
              "I have created the following task list for you:" (Some tasks))
    as (w1 & Hrun & (Hfl & Hid & _) & _ & Hval & Hchat & _).
  fold notice in Hval, Hchat.
  assert (Hg1 : prop_get (key (activeFlowId (state w1))) (flows (state w1))
                = Some fl) by (rewrite Hfl, Hid; exact Hg).
  assert (Hft1 : forallb has_text (Flow.history v ++ [notice]) = true)
    by (rewrite forallb_app, Hft; reflexivity).
  pose proof (initializeChat_run softRefresh w1 fl _ Hg1 Hval Hft1) as Hinit.
  set (v1 := set_history (Flow.history v ++ [notice]) v) in *.
  destruct (initializeChat softRefresh w1) as [r w2] eqn:E.
  exists w1, r, w2.
  assert (Hpane : chatHistoryEl w2 = map element (Flow.history v ++ [notice])).
  { unfold bind in Hinit.
    destruct (renderArtifactViewer (initialized softRefresh v1 w1))
      as [r0 w3] eqn:E3.
    apply renderArtifactViewer_chat in E3.
    assert (Hc : chatHistoryEl w2 = chatHistoryEl w3)
      by (destruct r0 as [[]| |]; injection Hinit as _ ->; reflexivity).
    rewrite Hc, E3. unfold initialized. cbn [chatHistoryEl set_state
      set_catalystsHidden set_chatHistoryEl].
    unfold v1 at 1. cbn [Flow.history set_history].
    rewrite length_app. cbn [length].
    replace (length (Flow.history v) + 1) with (S (length (Flow.history v)))
      by lia.
    reflexivity. }
  split.
  { rewrite <- Hrun. unfold handleFunctionCall. mred. cbn [name args].
    rewrite (pushUndoState_run w fl v Ht Hg Hr). reflexivity. }
  split; [exact Hchat|].
  split; [unfold activeFlow; rewrite Hg1; exact Hval|].
  split; [exact E|]. split; [exact Hpane|].
  rewrite Hpane. apply List.Forall_forall. intros e He.
  apply in_map_iff in He as (m & <- & _). reflexivity.
Qed.

Lemma task_list_shown_once_witness :
  let notice := msg model "I have created the following task list for you:" in
  exists w1 r w2,
    handleFunctionCall 1699903000000
      {| name := "create_task_list";
         args := TaskListArgs [ {| task_title := "Draft"; priority := "High" |} ] |}
      world1
    = (Ok tt, w1)
    /\ chatHistoryEl w1
       = chatHistoryEl world1
           ++ [ {| shown := notice;
                   extra := Some [ {| task_title := "Draft";
                                      priority := "High" |} ] |} ]
    /\ activeFlow w1 = Some (set_history (Flow.history flowA ++ [notice]) flowA)
    /\ initializeChat true w1 = (r, w2)
    /\ chatHistoryEl w2 = map element (Flow.history flowA ++ [notice])
    /\ Forall (fun e => extra e = None) (chatHistoryEl w2).
Proof.
  apply (task_list_shown_once 1699903000000
           [ {| task_title := "Draft"; priority := "High" |} ] true world1 5 flowA
           [(Flow.id flowA, flowA)]); reflexivity.
Defined.

(** ** The store invariant *)

Lemma store_ok_active w :
  store_ok w ->
  exists fl v j,
    truthy (activeFlowId (state w)) = true
    /\ prop_get (key (activeFlowId (state w))) (flows (state w)) = Some fl
    /\ reify (heap w) fl = Some v
    /\ stringify_flows (heap w) (flows (state w)) = Some j.
Proof.
  intros ((a & Ha & Hne & Hin) & _ & _ & [j Hj] & _).
  apply prop_get_In in Hin as [fl Hfl].
  assert (Hg : prop_get (key (activeFlowId (state w))) (flows (state w))
               = Some fl) by (rewrite Ha; exact Hfl).
  destruct (stringify_flows_lookup _ _ _ _ _ Hj Hg) as [v Hv].
  exists fl, v, j. split; [|auto].
  rewrite Ha. cbn. apply String.eqb_neq in Hne. rewrite Hne. reflexivity.
Qed.

Lemma evolves_from_checkpoint lo v (h h' : list obj) :
  evolves lo (fst (alloc_flow v h)) h' -> evolves lo h h'.
Proof.
  destruct (alloc_flow_extends v h) as [ext ->]. intros He.
  eapply evolves_trans; [|exact He]. apply evolves_alloc, evolves_refl.
Qed.

(** The invariant survives when the flows object and the active id stay,
    the heap evolves, and what is new on the stacks can be read. *)
Lemma store_ok_evolved lo w w' :
  store_ok w ->
  flows (state w') = flows (state w) ->
  activeFlowId (state w') = activeFlowId (state w) ->
  evolves lo (heap w) (heap w') ->
  Forall (fun c => In c (historyStack (state w) ++ redoStack (state w))
                   \/ is_Some (reify (heap w') c))
         (historyStack (state w') ++ redoStack (state w')) ->
  store_ok w'.
Proof.
  intros (Ha & Hnd & Hemp & Hj & Hst) Hfl Hid He Hnew.
  unfold store_ok. rewrite Hfl, Hid.
  split; [exact Ha|]. split; [exact Hnd|]. split; [exact Hemp|].
  split; [eapply evolves_stringify; eauto|].
  rewrite List.Forall_forall in Hst, Hnew. apply List.Forall_forall.
  intros c Hc. destruct (Hnew c Hc) as [Hold|Hr]; [|exact Hr].
  eapply evolves_readable; eauto.
Qed.

Lemma store_ok_frame w w' :
  store_ok w ->
  flows (state w') = flows (state w) ->
  activeFlowId (state w') = activeFlowId (state w) ->
  historyStack (state w') = historyStack (state w) ->
  redoStack (state w') = redoStack (state w) ->
  heap w' = heap w ->
  store_ok w'.
Proof.
  intros Hs Hfl Hid Hh Hr Hheap.
  apply (store_ok_evolved 0 w w' Hs Hfl Hid).
  - rewrite Hheap. apply evolves_refl.
  - rewrite Hh, Hr. apply List.Forall_forall. auto.
Qed.

Lemma store_ok_call v w w' :
  store_ok w -> call_effect v w w' -> store_ok w'.
Proof.
  intros Hs (Hfl & Hid & _ & _ & Hh & Hr & He).
  apply (store_ok_evolved (length (heap w)) w w' Hs Hfl Hid).
  - eapply evolves_from_checkpoint. exact He.
  - rewrite Hh, Hr, app_nil_r. apply List.Forall_forall. intros c Hc.
    apply in_app_or in Hc as [Hc|[<-|[]]].
    + left. apply in_or_app. left. exact Hc.
    + right. exists v. apply snapshot_frozen. exact He.
Qed.

Lemma appendMessage_store_ok r t ex w :
  store_ok w ->
  exists w',
    appendMessage r t ex w = (Ok tt, w')
    /\ state w' = state w
    /\ store_ok w'.
Proof.
  intros Hs. destruct (store_ok_active w Hs) as (fl & v & j & Ht & Hg & Hr & Hj).
  destruct (appendMessage_run w r t ex fl v j Ht Hg Hr Hj)
    as (w' & hl & Hrun & Hst & _ & Hheap & _ & _ & _ & _ & Hm & _).
  exists w'. split; [exact Hrun|]. split; [exact Hst|].
  apply (store_ok_evolved (length (heap w)) w w' Hs);
    try (rewrite Hst; reflexivity).
  - rewrite Hheap. apply evolves_write; [apply evolves_refl | |].
    + eapply lookup_lt_Some; eauto.
    + eapply write_messages; eauto.
  - rewrite Hst. apply List.Forall_forall. auto.
Qed.

Lemma handleFunctionCall_store_ok now fc w :
  well_shaped fc = true ->
  store_ok w ->
  exists w',
    handleFunctionCall now fc w = (Ok tt, w')
    /\ store_ok w'
    /\ isLoading (state w') = isLoading (state w)
    /\ aiChat (state w') = aiChat (state w).
Proof.
  intros Hw Hs.
  destruct (store_ok_active w Hs) as (fl & v & j & Ht & Hg & Hr & Hj).
  destruct (handleFunctionCall_effect w fl v j Ht Hg Hr Hj now fc Hw)
    as (w' & Hrun & Hc).
  exists w'. split; [exact Hrun|]. split; [eapply store_ok_call; eauto|].
  destruct Hc as (_ & _ & Hl & Hai & _). auto.
Qed.

Lemma calls_store_ok (calls : list (N * FunctionCall)) :
  Forall (fun c => well_shaped (snd c) = true) calls ->
  forall w,
    store_ok w ->
    exists w',
      forM (fun c => handleFunctionCall (fst c) (snd c)) calls w = (Ok tt, w')
      /\ store_ok w'.
Proof.
  induction 1 as [|[now fc] calls Hw _ IH]; intros w Hs; [eauto|].
  destruct (handleFunctionCall_store_ok now fc w Hw Hs) as (w1 & Hrun & Hs1 & _).
  destruct (IH w1 Hs1) as (w' & Hrun' & Hs').
  exists w'. split; [|exact Hs'].
  cbn [forM]. unfold bind. cbn [fst snd]. rewrite Hrun. exact Hrun'.
Qed.

Lemma store_ok_loading b w : store_ok w -> store_ok (loading b w).
Proof. intros Hs. apply (store_ok_frame w); auto. Qed.

Lemma awaitReply_store_ok reply w :
  store_ok w ->
  match reply with
  | Response _ calls => Forall (fun c => well_shaped (snd c) = true) calls
  | Rejected => True
  end ->
  exists w', awaitReply reply w = (Ok tt, w') /\ store_ok w'.
Proof.
  intros Hs He.
  destruct (appendMessage_store_ok model
              "apologies sprite*. an error occurred. please try again." None
              w Hs) as (wa & Hruna & _ & Hsa).
  assert (Hfail : forall e,
             try_finally
               (try_catch (throw e)
                  (fun _ =>
                     appendMessage model
                       "apologies sprite*. an error occurred. please try again."
                       None))
               (setLoading false) w = (Ok tt, loading false wa)).
  { intros e. unfold try_finally, try_catch, throw. rewrite Hruna. reflexivity. }
  unfold awaitReply.
  destruct (aiChat (state w)) as [ch|] eqn:Hch.
  - destruct reply as [text calls|].
    + assert (exists w2,
                 (match text with
                  | Some t => if truthy (Some t) then appendMessage model t None
                              else ret tt
                  | None => ret tt
                  end) w = (Ok tt, w2) /\ store_ok w2) as (w2 & Htext & Hs2).
      { destruct text as [t|]; [|exists w; auto].
        destruct (truthy (Some t)); [|exists w; auto].
        destruct (appendMessage_store_ok model t None w Hs) as (w2 & ? & _ & ?).
        eauto. }
      destruct (calls_store_ok calls He w2 Hs2) as (w3 & Hrun & Hs3).
      exists (loading false w3). split; [|apply store_ok_loading; exact Hs3].
      unfold try_finally, try_catch. unfold bind at 1, get. rewrite Hch.
      unfold bind at 1. rewrite Htext, Hrun. reflexivity.
    + exists (loading false wa). split; [|apply store_ok_loading; exact Hsa].
      rewrite <- (Hfail GatewayError).
      unfold try_finally, try_catch. unfold bind at 1, get. rewrite Hch.
      reflexivity.
  - exists (loading false wa). split; [|apply store_ok_loading; exact Hsa].
    rewrite <- (Hfail TypeError).
    unfold try_finally, try_catch. unfold bind at 1, get. rewrite Hch.
    reflexivity.
Qed.

Lemma handleFormSubmit_store_ok input reply w :
  store_ok w ->
  match reply with
  | Response _ calls => Forall (fun c => well_shaped (snd c) = true) calls
  | Rejected => True
  end ->
  exists w', handleFormSubmit input reply w = (Ok tt, w') /\ store_ok w'.
Proof.
  intros Hs He.
  destruct (isLoading (state w)) eqn:Hl.
  { exists w. split; [|exact Hs]. unfold handleFormSubmit. mred.
    rewrite Hl. reflexivity. }
  destruct (trim input =? "")%string eqn:Hb.
  { exists w. split; [|exact Hs]. unfold handleFormSubmit. mred.
    rewrite Hl. cbn [truthy]. rewrite Hb. reflexivity. }
  destruct (store_ok_active w Hs) as (fl & v & j & Ht & Hg & Hr & Hj).
  destruct (acceptSubmission_effect w fl v j Ht Hg Hr Hj (trim input))
    as (w1 & Hacc & Hc & _).
  destruct (awaitReply_store_ok reply (loading true w1)) as (w' & Hrun & Hs');
    [apply store_ok_loading; eapply store_ok_call; eauto | exact He |].
  exists w'. split; [|exact Hs'].
  rewrite handleFormSubmit_accept;
    [|exact Hl | apply String.eqb_neq; exact Hb].
  unfold bind. rewrite Hacc. exact Hrun.
Qed.

(** Undo and Redo: the active Flow is replaced by an entry of a stack, and
    a copy of it goes to the other stack. *)
Lemma store_ok_swap w w' p v :
  store_ok w ->
  heap w' = fst (alloc_flow v (heap w)) ->
  flows (state w')
  = prop_set (key (activeFlowId (state w))) p (flows (state w)) ->
  activeFlowId (state w') = activeFlowId (state w) ->
  In p (historyStack (state w) ++ redoStack (state w)) ->
  Forall (fun c => In c (historyStack (state w) ++ redoStack (state w))
                   \/ c = snd (alloc_flow v (heap w)))
         (historyStack (state w') ++ redoStack (state w')) ->
  store_ok w'.
Proof.
  intros ((a & Ha & Hne & Hin) & Hnd & Hemp & [j Hj] & Hst) Hheap Hfl Hid Hp Hnew.
  rewrite List.Forall_forall in Hst, Hnew.
  destruct (Hst p Hp) as [pv Hpv].
  assert (Hk : Object_keys (flows (state w')) = Object_keys (flows (state w))).
  { rewrite Hfl, Ha. cbn [key]. apply prop_set_keys. exact Hin. }
  unfold store_ok. rewrite Hk, Hid, Hheap.
  split; [eauto|]. split; [exact Hnd|]. split; [exact Hemp|]. split.
  - rewrite Hfl. eapply stringify_prop_set.
    + apply stringify_alloc_old. exact Hj.
    + apply reify_alloc_old. exact Hpv.
  - apply List.Forall_forall. intros c Hc. destruct (Hnew c Hc) as [Hold| ->].
    + destruct (Hst c Hold) as [cv Hcv]. exists cv.
      apply reify_alloc_old. exact Hcv.
    + exists v. apply reify_alloc_flow.
Qed.

Lemma handleUndo_store_ok w :
  store_ok w -> exists w', handleUndo w = (Ok tt, w') /\ store_ok w'.
Proof.
  intros Hs.
  destruct (historyStack (state w)) as [|x l] eqn:E.
  { exists w. split; [|exact Hs]. unfold handleUndo. mred. rewrite E.
    reflexivity. }
  assert (Hne : x :: l <> []) by discriminate.
  destruct (exists_last Hne) as (hs & p & Hl). rewrite Hl in E. clear Hne Hl.
  destruct (store_ok_active w Hs) as (fl & v & j & Ht & Hg & Hr & Hj).
  assert (Hp : In p (historyStack (state w) ++ redoStack (state w))).
  { rewrite E. apply in_or_app. left. apply in_or_app. right. left.
    reflexivity. }
  assert (Hpv : is_Some (reify (heap w) p)).
  { destruct Hs as (_ & _ & _ & _ & Hst).
    rewrite List.Forall_forall in Hst. auto. }
  destruct Hpv as [pv Hpv].
  destruct (handleUndo_run w fl v hs p pv j Hg Hr E Hpv Hj)
    as (w' & Hrun & Hheap & Hfl & Hid & Hh & Hrs & _).
  exists w'. split; [exact Hrun|].
  apply (store_ok_swap w w' p v Hs Hheap Hfl Hid Hp).
  rewrite Hh, Hrs, E. apply List.Forall_forall. intros c Hc.
  rewrite app_assoc in Hc. apply in_app_or in Hc as [Hc|[<-|[]]].
  - left. apply in_app_or in Hc as [Hc|Hc]; apply in_or_app.
    + left. apply in_or_app. left. exact Hc.
    + right. exact Hc.
  - right. reflexivity.
Qed.

Lemma handleRedo_store_ok w :
  store_ok w -> exists w', handleRedo w = (Ok tt, w') /\ store_ok w'.
Proof.
  intros Hs.
  destruct (redoStack (state w)) as [|x l] eqn:E.
  { exists w. split; [|exact Hs]. unfold handleRedo. mred. rewrite E.
    reflexivity. }
  assert (Hne : x :: l <> []) by discriminate.
  destruct (exists_last Hne) as (rs & n & Hl). rewrite Hl in E. clear Hne Hl.
  destruct (store_ok_active w Hs) as (fl & v & j & Ht & Hg & Hr & Hj).
  assert (Hp : In n (historyStack (state w) ++ redoStack (state w))).
  { rewrite E. apply in_or_app. right. apply in_or_app. right. left.
    reflexivity. }
  assert (Hnv : is_Some (reify (heap w) n)).
  { destruct Hs as (_ & _ & _ & _ & Hst).
    rewrite List.Forall_forall in Hst. auto. }
  destruct Hnv as [nv Hnv].
  destruct (handleRedo_run w fl v rs n nv j Hg Hr E Hnv Hj)
    as (w' & Hrun & Hheap & Hfl & Hid & Hrs & Hh & _).
  exists w'. split; [exact Hrun|].
  apply (store_ok_swap w w' n v Hs Hheap Hfl Hid Hp).
  rewrite Hh, Hrs, E. apply List.Forall_forall. intros c Hc.
  apply in_app_or in Hc as [Hc|Hc].
  - apply in_app_or in Hc as [Hc|[<-|[]]].
    + left. apply in_or_app. left. exact Hc.
    + right. reflexivity.
  - left. apply in_or_app. right. apply in_or_app. left. exact Hc.
Qed.

Lemma prop_delete_keys k a (o : list (string * nat)) :
  In a (Object_keys (prop_delete k o)) <-> In a (Object_keys o) /\ a <> k.
Proof.
  unfold Object_keys, prop_delete. rewrite !in_map_iff. split.
  - intros ([k' l] & <- & Hin). apply filter_In in Hin as [Hin Hk].
    cbn [fst] in *. split; [exists (k', l); auto|].
    intros ->. rewrite String.eqb_refl in Hk. discriminate.
  - intros (([k' l] & <- & Hin) & Hne). exists (k', l). split; [reflexivity|].
    apply filter_In. split; [exact Hin|]. cbn [fst] in *.
    apply String.eqb_neq in Hne. rewrite Hne. reflexivity.
Qed.

Lemma prop_delete_NoDup k (o : list (string * nat)) :
  NoDup (Object_keys o) -> NoDup (Object_keys (prop_delete k o)).
Proof.
  induction o as [|[k' l] o IH]; [trivial|].
  change (Object_keys ((k', l) :: o)) with (k' :: Object_keys o).
  intros Hnd. apply NoDup_cons in Hnd as [Hn Hnd].
  unfold prop_delete. cbn [List.filter fst].
  destruct (negb (k' =? k)%string); [|apply IH; exact Hnd].
  change (NoDup (k' :: Object_keys (prop_delete k o))).
  apply NoDup_cons. split; [|apply IH; exact Hnd].
  intros Hin. apply Hn. apply list_elem_of_In in Hin.
  apply prop_delete_keys in Hin as [Hin _]. apply list_elem_of_In. exact Hin.
Qed.

Lemma tab_onclick_store_ok artifactId w :
  store_ok w -> exists w', tab_onclick artifactId w = (Ok tt, w') /\ store_ok w'.
Proof.
  intros Hs. destruct (store_ok_active w Hs) as (fl & v & j & _ & _ & _ & Hj).
  eexists. split.
  - unfold tab_onclick. mred. unfold saveFlows. wsimpl. rewrite Hj.
    reflexivity.
  - apply (store_ok_frame w); auto.
Qed.

Lemma switchFlow_store_ok id w :
  store_ok w ->
  In id (Object_keys (flows (state w))) ->
  exists w', detach (switchFlow id) w = (Ok tt, w') /\ store_ok w'.
Proof.
  intros Hs Hin.
  destruct (strict_eq id (activeFlowId (state w))) eqn:He.
  { exists w. split; [|exact Hs]. unfold detach, switchFlow. mred.
    rewrite He. reflexivity. }
  destruct (store_ok_active w Hs) as (fl & v & j & _ & _ & _ & Hj).
  set (w1 := set_localStorage
               {| fluid_flows_other := None;
                  fluid_flows := Some j; fluid_active_flow_id := Some id |}
               (set_state (set_activeFlowId (Some id) (state w)) w)).
  destruct (detach_initializeChat false w1)
    as (w' & Hd & V1 & V2 & V3 & V4 & V5 & _).
  { apply (stringify_active_readable w1 j). exact Hj. }
  exists w'. split.
  { rewrite <- Hd. unfold detach, switchFlow. mred. rewrite He. mred. wsimpl.
    rewrite (saveFlows_run _ j) by exact Hj. reflexivity. }
  unfold reset_stacks, w1 in V1, V2, V3, V4, V5. wsimpl.
  destruct Hs as (_ & Hnd & Hemp & Hst & _).
  unfold store_ok. rewrite V1, V2, V3, V4, V5.
  split; [|split; [exact Hnd|split; [exact Hemp|split; [exact Hst|constructor]]]].
  exists id. split; [reflexivity|]. split; [|exact Hin].
  intros ->. apply Hemp. exact Hin.
Qed.

Lemma deleteFlow_store_ok id confirmed w :
  store_ok w ->
  In id (Object_keys (flows (state w))) ->
  exists r w', deleteFlow id confirmed w = (Ok r, w') /\ store_ok w'.
Proof.
  intros Hs Hin.
  destruct (length (Object_keys (flows (state w))) <=? 1)%nat eqn:Hlen.
  { exists CannotDeleteLast, w. split; [|exact Hs].
    unfold deleteFlow. mred. rewrite Hlen. reflexivity. }
  apply Nat.leb_gt in Hlen.
  apply prop_get_In in Hin as [l Hid].
  destruct confirmed.
  2:{ exists NotConfirmed, w. split; [|exact Hs].
      unfold deleteFlow. mred.
      replace (length (Object_keys (flows (state w))) <=? 1)%nat with false
        by (symmetry; apply Nat.leb_gt; lia).
      rewrite Hid. reflexivity. }
  destruct (store_ok_active w Hs) as (fl & v & j & Ht & Hg & Hr & Hj).
  destruct (deleteFlow_effect id w fl v j l Hlen Hid Ht Hg Hr Hj)
    as (w' & Hrun & Hfl & Hact & _ & Hheap & Hh & Hrs).
  exists Deleted, w'. split; [exact Hrun|].
  destruct Hs as ((a & Ha & Hne & Hina) & Hnd & Hemp & _ & _).
  unfold store_ok. rewrite Hfl, Hheap, Hh, Hrs.
  split; [|split; [apply prop_delete_NoDup; exact Hnd|split; [|split]]].
  - rewrite Hact, Ha. cbn [strict_eq].
    destruct (String.eqb_spec id a) as [->|Hna].
    + destruct (first_remaining a _ Hnd Hlen) as (k' & l' & o1 & o2 & Hhd & _).
      exists k'. split; [exact Hhd|].
      assert (Hk : In k' (Object_keys (prop_delete a (flows (state w))))).
      { destruct (Object_keys (prop_delete a (flows (state w))));
          [discriminate|]. injection Hhd as ->. left. reflexivity. }
      split; [|exact Hk].
      intros ->. apply Hemp. apply prop_delete_keys in Hk as [Hk _]. exact Hk.
    + exists a. split; [reflexivity|]. split; [exact Hne|].
      apply prop_delete_keys. split; [exact Hina | congruence].
  - intros H. apply prop_delete_keys in H as [H _]. auto.
  - eapply stringify_prop_delete. apply stringify_alloc_old. exact Hj.
  - constructor.
Qed.

Lemma createNewFlow_effect now w :
  store_ok w ->
  exists w' nfl ext,
    createNewFlow now w = (Ok tt, w')
    /\ store_ok w'
    /\ flows (state w') = prop_set ("flow-" +:+ show now) nfl (flows (state w))
    /\ heap w' = heap w ++ ext
    /\ historyStack (state w') = []
    /\ redoStack (state w') = []
    /\ forall y, In y (footprint (heap w') nfl) -> length (heap w) <= y.
Proof.
  intros Hs.
  destruct (store_ok_active w Hs) as (fl & v & j & Ht & Hg & Hr & Hj).
  set (id := "flow-" +:+ show now).
  set (nm := "New Flow "
               +:+ show (N.of_nat (length (Object_keys (flows (state w))) + 1))).
  set (h1 := fst (alloc_flow v (heap w))).
  set (nfl := length h1 + 3).
  set (h5 := h1 ++ [OMessages []; OSnapshots []; OArtifacts [];
                    OFlow id nm (length h1) (length h1 + 1) (length h1 + 2)]).
  pose proof (reify_empty_flow h1 id nm) as Hnf. fold h5 nfl in Hnf.
  destruct (stringify_prop_set h5 id nfl _ (flows (state w)) j
              (stringify_flows_app _ _ _ _ (stringify_alloc_old v _ _ _ Hj))
              Hnf) as [j5 Hj5].
  set (w3 := set_localStorage
               {| fluid_flows_other := None;
                  fluid_flows := Some j5; fluid_active_flow_id := Some id |}
               (set_state
                  (set_activeFlowId (Some id)
                     (set_flows (prop_set id nfl (flows (state w)))
                        (state (checkpointed v w))))
                  (set_heap h5 (checkpointed v w)))).
  destruct (detach_initializeChat false w3)
    as (w' & Hd & V1 & V2 & V3 & V4 & V5 & _).
  { apply (stringify_active_readable w3 _ Hj5). }
  destruct (alloc_flow_extends v (heap w)) as [ext Hext].
  exists w', nfl,
    (ext ++ [OMessages []; OSnapshots []; OArtifacts [];
             OFlow id nm (length h1) (length h1 + 1) (length h1 + 2)]).
  split.
  { unfold createNewFlow. unfold bind at 1.
    rewrite (pushUndoState_run w fl v Ht Hg Hr). mred. wsimpl.
    change (heap (checkpointed v w)) with h1.
    change (flows (state (checkpointed v w))) with (flows (state w)).
    fold id nm.
    rewrite !length_app. cbn [length].
    replace (length h1 + 1 + 1 + 1) with nfl by (unfold nfl; lia).
    replace (length h1 + 1 + 1) with (length h1 + 2) by lia.
    rewrite <- !app_assoc. cbn [app]. fold h5.
    unfold saveFlows. mred. wsimpl. rewrite Hj5. exact Hd. }
  unfold reset_stacks, w3 in V1, V2, V3, V4, V5. wsimpl.
  split; [|split; [exact V2|split; [|split; [exact V4|split; [exact V5|]]]]].
  - destruct Hs as (_ & Hnd & Hemp & _ & _).
    unfold store_ok. rewrite V1, V2, V3, V4, V5.
    split; [|split; [apply prop_set_NoDup; exact Hnd|split; [|split]]].
    + exists id. split; [reflexivity|]. split; [discriminate|].
      apply prop_get_In. rewrite prop_get_set_eq. eauto.
    + destruct (prop_set_keys_cases id nfl (flows (state w))) as [-> | ->];
        [exact Hemp|].
      intros H. apply in_app_or in H as [H|[H|[]]]; [auto | discriminate].
    + rewrite Hj5. eauto.
    + constructor.
  - rewrite V1. unfold h5, h1. rewrite Hext, <- app_assoc, !length_app.
    reflexivity.
  - rewrite V1. intros y Hy.
    assert (Hlen : length (heap w) <= length h1)
      by (unfold h1; rewrite Hext, length_app; lia).
    unfold footprint in Hy.
    assert (E3 : h5 !! nfl = Some (OFlow id nm (length h1) (length h1 + 1)
                                         (length h1 + 2))).
    { unfold h5, nfl. rewrite lookup_app_r by lia.
      replace (length h1 + 3 - length h1) with 3 by lia. reflexivity. }
    assert (E2 : h5 !! (length h1 + 2) = Some (OArtifacts [])).
    { unfold h5. rewrite lookup_app_r by lia.
      replace (length h1 + 2 - length h1) with 2 by lia. reflexivity. }
    rewrite E3, E2 in Hy. unfold nfl in Hy.
    destruct Hy as [<-|[<-|[<-|[<-|[]]]]]; lia.
Qed.

Lemma createNewFlow_store_ok now w :
  store_ok w -> exists w', createNewFlow now w = (Ok tt, w') /\ store_ok w'.
Proof.
  intros Hs.
  destruct (createNewFlow_effect now w Hs) as (w' & nfl & ext & H1 & H2 & _).
  eauto.
Qed.

Lemma footprint_write_name (h : list obj) x i n n' hl sl al l :
  h !! x = Some (OFlow i n hl sl al) ->
  footprint (<[x := OFlow i n' hl sl al]> h) l = footprint h l.
Proof.
  intros Hx. unfold footprint.
  assert (Hxl : x < length h) by (eapply lookup_lt_Some; eauto).
  assert (Hal : forall a,
             match <[x := OFlow i n' hl sl al]> h !! a with
             | Some (OArtifacts als) => als
             | _ => []
             end
             = match h !! a with Some (OArtifacts als) => als | _ => [] end).
  { intros a. destruct (Nat.eq_dec x a) as [<-|Hne].
    - rewrite list_lookup_insert_eq by exact Hxl. rewrite Hx. reflexivity.
    - rewrite list_lookup_insert_ne by exact Hne. reflexivity. }
  destruct (Nat.eq_dec x l) as [<-|Hne].
  - rewrite list_lookup_insert_eq by exact Hxl. rewrite Hx, Hal. reflexivity.
  - rewrite list_lookup_insert_ne by exact Hne.
    destruct (h !! l) as [[]|]; try reflexivity. rewrite Hal. reflexivity.
Qed.

(** [renameFlow] is a checkpoint followed, at most, by a write to the
    renamed flow. *)
Lemma renameFlow_effect id answer w :
  store_ok w ->
  In id (Object_keys (flows (state w))) ->
  exists w' fl v fl2,
    renameFlow id answer w = (Ok tt, w')
    /\ prop_get (key (activeFlowId (state w))) (flows (state w)) = Some fl
    /\ reify (heap w) fl = Some v
    /\ prop_get id (flows (state w)) = Some fl2
    /\ call_effect v w w'
    /\ edits fl2 (fst (alloc_flow v (heap w))) (heap w').
Proof.
  intros Hs Hin.
  destruct (store_ok_active w Hs) as (fl & v & j & Ht & Hg & Hr & Hj).
  apply prop_get_In in Hin as [fl2 Hid].
  assert (Hrun0 : forall k : loc -> M unit,
             (pushUndoState ;;
              s <- get ;;
              match prop_get id (flows s) with
              | None => throw TypeError
              | Some flow => k flow
              end) w = k fl2 (checkpointed v w)).
  { intros k. unfold bind at 1. rewrite (pushUndoState_run w fl v Ht Hg Hr).
    mred. change (flows (state (checkpointed v w))) with (flows (state w)).
    rewrite Hid. reflexivity. }
  unfold renameFlow. rewrite Hrun0.
  assert (Hskip : exists w',
             (ret tt : M unit) (checkpointed v w) = (Ok tt, w')
             /\ call_effect v w w'
             /\ edits fl2 (fst (alloc_flow v (heap w))) (heap w')).
  { exists (checkpointed v w). split; [reflexivity|].
    split; [apply call_effect_checkpointed | apply edits_refl]. }
  destruct answer as [newName|];
    [|destruct Hskip as (w' & H1 & H2 & H3); exists w', fl, v, fl2; auto 10].
  destruct (truthy (Some newName) && negb (trim newName =? "")%string);
    [|destruct Hskip as (w' & H1 & H2 & H3); exists w', fl, v, fl2; auto 10].
  destruct (stringify_flows_lookup _ _ _ _ _ Hj Hid) as [u Hu].
  destruct (reify_inv _ _ _ Hu) as (hl & sl & al & als & El & _).
  assert (Hlo : fl2 < length (heap w)) by (eapply lookup_lt_Some; eauto).
  set (h1 := fst (alloc_flow v (heap w))).
  assert (El1 : h1 !! fl2 = Some (OFlow (Flow.id u) (Flow.name u) hl sl al)).
  { unfold h1. destruct (alloc_flow_extends v (heap w)) as [ext ->].
    apply lookup_app_l_Some. exact El. }
  set (h2 := <[fl2 := OFlow (Flow.id u) (trim newName) hl sl al]> h1).
  assert (He : evolves (length (heap w)) h1 h2).
  { apply evolves_write; [apply evolves_refl | exact Hlo |].
    eapply write_name. exact El1. }
  destruct (evolves_stringify _ h1 h2 (flows (state w)) He
              (ex_intro _ j (stringify_alloc_old v _ _ _ Hj))) as [j2 Hj2].
  eexists _, fl, v, fl2. split.
  { mred. change (heap (checkpointed v w)) with h1. rewrite El1. mred. wsimpl.
    change (heap (checkpointed v w)) with h1. fold h2.
    unfold saveFlows. mred. wsimpl.
    change (flows (state (checkpointed v w))) with (flows (state w)).
    rewrite Hj2. reflexivity. }
  repeat (split; [assumption|]). split.
  - apply call_effect_state; [reflexivity | exact He].
  - cbn. apply edits_write; [apply edits_refl | apply footprint_self | |].
    + eapply write_name. exact El1.
    + intros y Hy. left.
      rewrite (footprint_write_name _ _ _ _ _ _ _ _ _ El1) in Hy. exact Hy.
Qed.

Lemma renameFlow_store_ok id answer w :
  store_ok w ->
  In id (Object_keys (flows (state w))) ->
  exists w', renameFlow id answer w = (Ok tt, w') /\ store_ok w'.
Proof.
  intros Hs Hin.
  destruct (renameFlow_effect id answer w Hs Hin)
    as (w' & fl & v & fl2 & Hrun & _ & _ & _ & Hc & _).
  exists w'. split; [exact Hrun|]. eapply store_ok_call; eauto.
Qed.

(** The Save button: nothing, or a checkpoint followed, at most, by a write
    to an artifact of the active Flow. *)
Lemma saveBtn_onclick_effect artifactId text w :
  store_ok w ->
  exists w' fl v,
    saveBtn_onclick artifactId (Some text) w = (Ok tt, w')
    /\ prop_get (key (activeFlowId (state w))) (flows (state w)) = Some fl
    /\ reify (heap w) fl = Some v
    /\ call_effect v w w'
    /\ edits fl (fst (alloc_flow v (heap w))) (heap w').
Proof.
  intros Hs.
  destruct (store_ok_active w Hs) as (fl & v & j & Ht & Hg & Hr & Hj).
  destruct (live_cells w fl v Hr)
    as (hl & sl & al & als & El & Eh & Ea & Eg & Hhl & Hal & Hals).
  set (h1 := fst (alloc_flow v (heap w))) in *.
  assert (Hrun0 : forall k : option (loc * Artifact.t) -> M unit,
             (pushUndoState ;;
              s <- get ;;
              match prop_get (key (activeFlowId s)) (flows s) with
              | None => throw TypeError
              | Some flow =>
                  al <- field_artifacts flow ;;
                  als <- array_artifacts al ;;
                  arts <- artifacts_of als ;;
                  k (find (fun p => (Artifact.id (snd p) =? artifactId)%string)
                          (combine als arts))
              end) w
             = k (find (fun p => (Artifact.id (snd p) =? artifactId)%string)
                       (combine als (Flow.artifacts v)))
                 (checkpointed v w)).
  { intros k. unfold bind at 1. rewrite (pushUndoState_run w fl v Ht Hg Hr).
    mred.
    change (prop_get (key (activeFlowId (state (checkpointed v w))))
                     (flows (state (checkpointed v w))))
      with (prop_get (key (activeFlowId (state w))) (flows (state w))).
    rewrite Hg. mred.
    change (heap (checkpointed v w)) with h1. rewrite El. mred.
    change (heap (checkpointed v w)) with h1. rewrite Ea. mred.
    change (heap (checkpointed v w)) with h1. rewrite Eg. reflexivity. }
  unfold saveBtn_onclick.
  match goal with
  | |- context [find ?f (combine _ _)] =>
      rewrite (Hrun0 (fun r => match r with
                               | Some (activeArtifact, a) =>
                                   write activeArtifact
                                     (OArtifact (with_content (trim text) a)) ;;
                                   saveFlows
                               | None => ret tt
                               end))
  end.
  destruct (find _ (combine als (Flow.artifacts v))) as [[x a]|] eqn:Hf.
  - destruct (overwrite_effect w fl v j Hr Hj artifactId (trim text) x a
                hl sl al als El Ea Hf) as (j2 & He & Hj2 & _ & Hed).
    eexists _, fl, v. split.
    { mred. wsimpl. change (heap (checkpointed v w)) with h1.
      unfold saveFlows. mred. wsimpl.
      change (flows (state (checkpointed v w))) with (flows (state w)).
      unfold h1. rewrite Hj2. reflexivity. }
    split; [exact Hg|]. split; [exact Hr|]. split; [|exact Hed].
    apply call_effect_state; [reflexivity | exact He].
  - exists (checkpointed v w), fl, v. split; [reflexivity|].
    split; [exact Hg|]. split; [exact Hr|].
    split; [apply call_effect_checkpointed | apply edits_refl].
Qed.

Lemma saveBtn_onclick_store_ok artifactId edited w :
  store_ok w ->
  exists w', saveBtn_onclick artifactId edited w = (Ok tt, w') /\ store_ok w'.
Proof.
  intros Hs. destruct edited as [text|]; [|exists w; auto].
  destruct (saveBtn_onclick_effect artifactId text w Hs)
    as (w' & fl & v & Hrun & _ & _ & Hc & _).
  exists w'. split; [exact Hrun|]. eapply store_ok_call; eauto.
Qed.

Lemma dispatch_store_ok e w :
  store_ok w -> expected e w ->
  exists w', dispatch e w = (Ok tt, w') /\ store_ok w'.
Proof.
  intros Hs He. destruct e as [input reply| | |now|flowItem action answer c|a|a ed];
    cbn [dispatch].
  - destruct (handleFormSubmit_store_ok input reply w Hs) as (w' & Hrun & Hs').
    { destruct reply; [exact He | exact I]. }
    exists w'. split; [|exact Hs']. unfold detach. rewrite Hrun. reflexivity.
  - apply handleUndo_store_ok. exact Hs.
  - apply handleRedo_store_ok. exact Hs.
  - apply createNewFlow_store_ok. exact Hs.
  - unfold handleFlowListClick. destruct flowItem as [id|]; [|exists w; auto].
    cbn [expected] in He.
    destruct (strict_eq "rename" action);
      [apply renameFlow_store_ok; assumption|].
    destruct (strict_eq "delete" action);
      [|apply switchFlow_store_ok; assumption].
    destruct (deleteFlow_store_ok id c w Hs He) as (r & w' & Hrun & Hs').
    exists w'. split; [|exact Hs']. unfold bind. rewrite Hrun. reflexivity.
  - apply tab_onclick_store_ok. exact Hs.
  - apply saveBtn_onclick_store_ok. exact Hs.
Qed.

(** X14. The store invariant: there is an active flow id, not empty, that
    is the key of a flow; the keys are distinct and none is empty; every
    flow and every snapshot on the undo and redo stacks can be read.  In a
    store like that every event of the page runs to completion and leaves
    a store like that: a submission with whatever the Gateway answers, Undo
    and Redo, a new flow, a rename, deletion or switch from the flow list,
    a click on an artifact tab, a saved edit.  So does every session of
    such events. *)
Theorem session_keeps_store es : forall w,
  store_ok w -> session es w ->
  exists w', forM dispatch es w = (Ok tt, w') /\ store_ok w'.
Proof.
  induction es as [|e es IH]; intros w Hs Hse; [exists w; auto|].
  destruct Hse as [He Hrest].
  destruct (dispatch_store_ok e w Hs He) as (w1 & Hrun & Hs1).
  destruct (IH w1 Hs1 (Hrest w1 Hrun)) as (w' & Hrun' & Hs').
  exists w'. split; [|exact Hs'].
  cbn [forM]. unfold bind. rewrite Hrun. exact Hrun'.
Qed.

Lemma session_keeps_store_witness :
  let es :=
    [ FormSubmit "add notes"
        (Response (Some "Done.")
           [(1699903000000%N,
             {| name := "present_artifact";
                args := PresentArgs "Notes" "document" "n" None |})]);
      UndoClick;
      FlowListClick (Some "flow-2") (Some "rename") (Some "Drafts") false;
      FlowListClick (Some "flow-1") (Some "delete") None true ] in
  store_ok world2_undone
  /\ session es world2_undone
  /\ exists w', forM dispatch es world2_undone = (Ok tt, w') /\ store_ok w'.
Proof.
  intros es.
  assert (Hs : store_ok world2_undone).
  { split; [exists "flow-1"; split; [reflexivity|];
            split; [discriminate | left; reflexivity]|].
    split.
    { apply NoDup_cons. split; [|apply NoDup_singleton].
      intros H. apply list_elem_of_singleton in H. discriminate. }
    split; [intros [H|[H|[]]]; discriminate|].
    split; [eexists; reflexivity|].
    repeat constructor; eexists; reflexivity. }
  assert (Hse : session es world2_undone).
  { split; [repeat constructor|].
    intros w1 H1. vm_compute in H1. injection H1 as <-.
    split; [exact I|].
    intros w2 H2. vm_compute in H2. injection H2 as <-.
    split; [right; left; reflexivity|].
    intros w3 H3. vm_compute in H3. injection H3 as <-.
    split; [left; reflexivity|].
    intros w4 _. exact I. }
  split; [exact Hs|]. split; [exact Hse|].
  apply (session_keeps_store es world2_undone Hs Hse).
Defined.

(** ** Start-up *)

Lemma loadFlows_store now w :
  loadable (localStorage w) ->
  (forall a, fluid_active_flow_id (localStorage w) = Some a ->
             inherited a = true -> In a (stored_keys (localStorage w))) ->
  exists w',
    loadFlows now w = (Ok tt, w')
    /\ NoDup (Object_keys (flows (state w')))
    /\ is_Some (stringify_flows (heap w') (flows (state w')))
    /\ (exists k, activeFlowId (state w') = Some k
                  /\ In k (Object_keys (flows (state w')))
                  /\ (truthy (Some k) = true
                      \/ head (Object_keys (flows (state w'))) = Some k))
    /\ (forall k, In k (Object_keys (flows (state w'))) ->
                  k = "flow-" +:+ show now
                  \/ In k (stored_keys (localStorage w))).
Proof.
  intros Hty Hinh.
  destruct (loadFlows_run now w Hty) as (w' & Hrun & Hne & He & Ha & _).
  exists w'. split; [exact Hrun|].
  assert (Hstore : flows (state w') <> []
                   /\ NoDup (Object_keys (flows (state w')))
                   /\ is_Some (stringify_flows (heap w') (flows (state w')))
                   /\ (forall k, In k (Object_keys (flows (state w'))) ->
                         k = "flow-" +:+ show now
                         \/ In k (stored_keys (localStorage w)))
                   /\ (forall k, In k (stored_keys (localStorage w)) ->
                         In k (Object_keys (flows (state w'))))).
  { unfold stored_keys. destruct (fst (parsed w)) as [|p o] eqn:Eo.
    - destruct (He eq_refl) as [Hf Hheap]. rewrite Hf, Hheap.
      split; [discriminate|]. split; [apply NoDup_singleton|]. split.
      + cbn [stringify_flows]. rewrite reify_empty_flow. eauto.
      + split; [intros k [<-|[]]; left; reflexivity|].
        destruct (fluid_flows (localStorage w)) as [j|]; [|intros k []].
        apply alloc_flows_nil in Eo. subst j. intros k [].
    - destruct Hne as [Hf Hheap]; [discriminate|]. rewrite Hf, Hheap.
      destruct (fluid_flows (localStorage w)) as [j|]; [|discriminate].
      rewrite <- Eo. split; [rewrite Eo; discriminate|]. split.
      + apply alloc_flows_NoDup. constructor.
      + split; [apply alloc_flows_readable; cbn; eauto|]. split.
        * intros k Hk. right.
          apply alloc_flows_keys in Hk as [[]|Hk]. exact Hk.
        * intros k Hk. apply alloc_flows_keys. right. exact Hk. }
  destruct Hstore as (H1 & H2 & H3 & H4 & H5).
  repeat (split; [assumption|]). split; [|exact H4].
  destruct (flows (state w')) as [|[k0 l0] o'] eqn:Ef; [congruence|].
  rewrite Ha.
  destruct (truthy (fluid_active_flow_id (localStorage w))) eqn:T.
  - destruct (fluid_active_flow_id (localStorage w)) as [a|] eqn:Ea;
      [|discriminate]. cbn [key andb].
    destruct (prop_get a ((k0, l0) :: o')) as [x|] eqn:Eg.
    + exists a. split; [reflexivity|]. split; [apply prop_get_In; eauto|].
      left. exact T.
    + destruct (inherited a) eqn:I; cbn [orb].
      * exfalso. apply prop_get_None in Eg. apply Eg, H5, Hinh; auto.
      * exists k0. split; [reflexivity|]. split; [left; reflexivity|].
        right. reflexivity.
  - cbn [andb]. exists k0. split; [reflexivity|]. split; [left; reflexivity|].
    right. reflexivity.
Qed.

(** ** More on artifacts and flows *)

Lemma NoDup_ids_snoc (arts : list Artifact.t) a :
  NoDup (map Artifact.id (arts ++ [a]))
  <-> NoDup (map Artifact.id arts) /\ ~ In (Artifact.id a) (map Artifact.id arts).
Proof.
  rewrite map_app. cbn [map]. rewrite NoDup_app. split.
  - intros (H1 & H2 & _). split; [exact H1|].
    intros Hin. apply list_elem_of_In in Hin. apply (H2 _ Hin). left.
  - intros [H1 H2]. split; [exact H1|]. split.
    + intros y Hy Hy'. apply list_elem_of_singleton in Hy'. subst y.
      apply H2. apply list_elem_of_In. exact Hy.
    + apply NoDup_singleton.
Qed.

(** X16. A [present_artifact] call puts the new artifact, its id made of
    the clock reading, at the end of the artifacts of the active Flow and
    makes it the one shown, without a Message in the history or the chat
    pane; it takes one checkpoint holding the Flow as it was, and persists
    the store.  When no artifact of the Flow has the id of that clock
    reading, distinct ids stay distinct. *)
Theorem present_artifact_appends now title type content language w fl v j :
  truthy (activeFlowId (state w)) = true ->
  prop_get (key (activeFlowId (state w))) (flows (state w)) = Some fl ->
  reify (heap w) fl = Some v ->
  stringify_flows (heap w) (flows (state w)) = Some j ->
  let a := {| Artifact.id := "artifact-" +:+ show now; Artifact.title := title;
              Artifact.type := type; Artifact.content := content;
              Artifact.language := language |} in
  exists w' c,
    handleFunctionCall now
      {| name := "present_artifact";
         args := PresentArgs title type content language |} w
    = (Ok tt, w')
    /\ activeFlow w' = Some (set_artifacts (Flow.artifacts v ++ [a]) v)
    /\ activeArtifactId (state w') = Some (Artifact.id a)
    /\ chatHistoryEl w' = chatHistoryEl w
    /\ historyStack (state w') = historyStack (state w) ++ [c]
    /\ reify (heap w') c = Some v
    /\ redoStack (state w') = []
    /\ persisted w'
    /\ (NoDup (map Artifact.id (Flow.artifacts v)) ->
        ~ In (Artifact.id a) (map Artifact.id (Flow.artifacts v)) ->
        NoDup (map Artifact.id (Flow.artifacts v ++ [a]))).
Proof.
  intros Ht Hg Hr Hj a.
  destruct (present_call_effect w fl v j Ht Hg Hr Hj now title type content
              language)
    as (w' & Hrun & (Hfl & Hid & _ & _ & Hh & Hrs & He) & Hper & Hval & Hact
        & Hchat & _).
  exists w', (snd (alloc_flow v (heap w))).
  split; [exact Hrun|].
  split; [unfold activeFlow; rewrite Hfl, Hid, Hg; exact Hval|].
  split; [exact Hact|]. split; [exact Hchat|]. split; [exact Hh|].
  split; [apply snapshot_frozen; exact He|].
  split; [exact Hrs|]. split; [exact Hper|].
  intros H1 H2. apply NoDup_ids_snoc. auto.
Qed.

Lemma present_artifact_appends_witness :
  let a := {| Artifact.id := "artifact-1699903000000"; Artifact.title := "Notes";
              Artifact.type := "document"; Artifact.content := "n";
              Artifact.language := None |} in
  exists w' c,
    handleFunctionCall 1699903000000
      {| name := "present_artifact";
         args := PresentArgs "Notes" "document" "n" None |} world2
    = (Ok tt, w')
    /\ activeFlow w' = Some (set_artifacts [planA; scriptA; a] flowA)
    /\ activeArtifactId (state w') = Some "artifact-1699903000000"
    /\ chatHistoryEl w' = chatHistoryEl world2
    /\ historyStack (state w') = historyStack (state world2) ++ [c]
    /\ reify (heap w') c = Some flowA
    /\ redoStack (state w') = []
    /\ persisted w'
    /\ (NoDup (map Artifact.id (Flow.artifacts flowA)) ->
        ~ In (Artifact.id a) (map Artifact.id (Flow.artifacts flowA)) ->
        NoDup (map Artifact.id (Flow.artifacts flowA ++ [a]))).
Proof.
  apply (present_artifact_appends 1699903000000 "Notes" "document" "n" None
           world2 5 flowA [(Flow.id flowA, flowA); (Flow.id flowB, flowB)]);
    reflexivity.
Defined.

(** X17. A deletion cannot be undone.  After a confirmed deletion, with two
    flows or more, the flow is gone from the store and from what is
    persisted, both stacks are empty (the checkpoint [deleteFlow] takes
    first is dropped by the initialisation of the chat), and Undo and Redo
    change nothing. *)
Theorem delete_not_undoable id w fl v j l :
  2 <= length (Object_keys (flows (state w))) ->
  prop_get id (flows (state w)) = Some l ->
  truthy (activeFlowId (state w)) = true ->
  prop_get (key (activeFlowId (state w))) (flows (state w)) = Some fl ->
  reify (heap w) fl = Some v ->
  stringify_flows (heap w) (flows (state w)) = Some j ->
  exists w',
    deleteFlow id true w = (Ok Deleted, w')
    /\ prop_get id (flows (state w')) = None
    /\ (forall j', fluid_flows (localStorage w') = Some j' ->
                   ~ In id (map fst j'))
    /\ historyStack (state w') = []
    /\ redoStack (state w') = []
    /\ handleUndo w' = (Ok tt, w')
    /\ handleRedo w' = (Ok tt, w').
Proof.
  intros Hlen Hid Ht Hg Hr Hj.
  destruct (deleteFlow_effect id w fl v j l Hlen Hid Ht Hg Hr Hj)
    as (w' & Hrun & Hfl & _ & (Hp1 & _) & _ & Hh & Hrs).
  assert (Hgone : prop_get id (flows (state w')) = None)
    by (rewrite Hfl; apply prop_get_delete).
  exists w'. split; [exact Hrun|]. split; [exact Hgone|].
  split.
  { intros j' Hj'. rewrite Hp1 in Hj'.
    rewrite (stringify_flows_keys _ _ _ Hj').
    apply prop_get_None. exact Hgone. }
  split; [exact Hh|]. split; [exact Hrs|]. split.
  - unfold handleUndo. mred. rewrite Hh. reflexivity.
  - unfold handleRedo. mred. rewrite Hrs. reflexivity.
Qed.

Lemma delete_not_undoable_witness :
  exists w',
    deleteFlow "flow-1" true world2_undone = (Ok Deleted, w')
    /\ prop_get "flow-1" (flows (state w')) = None
    /\ (forall j', fluid_flows (localStorage w') = Some j' ->
                   ~ In "flow-1" (map fst j'))
    /\ historyStack (state w') = []
    /\ redoStack (state w') = []
    /\ handleUndo w' = (Ok tt, w')
    /\ handleRedo w' = (Ok tt, w').
Proof.
  apply (delete_not_undoable "flow-1" world2_undone 5 flowA
           [(Flow.id flowA, flowA); (Flow.id flowB, flowB)] 5);
    reflexivity.
Defined.

(** ** The undo stack *)

Lemma times_snoc (m : M unit) : forall n w w' w'',
  times n m w = (Ok tt, w') -> m w' = (Ok tt, w'') ->
  times (S n) m w = (Ok tt, w'').
Proof.
  induction n as [|n IH]; intros w w' w'' Hn Hm.
  - injection Hn as <-. cbn [times]. unfold bind. rewrite Hm. reflexivity.
  - change (times (S n) m w) with ((m ;; times n m) w) in Hn.
    change (times (S (S n)) m w) with ((m ;; times (S n) m) w).
    unfold bind in *. destruct (m w) as [[[]| |] w0]; try discriminate.
    apply (IH w0 w' w'' Hn Hm).
Qed.

(** A tool call keeps the undo stack sound and leaves what is on it as it
    is. *)
Lemma handleFunctionCall_undo_ok now fc w :
  well_shaped fc = true ->
  undo_ok w ->
  exists w' c,
    handleFunctionCall now fc w = (Ok tt, w')
    /\ undo_ok w'
    /\ historyStack (state w') = historyStack (state w) ++ [c]
    /\ reify (heap w') c = activeFlow w
    /\ (forall c0, In c0 (historyStack (state w)) ->
                   reify (heap w') c0 = reify (heap w) c0).
Proof.
  intros Hw (Hs & fl & Hg & Hnd & Hap).
  destruct (store_ok_active w Hs) as (fl' & v & j & Ht & Hg' & Hr & Hj).
  assert (fl' = fl) as -> by congruence. clear Hg'.
  destruct (handleFunctionCall_edits w fl v j Ht Hg Hr Hj now fc Hw)
    as (w' & Hrun & Hc & Hed).
  pose proof (store_ok_call v w w' Hs Hc) as Hs'.
  destruct Hc as (Hfl & Hid & _ & _ & Hh & _ & _).
  set (h1 := fst (alloc_flow v (heap w))) in *.
  set (c := snd (alloc_flow v (heap w))) in *.
  assert (Hlive1 : is_Some (reify h1 fl))
    by (exists v; apply reify_alloc_old; exact Hr).
  assert (Hlen1 : length (heap w) <= length h1).
  { unfold h1. destruct (alloc_flow_extends v (heap w)) as [ext ->].
    rewrite length_app. lia. }
  assert (Hff : footprint h1 fl = footprint (heap w) fl)
    by (apply footprint_alloc_old; eauto).
  assert (Hold : forall c0, In c0 (historyStack (state w)) ->
             reify (heap w') c0 = reify (heap w) c0
             /\ footprint (heap w') c0 = footprint (heap w) c0
             /\ is_Some (reify (heap w) c0)).
  { intros c0 Hc0.
    assert (Hrd : is_Some (reify (heap w) c0)).
    { destruct Hs as (_ & _ & _ & _ & Hst).
      rewrite List.Forall_forall in Hst. apply Hst. apply in_or_app. auto. }
    destruct Hrd as [v0 Hv0].
    assert (Hne : c0 <> fl).
    { intros ->. apply NoDup_cons in Hnd as [Hn _]. apply Hn.
      apply list_elem_of_In. exact Hc0. }
    destruct (edits_frozen fl h1 Hlive1 (heap w') c0 v0 Hed
                (reify_alloc_old v _ _ _ Hv0)) as [Hr0 Hf0].
    { intros y Hy. rewrite Hff.
      assert (Hf1 : footprint h1 c0 = footprint (heap w) c0)
        by (apply footprint_alloc_old; eauto).
      rewrite Hf1 in Hy.
      apply (Hap c0 fl); [right; exact Hc0 | left; reflexivity | exact Hne
                          | exact Hy]. }
    rewrite Hr0, Hf0, Hv0. split; [reflexivity|].
    split; [apply footprint_alloc_old; eauto | eauto]. }
  destruct (edits_frozen fl h1 Hlive1 (heap w') c v Hed
              (reify_alloc_flow v (heap w))) as [Hrc Hfc].
  { intros y Hy. apply (alloc_flow_disjoint v (heap w) fl v y Hr Hy). }
  assert (Hcell : forall y, In y (footprint (heap w') c) ->
                            length (heap w) <= y < length h1).
  { intros y Hy. rewrite Hfc in Hy. split.
    - apply (footprint_alloc_flow v (heap w) y Hy).
    - apply (footprint_bound _ _ _ _ (reify_alloc_flow v (heap w)) Hy). }
  assert (Hlive : forall y, In y (footprint (heap w') fl) ->
                            In y (footprint (heap w) fl) \/ length h1 <= y).
  { intros y Hy. rewrite <- Hff.
    apply (proj1 (proj2 (edits_live fl h1 Hlive1 (heap w') Hed)) y Hy). }
  assert (Holdb : forall l y, is_Some (reify (heap w) l) ->
                              In y (footprint (heap w) l) -> y < length (heap w)).
  { intros l y [u Hu] Hy. apply (footprint_bound _ _ _ _ Hu Hy). }
  assert (A1 : forall c0, In c0 (historyStack (state w)) ->
                          apart (heap w') fl c0).
  { intros c0 Hc0 y Hy Hy'. destruct (Hold c0 Hc0) as (_ & Hf0 & Hrd).
    rewrite Hf0 in Hy'. destruct (Hlive y Hy) as [Hy1|Hy1].
    - assert (Hne : fl <> c0).
      { intros <-. apply NoDup_cons in Hnd as [Hn _]. apply Hn.
        apply list_elem_of_In. exact Hc0. }
      apply (Hap fl c0 (or_introl eq_refl) (or_intror Hc0) Hne y Hy1 Hy').
    - pose proof (Holdb c0 y Hrd Hy'). lia. }
  assert (A2 : apart (heap w') fl c).
  { intros y Hy Hy'. apply Hcell in Hy'. destruct (Hlive y Hy) as [Hy1|Hy1];
      [|lia].
    pose proof (Holdb fl y (ex_intro _ v Hr) Hy1). lia. }
  assert (A3 : forall c0, In c0 (historyStack (state w)) ->
                          apart (heap w') c0 c).
  { intros c0 Hc0 y Hy Hy'. destruct (Hold c0 Hc0) as (_ & Hf0 & Hrd).
    rewrite Hf0 in Hy. apply Hcell in Hy'.
    pose proof (Holdb c0 y Hrd Hy). lia. }
  assert (A4 : forall c0 c1, In c0 (historyStack (state w)) ->
                             In c1 (historyStack (state w)) -> c0 <> c1 ->
                             apart (heap w') c0 c1).
  { intros c0 c1 Hc0 Hc1 Hne y Hy Hy'.
    destruct (Hold c0 Hc0) as (_ & Hf0 & _).
    destruct (Hold c1 Hc1) as (_ & Hf1 & _).
    rewrite Hf0 in Hy. rewrite Hf1 in Hy'.
    apply (Hap c0 c1 (or_intror Hc0) (or_intror Hc1) Hne y Hy Hy'). }
  assert (Hcnew : ~ In c (fl :: historyStack (state w))).
  { intros Hin.
    assert (Hlt : c < length (heap w)).
    { destruct Hin as [<-|Hin]; [apply readable_bound; eauto|].
      apply readable_bound. apply (Hold c Hin). }
    pose proof (footprint_alloc_flow v (heap w) c (footprint_self _ _)).
    fold c in H. lia. }
  exists w', c. split; [exact Hrun|]. split; [|split; [exact Hh|split]].
  - split; [exact Hs'|]. exists fl.
    split; [rewrite Hfl, Hid; exact Hg|]. rewrite Hh. split.
    + change (NoDup ((fl :: historyStack (state w)) ++ [c])).
      apply NoDup_app. split; [exact Hnd|]. split; [|apply NoDup_singleton].
      intros y Hy Hy'. apply list_elem_of_singleton in Hy'. subst y.
      apply Hcnew. apply list_elem_of_In. exact Hy.
    + intros a b Ha Hb Hne.
      change (In a ((fl :: historyStack (state w)) ++ [c])) in Ha.
      change (In b ((fl :: historyStack (state w)) ++ [c])) in Hb.
      apply in_app_or in Ha as [[<-|Ha]|[<-|[]]];
        apply in_app_or in Hb as [[<-|Hb]|[<-|[]]];
        try congruence; auto using apart_sym.
  - rewrite Hrc. unfold activeFlow. rewrite Hg, Hr. reflexivity.
  - intros c0 Hc0. apply (Hold c0 Hc0).
Qed.

Lemma handleUndo_undo_ok w hs p :
  undo_ok w ->
  historyStack (state w) = hs ++ [p] ->
  exists w',
    handleUndo w = (Ok tt, w')
    /\ undo_ok w'
    /\ historyStack (state w') = hs
    /\ activeFlow w' = reify (heap w) p
    /\ (forall c0, In c0 hs -> reify (heap w') c0 = reify (heap w) c0).
Proof.
  intros (Hs & fl & Hg & Hnd & Hap) E.
  destruct (store_ok_active w Hs) as (fl' & v & j & Ht & Hg' & Hr & Hj).
  assert (fl' = fl) as -> by congruence. clear Hg'.
  assert (Hrd : forall c0, In c0 (hs ++ [p]) -> is_Some (reify (heap w) c0)).
  { intros c0 Hc0. destruct Hs as (_ & _ & _ & _ & Hst).
    rewrite List.Forall_forall in Hst. apply Hst. rewrite E.
    apply in_or_app. auto. }
  destruct (Hrd p) as [pv Hpv]; [apply in_or_app; right; left; reflexivity|].
  destruct (handleUndo_run w fl v hs p pv j Hg Hr E Hpv Hj)
    as (w' & Hrun & Hheap & Hfl & Hid & Hh & _).
  destruct (handleUndo_store_ok w Hs) as (w'' & Hrun'' & Hs').
  assert (w'' = w') as -> by congruence.
  assert (Hkeep : forall c0 u, reify (heap w) c0 = Some u ->
                               reify (heap w') c0 = Some u).
  { intros c0 u Hu. rewrite Hheap. apply reify_alloc_old. exact Hu. }
  exists w'. split; [exact Hrun|]. split; [|split; [exact Hh|split]].
  - split; [exact Hs'|]. exists p.
    split; [rewrite Hfl, Hid; apply prop_get_set_eq|]. rewrite Hh.
    rewrite E in Hnd, Hap.
    apply NoDup_cons in Hnd as [_ Hnd].
    apply NoDup_app in Hnd as (Hnd1 & Hnd2 & _). split.
    + apply NoDup_cons. split; [|exact Hnd1].
      intros Hin. apply (Hnd2 p Hin). left.
    + intros a b Ha Hb Hne y Hy Hy'.
      assert (Ha' : In a (hs ++ [p]))
        by (destruct Ha as [<-|Ha]; apply in_or_app; [right; left|left]; auto).
      assert (Hb' : In b (hs ++ [p]))
        by (destruct Hb as [<-|Hb]; apply in_or_app; [right; left|left]; auto).
      rewrite Hheap in Hy, Hy'.
      rewrite footprint_alloc_old in Hy by (apply Hrd; exact Ha').
      rewrite footprint_alloc_old in Hy' by (apply Hrd; exact Hb').
      apply (Hap a b (or_intror Ha') (or_intror Hb') Hne y Hy Hy').
  - unfold activeFlow. rewrite Hfl, Hid, prop_get_set_eq, Hpv.
    apply Hkeep. exact Hpv.
  - intros c0 Hc0. destruct (Hrd c0) as [u Hu];
      [apply in_or_app; left; exact Hc0|].
    rewrite Hu. apply Hkeep. exact Hu.
Qed.

Lemma undo_all_run (calls : list (N * FunctionCall)) :
  Forall (fun c => well_shaped (snd c) = true) calls ->
  forall w,
    undo_ok w ->
    exists w1 w2,
      forM (fun c => handleFunctionCall (fst c) (snd c)) calls w = (Ok tt, w1)
      /\ times (length calls) handleUndo w1 = (Ok tt, w2)
      /\ undo_ok w2
      /\ activeFlow w2 = activeFlow w
      /\ historyStack (state w2) = historyStack (state w)
      /\ (forall c0, In c0 (historyStack (state w)) ->
                     reify (heap w2) c0 = reify (heap w) c0).
Proof.
  induction 1 as [|[now fc] calls Hw _ IH]; intros w Hu.
  - exists w, w. repeat (split; [trivial|]). trivial.
  - destruct (handleFunctionCall_undo_ok now fc w Hw Hu)
      as (wa & c & Hrun & Hua & Hha & Hc & Hold).
    destruct (IH wa Hua) as (w1 & w2 & Hrun1 & Hundo & Hu2 & Hact & Hh2 & Hfr).
    rewrite Hha in Hh2.
    destruct (handleUndo_undo_ok w2 _ c Hu2 Hh2)
      as (w3 & Hrun3 & Hu3 & Hh3 & Hact3 & Hfr3).
    exists w1, w3. split.
    { cbn [forM]. unfold bind. cbn [fst snd]. rewrite Hrun. exact Hrun1. }
    split; [apply (times_snoc handleUndo _ w1 w2 w3 Hundo Hrun3)|].
    split; [exact Hu3|]. split.
    { rewrite Hact3, Hfr by (rewrite Hha; apply in_or_app; right; left;
                             reflexivity). exact Hc. }
    split; [exact Hh3|].
    intros c0 Hc0. rewrite Hfr3 by exact Hc0.
    rewrite Hfr by (rewrite Hha; apply in_or_app; left; exact Hc0).
    apply Hold. exact Hc0.
Qed.

(** X18. Undo goes back as many steps as asked.  In a store where the
    active Flow and the snapshots on the undo stack are different objects
    with no cell in common, after any number of tool calls, with the
    arguments their names declare, as many Undos bring back the active Flow
    exactly as it was before the first call, with the undo stack as it was
    and every snapshot on it unchanged; the snapshots are never written to,
    and the store stays one where this holds. *)
Theorem undo_all calls w :
  Forall (fun c => well_shaped (snd c) = true) calls ->
  undo_ok w ->
  exists w1 w2,
    forM (fun c => handleFunctionCall (fst c) (snd c)) calls w = (Ok tt, w1)
    /\ times (length calls) handleUndo w1 = (Ok tt, w2)
    /\ activeFlow w2 = activeFlow w
    /\ historyStack (state w2) = historyStack (state w)
    /\ (forall c0, In c0 (historyStack (state w)) ->
                   reify (heap w2) c0 = reify (heap w) c0)
    /\ undo_ok w2.
Proof.
  intros Hcalls Hu.
  destruct (undo_all_run calls Hcalls w Hu)
    as (w1 & w2 & H1 & H2 & H3 & H4 & H5 & H6).
  exists w1, w2. auto 10.
Qed.

Lemma undo_all_witness :
  let calls :=
    [(1699903000000%N,
      {| name := "modify_artifact";
         args := ModifyArgs (Artifact.id planA) "step one, step two" |});
     (1699903000001%N,
      {| name := "present_artifact";
         args := PresentArgs "Notes" "document" "n" None |});
     (1699903000002%N,
      {| name := "create_task_list"; args := TaskListArgs [] |})] in
  undo_ok world2_undone
  /\ exists w1 w2,
       forM (fun c => handleFunctionCall (fst c) (snd c)) calls world2_undone
       = (Ok tt, w1)
       /\ times 3 handleUndo w1 = (Ok tt, w2)
       /\ activeFlow w2 = Some flowA
       /\ historyStack (state w2) = historyStack (state world2_undone).
Proof.
  intros calls.
  assert (Hu : undo_ok world2_undone).
  { split.
    { split; [exists "flow-1"; split; [reflexivity|];
              split; [discriminate | left; reflexivity]|].
      split.
      { apply NoDup_cons. split; [|apply NoDup_singleton].
        intros H. apply list_elem_of_singleton in H. discriminate. }
      split; [intros [H|[H|[]]]; discriminate|].
      split; [eexists; reflexivity|].
      repeat constructor; eexists; reflexivity. }
    exists 5. split; [reflexivity|]. split; [compute_done|].
    intros c l [<-|[<-|[]]] [<-|[<-|[]]] Hne y Hy Hy'; try congruence;
      vm_compute in Hy, Hy';
      repeat (destruct Hy as [<-|Hy]; [intuition discriminate|]);
      exact Hy. }
  split; [exact Hu|].
  destruct (undo_all calls world2_undone) as (w1 & w2 & H1 & H2 & H3 & H4 & _);
    [repeat constructor | exact Hu |].
  exists w1, w2. auto.
Defined.

(** ** Nothing is shared *)

Lemma stringify_flows_readable (h : list obj) o :
  is_Some (stringify_flows h o)
  <-> forall l, In l (map snd o) -> is_Some (reify h l).
Proof.
  induction o as [|[k l'] o IH]; cbn [stringify_flows map snd In].
  - split; [intros _ l [] | eauto].
  - split.
    + intros [j Hj] l Hl.
      destruct (reify h l') as [v|] eqn:E; [|discriminate].
      destruct (stringify_flows h o) as [r|] eqn:Er; [|discriminate].
      destruct Hl as [<-|Hl]; [rewrite E; eauto|].
      apply IH; eauto.
    + intros H. destruct (H l' (or_introl eq_refl)) as [v ->].
      destruct (proj2 IH (fun l Hl => H l (or_intror Hl))) as [r ->]. eauto.
Qed.

Lemma objects_readable w l :
  store_ok w -> In l (objects w) -> is_Some (reify (heap w) l).
Proof.
  intros (_ & _ & _ & Hj & Hst) Hl. unfold objects in Hl.
  apply in_app_or in Hl as [Hl|Hl].
  - apply (proj1 (stringify_flows_readable _ _) Hj l Hl).
  - rewrite List.Forall_forall in Hst. apply Hst. exact Hl.
Qed.

(** The store invariant, from the readability of the objects, when the
    flows object and the active id stay. *)
Lemma store_ok_readable w w' :
  store_ok w ->
  flows (state w') = flows (state w) ->
  activeFlowId (state w') = activeFlowId (state w) ->
  (forall l, In l (objects w') -> is_Some (reify (heap w') l)) ->
  store_ok w'.
Proof.
  intros (Ha & Hnd & Hemp & _ & _) Hfl Hid Hrd.
  unfold store_ok. rewrite Hfl, Hid.
  split; [exact Ha|]. split; [exact Hnd|]. split; [exact Hemp|]. split.
  - apply stringify_flows_readable. intros l Hl. apply Hrd.
    unfold objects. rewrite Hfl. apply in_or_app. left. exact Hl.
  - apply List.Forall_forall. intros c Hc. apply Hrd.
    unfold objects. apply in_or_app. right. exact Hc.
Qed.

(** Writes to the cells of one object [x] of the session leave the others
    as they are, and nothing gets shared. *)
Lemma edits_unshared x w w' :
  unshared w ->
  In x (objects w) ->
  edits x (heap w) (heap w') ->
  flows (state w') = flows (state w) ->
  activeFlowId (state w') = activeFlowId (state w) ->
  historyStack (state w') = historyStack (state w) ->
  redoStack (state w') = redoStack (state w) ->
  unshared w'
  /\ forall l, In l (objects w) -> l <> x ->
               reify (heap w') l = reify (heap w) l.
Proof.
  intros (Hs & Hnd & Hap) Hx Hed Hfl Hid Hh Hr.
  assert (Hobj : objects w' = objects w)
    by (unfold objects; rewrite Hfl, Hh, Hr; reflexivity).
  pose proof (objects_readable w x Hs Hx) as Hlive.
  destruct (edits_live x (heap w) Hlive (heap w') Hed) as (Hlive' & Hgrow & _).
  assert (Hold : forall l, In l (objects w) -> l <> x ->
             reify (heap w') l = reify (heap w) l
             /\ footprint (heap w') l = footprint (heap w) l).
  { intros l Hl Hne. destruct (objects_readable w l Hs Hl) as [u Hu].
    destruct (edits_frozen x (heap w) Hlive (heap w') l u Hed Hu
                (Hap l x Hl Hx Hne)) as [H1 H2].
    rewrite H1, Hu. auto. }
  assert (A : forall l, In l (objects w) -> l <> x -> apart (heap w') x l).
  { intros l Hl Hne y Hy Hy'. destruct (Hold l Hl Hne) as [_ Hf].
    rewrite Hf in Hy'. destruct (Hgrow y Hy) as [Hy1|Hy1].
    - apply (Hap x l Hx Hl (not_eq_sym Hne) y Hy1 Hy').
    - destruct (objects_readable w l Hs Hl) as [u Hu].
      pose proof (footprint_bound _ _ _ _ Hu Hy'). lia. }
  split; [|intros l Hl Hne; apply (Hold l Hl Hne)].
  split; [|rewrite Hobj; split; [exact Hnd|]].
  - apply (store_ok_readable w w' Hs Hfl Hid). rewrite Hobj. intros l Hl.
    destruct (Nat.eq_dec l x) as [->|Hne]; [exact Hlive'|].
    rewrite (proj1 (Hold l Hl Hne)). apply (objects_readable w l Hs Hl).
  - intros c l Hc Hl Hne.
    destruct (Nat.eq_dec c x) as [->|Hcx]; [apply A; auto|].
    destruct (Nat.eq_dec l x) as [->|Hlx]; [apply apart_sym, A; auto|].
    intros y Hy Hy'.
    rewrite (proj2 (Hold c Hc Hcx)) in Hy.
    rewrite (proj2 (Hold l Hl Hlx)) in Hy'.
    apply (Hap c l Hc Hl Hne y Hy Hy').
Qed.

(** Allocation: the objects that were there stay as they are; the new ones
    are made of new cells. *)
Lemma alloc_unshared (fresh : nat -> Prop) w w' ext :
  unshared w ->
  store_ok w' ->
  heap w' = heap w ++ ext ->
  NoDup (objects w') ->
  (forall l, In l (objects w') -> In l (objects w) \/ fresh l) ->
  (forall l y, fresh l -> In y (footprint (heap w') l) -> length (heap w) <= y) ->
  (forall a b, fresh a -> fresh b -> a <> b -> apart (heap w') a b) ->
  unshared w'.
Proof.
  intros (Hs & _ & Hap) Hs' Hheap Hnd Hfrom Hfresh Hpair.
  assert (Hold : forall l, In l (objects w) ->
             footprint (heap w') l = footprint (heap w) l
             /\ forall y, In y (footprint (heap w) l) -> y < length (heap w)).
  { intros l Hl. destruct (objects_readable w l Hs Hl) as [u Hu]. split.
    - rewrite Hheap. apply (footprint_app _ _ _ _ Hu).
    - intros y Hy. apply (footprint_bound _ _ _ _ Hu Hy). }
  assert (A : forall a b, In a (objects w) -> fresh b -> apart (heap w') a b).
  { intros a b Ha Hb y Hy Hy'. destruct (Hold a Ha) as [Hf Hlt].
    rewrite Hf in Hy. apply Hlt in Hy. apply (Hfresh b y Hb) in Hy'. lia. }
  split; [exact Hs'|]. split; [exact Hnd|].
  intros c l Hc Hl Hne.
  destruct (Hfrom c Hc) as [Hc'|Hc']; destruct (Hfrom l Hl) as [Hl'|Hl'].
  - intros y Hy Hy'. rewrite (proj1 (Hold c Hc')) in Hy.
    rewrite (proj1 (Hold l Hl')) in Hy'.
    apply (Hap c l Hc' Hl' Hne y Hy Hy').
  - apply A; assumption.
  - apply apart_sym, A; assumption.
  - apply Hpair; assumption.
Qed.

Lemma unshared_frame w w' :
  unshared w ->
  heap w' = heap w ->
  flows (state w') = flows (state w) ->
  activeFlowId (state w') = activeFlowId (state w) ->
  historyStack (state w') = historyStack (state w) ->
  redoStack (state w') = redoStack (state w) ->
  unshared w'.
Proof.
  intros (Hs & Hnd & Hap) Hheap Hfl Hid Hh Hr.
  assert (Hobj : objects w' = objects w)
    by (unfold objects; rewrite Hfl, Hh, Hr; reflexivity).
  split; [apply (store_ok_frame w); assumption|].
  rewrite Hobj, Hheap. auto.
Qed.

Lemma fresh_not_object w c :
  store_ok w -> length (heap w) <= c -> ~ In c (objects w).
Proof.
  intros Hs Hc Hin.
  pose proof (readable_bound _ _ (objects_readable w c Hs Hin)). lia.
Qed.

(** A checkpoint. *)
Lemma checkpoint_unshared w fl v :
  unshared w ->
  prop_get (key (activeFlowId (state w))) (flows (state w)) = Some fl ->
  reify (heap w) fl = Some v ->
  unshared (checkpointed v w).
Proof.
  intros Hu Hg Hr. pose proof Hu as (Hs & Hnd & _).
  set (c := snd (alloc_flow v (heap w))).
  assert (Hc : length (heap w) <= c)
    by (apply (footprint_alloc_flow v (heap w)), footprint_self).
  destruct (alloc_flow_extends v (heap w)) as [ext Hext].
  apply (alloc_unshared (eq c) w (checkpointed v w) ext Hu).
  - apply (store_ok_call v w); [exact Hs | apply call_effect_checkpointed].
  - exact Hext.
  - unfold objects, checkpointed. wsimpl. fold c. rewrite app_nil_r.
    unfold objects in Hnd. rewrite app_assoc in Hnd. rewrite app_assoc.
    apply NoDup_app in Hnd as (Hnd & _ & _).
    apply NoDup_app. split; [exact Hnd|]. split; [|apply NoDup_singleton].
    intros y Hy Hy'. apply list_elem_of_singleton in Hy'. subst y.
    apply (fresh_not_object w c Hs Hc). unfold objects. rewrite app_assoc.
    apply in_or_app. left. apply list_elem_of_In. exact Hy.
  - unfold objects, checkpointed. wsimpl. fold c. rewrite app_nil_r.
    intros l Hl. rewrite app_assoc in Hl. apply in_app_or in Hl as [Hl|[<-|[]]].
    + left. rewrite app_assoc. apply in_or_app. left. exact Hl.
    + right. reflexivity.
  - intros l y <- Hy. apply (footprint_alloc_flow v (heap w) y Hy).
  - intros a b <- <- Hne. congruence.
Qed.

Lemma appendMessage_unshared r t ex w :
  unshared w ->
  exists w' fl,
    appendMessage r t ex w = (Ok tt, w')
    /\ state w' = state w
    /\ unshared w'
    /\ prop_get (key (activeFlowId (state w))) (flows (state w)) = Some fl
    /\ forall l, In l (objects w) -> l <> fl ->
                 reify (heap w') l = reify (heap w) l.
Proof.
  intros Hu. pose proof Hu as (Hs & _).
  destruct (store_ok_active w Hs) as (fl & v & j & Ht & Hg & Hr & Hj).
  destruct (appendMessage_run w r t ex fl v j Ht Hg Hr Hj)
    as (w' & hl & Hrun & Hst & Hin & Hheap & _ & _ & _ & _ & Hm & _).
  assert (Hx : In fl (objects w)).
  { unfold objects. apply in_or_app. left.
    apply in_map_iff. exists (key (activeFlowId (state w)), fl).
    split; [reflexivity|]. clear - Hg.
    induction (flows (state w)) as [|[k' l'] o IH]; [discriminate|].
    cbn [prop_get] in Hg. destruct (String.eqb_spec k' (key (activeFlowId (state w)))).
    - injection Hg as ->. subst k'. left. reflexivity.
    - right. auto. }
  destruct (edits_unshared fl w w' Hu Hx) as [Hu' Hold];
    try (rewrite Hst; reflexivity).
  { rewrite Hheap. apply edits_write; [apply edits_refl | exact Hin | |].
    - eapply write_messages; exact Hm.
    - intros y Hy. left.
      rewrite (footprint_write_leaf _ _ _ (OMessages _) _ Hm I I) in Hy.
      exact Hy. }
  exists w', fl. auto.
Qed.

Lemma prop_get_loc k (o : list (string * nat)) l :
  prop_get k o = Some l -> In l (map snd o).
Proof.
  induction o as [|[k' l'] o IH]; [discriminate|]. cbn [prop_get map snd].
  destruct (k' =? k)%string; [intros [= ->]; left; reflexivity|].
  intros H. right. auto.
Qed.

(** A checkpoint followed by writes to the cells of one flow. *)
Lemma checkpoint_edits_unshared x v w w' fl :
  unshared w ->
  prop_get (key (activeFlowId (state w))) (flows (state w)) = Some fl ->
  reify (heap w) fl = Some v ->
  In x (map snd (flows (state w))) ->
  call_effect v w w' ->
  edits x (fst (alloc_flow v (heap w))) (heap w') ->
  unshared w'
  /\ forall l, In l (map snd (flows (state w)) ++ historyStack (state w)) ->
               l <> x -> reify (heap w') l = reify (heap w) l.
Proof.
  intros Hu Hg Hr Hx (Hfl & Hid & _ & _ & Hh & Hrs & _) Hed.
  pose proof Hu as (Hs & _).
  pose proof (checkpoint_unshared w fl v Hu Hg Hr) as Huc.
  destruct (edits_unshared x (checkpointed v w) w' Huc) as [Hu' Hold];
    try assumption.
  { unfold objects, checkpointed. wsimpl. apply in_or_app. left. exact Hx. }
  split; [exact Hu'|]. intros l Hl Hne.
  rewrite Hold; [| |exact Hne].
  - destruct (objects_readable w l Hs) as [u Hu0].
    { unfold objects. rewrite app_assoc. apply in_or_app. left. exact Hl. }
    rewrite Hu0. apply reify_alloc_old. exact Hu0.
  - unfold objects, checkpointed. wsimpl. rewrite app_nil_r, !app_assoc.
    apply in_or_app. left. exact Hl.
Qed.

Lemma handleFunctionCall_unshared now fc w :
  well_shaped fc = true ->
  unshared w ->
  exists w' fl,
    handleFunctionCall now fc w = (Ok tt, w')
    /\ unshared w'
    /\ isLoading (state w') = isLoading (state w)
    /\ aiChat (state w') = aiChat (state w)
    /\ prop_get (key (activeFlowId (state w))) (flows (state w)) = Some fl
    /\ forall l, In l (map snd (flows (state w)) ++ historyStack (state w)) ->
                 l <> fl -> reify (heap w') l = reify (heap w) l.
Proof.
  intros Hw Hu. pose proof Hu as (Hs & _).
  destruct (store_ok_active w Hs) as (fl & v & j & Ht & Hg & Hr & Hj).
  destruct (handleFunctionCall_edits w fl v j Ht Hg Hr Hj now fc Hw)
    as (w' & Hrun & Hc & Hed).
  destruct (checkpoint_edits_unshared fl v w w' fl Hu Hg Hr
              (prop_get_loc _ _ _ Hg) Hc Hed) as [Hu' Hold].
  exists w', fl. split; [exact Hrun|]. split; [exact Hu'|].
  destruct Hc as (_ & _ & Hl & Hai & _). auto.
Qed.

Lemma calls_unshared (calls : list (N * FunctionCall)) :
  Forall (fun c => well_shaped (snd c) = true) calls ->
  forall w,
    unshared w ->
    exists w',
      forM (fun c => handleFunctionCall (fst c) (snd c)) calls w = (Ok tt, w')
      /\ unshared w'.
Proof.
  induction 1 as [|[now fc] calls Hw _ IH]; intros w Hu; [eauto|].
  destruct (handleFunctionCall_unshared now fc w Hw Hu)
    as (w1 & fl & Hrun & Hu1 & _).
  destruct (IH w1 Hu1) as (w' & Hrun' & Hu').
  exists w'. split; [|exact Hu'].
  cbn [forM]. unfold bind. cbn [fst snd]. rewrite Hrun. exact Hrun'.
Qed.

Lemma unshared_loading b w : unshared w -> unshared (loading b w).
Proof. intros Hu. apply (unshared_frame w); auto. Qed.

Lemma awaitReply_unshared reply w :
  unshared w ->
  match reply with
  | Response _ calls => Forall (fun c => well_shaped (snd c) = true) calls
  | Rejected => True
  end ->
  exists w', awaitReply reply w = (Ok tt, w') /\ unshared w'.
Proof.
  intros Hu He.
  destruct (appendMessage_unshared model
              "apologies sprite*. an error occurred. please try again." None
              w Hu) as (wa & fa & Hruna & _ & Hua & _).
  assert (Hfail : forall e,
             try_finally
               (try_catch (throw e)
                  (fun _ =>
                     appendMessage model
                       "apologies sprite*. an error occurred. please try again."
                       None))
               (setLoading false) w = (Ok tt, loading false wa)).
  { intros e. unfold try_finally, try_catch, throw. rewrite Hruna. reflexivity. }
  unfold awaitReply.
  destruct (aiChat (state w)) as [ch|] eqn:Hch.
  - destruct reply as [text calls|].
    + assert (exists w2,
                 (match text with
                  | Some t => if truthy (Some t) then appendMessage model t None
                              else ret tt
                  | None => ret tt
                  end) w = (Ok tt, w2) /\ unshared w2) as (w2 & Htext & Hu2).
      { destruct text as [t|]; [|exists w; auto].
        destruct (truthy (Some t)); [|exists w; auto].
        destruct (appendMessage_unshared model t None w Hu)
          as (w2 & f2 & ? & _ & ? & _).
        eauto. }
      destruct (calls_unshared calls He w2 Hu2) as (w3 & Hrun & Hu3).
      exists (loading false w3). split; [|apply unshared_loading; exact Hu3].
      unfold try_finally, try_catch. unfold bind at 1, get. rewrite Hch.
      unfold bind at 1. rewrite Htext, Hrun. reflexivity.
    + exists (loading false wa). split; [|apply unshared_loading; exact Hua].
      rewrite <- (Hfail GatewayError).
      unfold try_finally, try_catch. unfold bind at 1, get. rewrite Hch.
      reflexivity.
  - exists (loading false wa). split; [|apply unshared_loading; exact Hua].
    rewrite <- (Hfail TypeError).
    unfold try_finally, try_catch. unfold bind at 1, get. rewrite Hch.
    reflexivity.
Qed.

Lemma handleFormSubmit_unshared input reply w :
  unshared w ->
  match reply with
  | Response _ calls => Forall (fun c => well_shaped (snd c) = true) calls
  | Rejected => True
  end ->
  exists w', handleFormSubmit input reply w = (Ok tt, w') /\ unshared w'.
Proof.
  intros Hu He. pose proof Hu as (Hs & _).
  destruct (isLoading (state w)) eqn:Hl.
  { exists w. split; [|exact Hu]. unfold handleFormSubmit. mred.
    rewrite Hl. reflexivity. }
  destruct (trim input =? "")%string eqn:Hb.
  { exists w. split; [|exact Hu]. unfold handleFormSubmit. mred.
    rewrite Hl. cbn [truthy]. rewrite Hb. reflexivity. }
  destruct (store_ok_active w Hs) as (fl & v & j & Ht & Hg & Hr & Hj).
  destruct (acceptSubmission_effect w fl v j Ht Hg Hr Hj (trim input))
    as (w1 & Hacc & Hc & _ & _ & _ & _ & Hed).
  destruct (checkpoint_edits_unshared fl v w w1 fl Hu Hg Hr
              (prop_get_loc _ _ _ Hg) Hc Hed) as [Hu1 _].
  destruct (awaitReply_unshared reply (loading true w1)) as (w' & Hrun & Hu');
    [apply unshared_loading; exact Hu1 | exact He |].
  exists w'. split; [|exact Hu'].
  rewrite handleFormSubmit_accept;
    [|exact Hl | apply String.eqb_neq; exact Hb].
  unfold bind. rewrite Hacc. exact Hrun.
Qed.

Lemma prop_set_locs_In k p (o : list (string * nat)) l :
  In l (map snd (prop_set k p o)) -> l = p \/ In l (map snd o).
Proof.
  induction o as [|[k' l'] o IH]; cbn [prop_set map snd].
  - intros [<-|[]]. left. reflexivity.
  - destruct (k' =? k)%string; cbn [map snd In].
    + intros [<-|H]; auto.
    + intros [<-|H]; [auto|]. destruct (IH H); auto.
Qed.

Lemma prop_set_locs_NoDup k p (o : list (string * nat)) :
  NoDup (map snd o) -> ~ In p (map snd o) -> NoDup (map snd (prop_set k p o)).
Proof.
  induction o as [|[k' l'] o IH]; cbn [prop_set map snd].
  - intros _ _. apply NoDup_singleton.
  - intros Hnd Hp. apply NoDup_cons in Hnd as [Hn Hnd].
    rewrite list_elem_of_In in Hn. cbn [In] in Hp.
    destruct (k' =? k)%string; cbn [map snd]; apply NoDup_cons;
      rewrite list_elem_of_In.
    + split; [tauto | exact Hnd].
    + split; [|apply IH; tauto].
      intros H. apply prop_set_locs_In in H as [->|H]; tauto.
Qed.

(** Undo and Redo: the active Flow object changes places with an entry of
    a stack, and the copy of it that goes to the other stack is new. *)
Lemma swap_unshared w w' p v (H' R' : list nat) :
  unshared w ->
  store_ok w' ->
  heap w' = fst (alloc_flow v (heap w)) ->
  flows (state w')
  = prop_set (key (activeFlowId (state w))) p (flows (state w)) ->
  historyStack (state w') = H' ->
  redoStack (state w') = R' ->
  In p (historyStack (state w) ++ redoStack (state w)) ->
  NoDup (H' ++ R') ->
  (forall l, In l (H' ++ R') ->
             (In l (historyStack (state w) ++ redoStack (state w)) /\ l <> p)
             \/ l = snd (alloc_flow v (heap w))) ->
  unshared w'.
Proof.
  intros Hu Hs' Hheap Hfl Hh Hr Hp Hnd' Hfrom. pose proof Hu as (Hs & Hnd & _).
  set (c := snd (alloc_flow v (heap w))) in *.
  assert (Hc : length (heap w) <= c)
    by (apply (footprint_alloc_flow v (heap w)), footprint_self).
  pose proof (fresh_not_object w c Hs Hc) as Hcn.
  destruct (alloc_flow_extends v (heap w)) as [ext Hext].
  unfold objects in Hnd, Hcn.
  apply NoDup_app in Hnd as (Hnd1 & Hnd2 & Hnd3).
  assert (HpF : ~ In p (map snd (flows (state w)))).
  { intros Hin. apply (Hnd2 p); apply list_elem_of_In; assumption. }
  apply (alloc_unshared (eq c) w w' ext Hu Hs').
  - rewrite Hheap. exact Hext.
  - unfold objects. rewrite Hfl, Hh, Hr. apply NoDup_app.
    split; [apply prop_set_locs_NoDup; assumption|]. split; [|exact Hnd'].
    intros y Hy Hy'. apply list_elem_of_In in Hy, Hy'.
    apply prop_set_locs_In in Hy as [->|Hy];
      destruct (Hfrom _ Hy') as [[Hold Hne]| ->].
    + congruence.
    + apply Hcn. apply in_or_app. right. exact Hp.
    + apply (Hnd2 y); apply list_elem_of_In; assumption.
    + apply Hcn. apply in_or_app. left. exact Hy.
  - unfold objects. rewrite Hfl, Hh, Hr. intros l Hl.
    apply in_app_or in Hl as [Hl|Hl].
    + left. apply prop_set_locs_In in Hl as [->|Hl]; apply in_or_app; auto.
    + destruct (Hfrom l Hl) as [[Hold _]| ->];
        [left; apply in_or_app; auto | right; reflexivity].
  - intros l y <- Hy. rewrite Hheap in Hy.
    apply (footprint_alloc_flow v (heap w) y Hy).
  - intros a b <- <- Hne. congruence.
Qed.

Lemma handleUndo_unshared w :
  unshared w -> exists w', handleUndo w = (Ok tt, w') /\ unshared w'.
Proof.
  intros Hu. pose proof Hu as (Hs & Hnd & _).
  destruct (historyStack (state w)) as [|x0 l0] eqn:E.
  { exists w. split; [|exact Hu]. unfold handleUndo. mred. rewrite E.
    reflexivity. }
  assert (Hne : x0 :: l0 <> []) by discriminate.
  destruct (exists_last Hne) as (hs & p & Hl). rewrite Hl in E. clear Hne Hl.
  destruct (store_ok_active w Hs) as (fl & v & j & Ht & Hg & Hr & Hj).
  assert (Hp : In p (historyStack (state w) ++ redoStack (state w))).
  { rewrite E. apply in_or_app. left. apply in_or_app. right. left.
    reflexivity. }
  destruct (objects_readable w p Hs) as [pv Hpv];
    [unfold objects; apply in_or_app; right; exact Hp|].
  destruct (handleUndo_run w fl v hs p pv j Hg Hr E Hpv Hj)
    as (w' & Hrun & Hheap & Hfl & Hid & Hh & Hrs & _).
  destruct (handleUndo_store_ok w Hs) as (w'' & Hrun'' & Hs').
  assert (w'' = w') as -> by congruence.
  exists w'. split; [exact Hrun|].
  unfold objects in Hnd. rewrite E in Hnd.
  apply NoDup_app in Hnd as (_ & _ & Hnd).
  apply NoDup_app in Hnd as (Hn1 & Hn2 & Hn3).
  apply NoDup_app in Hn1 as (Hn4 & Hn5 & _).
  assert (Hc : length (heap w) <= snd (alloc_flow v (heap w)))
    by (apply (footprint_alloc_flow v (heap w)), footprint_self).
  pose proof (fresh_not_object w _ Hs Hc) as Hcn. unfold objects in Hcn.
  apply (swap_unshared w w' p v hs
           (redoStack (state w) ++ [snd (alloc_flow v (heap w))])
           Hu Hs' Hheap Hfl Hh Hrs Hp).
  - rewrite app_assoc. apply NoDup_app.
    split; [|split; [|apply NoDup_singleton]].
    + apply NoDup_app. split; [exact Hn4|]. split; [|exact Hn3].
      intros y Hy. apply Hn2. apply elem_of_app. left. exact Hy.
    + intros y Hy Hy'. apply list_elem_of_singleton in Hy'. subst y.
      apply Hcn. apply in_or_app. right. rewrite E.
      apply list_elem_of_In in Hy. apply in_app_or in Hy as [Hy|Hy];
        apply in_or_app; [left; apply in_or_app; left|right]; exact Hy.
  - intros l Hl. rewrite app_assoc in Hl.
    apply in_app_or in Hl as [Hl|[<-|[]]]; [left|right; reflexivity].
    rewrite E. apply in_app_or in Hl as [Hl|Hl].
    + split; [apply in_or_app; left; apply in_or_app; left; exact Hl|].
      intros ->. apply (Hn5 p); [apply list_elem_of_In; exact Hl|].
      apply list_elem_of_singleton. reflexivity.
    + split; [apply in_or_app; right; exact Hl|].
      intros ->. apply (Hn2 p); [|apply list_elem_of_In; exact Hl].
      apply elem_of_app. right. apply list_elem_of_singleton. reflexivity.
Qed.

Lemma handleRedo_unshared w :
  unshared w -> exists w', handleRedo w = (Ok tt, w') /\ unshared w'.
Proof.
  intros Hu. pose proof Hu as (Hs & Hnd & _).
  destruct (redoStack (state w)) as [|x0 l0] eqn:E.
  { exists w. split; [|exact Hu]. unfold handleRedo. mred. rewrite E.
    reflexivity. }
  assert (Hne : x0 :: l0 <> []) by discriminate.
  destruct (exists_last Hne) as (rs & n & Hl). rewrite Hl in E. clear Hne Hl.
  destruct (store_ok_active w Hs) as (fl & v & j & Ht & Hg & Hr & Hj).
  assert (Hp : In n (historyStack (state w) ++ redoStack (state w))).
  { rewrite E. apply in_or_app. right. apply in_or_app. right. left.
    reflexivity. }
  destruct (objects_readable w n Hs) as [nv Hnv];
    [unfold objects; apply in_or_app; right; exact Hp|].
  destruct (handleRedo_run w fl v rs n nv j Hg Hr E Hnv Hj)
    as (w' & Hrun & Hheap & Hfl & Hid & Hrs & Hh & _).
  destruct (handleRedo_store_ok w Hs) as (w'' & Hrun'' & Hs').
  assert (w'' = w') as -> by congruence.
  exists w'. split; [exact Hrun|].
  unfold objects in Hnd. rewrite E in Hnd.
  apply NoDup_app in Hnd as (_ & _ & Hnd).
  apply NoDup_app in Hnd as (Hn1 & Hn2 & Hn3).
  apply NoDup_app in Hn3 as (Hn4 & Hn5 & _).
  assert (Hc : length (heap w) <= snd (alloc_flow v (heap w)))
    by (apply (footprint_alloc_flow v (heap w)), footprint_self).
  pose proof (fresh_not_object w _ Hs Hc) as Hcn. unfold objects in Hcn.
  apply (swap_unshared w w' n v
           (historyStack (state w) ++ [snd (alloc_flow v (heap w))]) rs
           Hu Hs' Hheap Hfl Hh Hrs Hp).
  - apply NoDup_app. split; [|split; [|exact Hn4]].
    + apply NoDup_app. split; [exact Hn1|]. split; [|apply NoDup_singleton].
      intros y Hy Hy'. apply list_elem_of_singleton in Hy'. subst y.
      apply Hcn. apply in_or_app. right. apply in_or_app. left.
      apply list_elem_of_In. exact Hy.
    + intros y Hy Hy'. apply elem_of_app in Hy as [Hy|Hy].
      * apply (Hn2 y Hy). apply elem_of_app. left. exact Hy'.
      * apply list_elem_of_singleton in Hy. subst y.
        apply Hcn. apply in_or_app. right. rewrite E.
        apply in_or_app. right. apply in_or_app. left.
        apply list_elem_of_In. exact Hy'.
  - intros l Hl. apply in_app_or in Hl as [Hl|Hl].
    + apply in_app_or in Hl as [Hl|[<-|[]]]; [left|right; reflexivity].
      split; [apply in_or_app; left; exact Hl|].
      intros ->. apply (Hn2 n); [apply list_elem_of_In; exact Hl|].
      apply elem_of_app. right. apply list_elem_of_singleton. reflexivity.
    + left. rewrite E.
      split; [apply in_or_app; right; apply in_or_app; left; exact Hl|].
      intros ->. apply (Hn5 n); [apply list_elem_of_In; exact Hl|].
      apply list_elem_of_singleton. reflexivity.
Qed.

Lemma tab_onclick_unshared artifactId w :
  unshared w -> exists w', tab_onclick artifactId w = (Ok tt, w') /\ unshared w'.
Proof.
  intros Hu. pose proof Hu as (Hs & _).
  destruct (store_ok_active w Hs) as (fl & v & j & _ & _ & _ & Hj).
  eexists. split.
  - unfold tab_onclick. mred. unfold saveFlows. wsimpl. rewrite Hj.
    reflexivity.
  - apply (unshared_frame w); auto.
Qed.

(** With the stacks emptied, and flows taken away. *)
Lemma unshared_fewer w w' ext :
  unshared w ->
  store_ok w' ->
  heap w' = heap w ++ ext ->
  NoDup (map snd (flows (state w'))) ->
  (forall l, In l (map snd (flows (state w'))) ->
             In l (map snd (flows (state w)))) ->
  historyStack (state w') = [] ->
  redoStack (state w') = [] ->
  unshared w'.
Proof.
  intros Hu Hs' Hheap Hnd Hsub Hh Hr.
  assert (Hobj : objects w' = map snd (flows (state w')))
    by (unfold objects; rewrite Hh, Hr, app_nil_r; reflexivity).
  apply (alloc_unshared (fun _ => False) w w' ext Hu Hs' Hheap).
  - rewrite Hobj. exact Hnd.
  - rewrite Hobj. intros l Hl. left. unfold objects. apply in_or_app. left.
    auto.
  - intros l y [].
  - intros a b [].
Qed.

Lemma switchFlow_unshared id w :
  unshared w ->
  In id (Object_keys (flows (state w))) ->
  exists w', detach (switchFlow id) w = (Ok tt, w') /\ unshared w'.
Proof.
  intros Hu Hin. pose proof Hu as (Hs & Hnd & _).
  destruct (switchFlow_store_ok id w Hs Hin) as (w' & Hrun & Hs').
  exists w'. split; [exact Hrun|].
  destruct (strict_eq id (activeFlowId (state w))) eqn:He.
  { assert (w' = w) as ->; [|exact Hu].
    revert Hrun. unfold detach, switchFlow. mred. rewrite He. congruence. }
  destruct (store_ok_active w Hs) as (fl & v & j & _ & _ & _ & Hj).
  set (w1 := set_localStorage
               {| fluid_flows_other := None;
                  fluid_flows := Some j; fluid_active_flow_id := Some id |}
               (set_state (set_activeFlowId (Some id) (state w)) w)).
  assert (Hv : view_only (reset_stacks false w1) w').
  { revert Hrun. unfold detach, switchFlow. mred. rewrite He. mred. wsimpl.
    rewrite (saveFlows_run _ j) by exact Hj.
    match goal with
    | |- context [initializeChat false ?X] => change X with w1
    end.
    destruct (initializeChat false w1) as [r w2] eqn:E.
    pose proof (initializeChat_frame _ _ _ _ E) as Hv.
    destruct r as [[]| |]; intros [= <-]; exact Hv. }
  destruct Hv as (V1 & V2 & V3 & V4 & V5 & _).
  unfold reset_stacks, w1 in V1, V2, V3, V4, V5. wsimpl.
  apply (unshared_fewer w w' [] Hu Hs'); try assumption.
  - rewrite app_nil_r. exact V1.
  - rewrite V2. unfold objects in Hnd. apply NoDup_app in Hnd as (H & _).
    exact H.
  - rewrite V2. auto.
Qed.

Lemma prop_delete_locs_In k (o : list (string * nat)) l :
  In l (map snd (prop_delete k o)) -> In l (map snd o).
Proof.
  unfold prop_delete. rewrite !in_map_iff.
  intros (p & Hp & Hin). apply filter_In in Hin as [Hin _]. eauto.
Qed.

Lemma prop_delete_locs_NoDup k (o : list (string * nat)) :
  NoDup (map snd o) -> NoDup (map snd (prop_delete k o)).
Proof.
  induction o as [|[k' l'] o IH]; [trivial|]. cbn [map snd].
  intros Hnd. apply NoDup_cons in Hnd as [Hn Hnd].
  unfold prop_delete. cbn [List.filter fst].
  destruct (negb (k' =? k)%string); [|apply IH; exact Hnd].
  cbn [map snd]. apply NoDup_cons. split; [|apply IH; exact Hnd].
  intros Hin. apply Hn. apply list_elem_of_In in Hin.
  apply prop_delete_locs_In in Hin. apply list_elem_of_In. exact Hin.
Qed.

Lemma deleteFlow_unshared id confirmed w :
  unshared w ->
  In id (Object_keys (flows (state w))) ->
  exists r w', deleteFlow id confirmed w = (Ok r, w') /\ unshared w'.
Proof.
  intros Hu Hin. pose proof Hu as (Hs & Hnd & _).
  destruct (deleteFlow_store_ok id confirmed w Hs Hin) as (r & w' & Hrun & Hs').
  exists r, w'. split; [exact Hrun|].
  destruct (length (Object_keys (flows (state w))) <=? 1)%nat eqn:Hlen.
  { assert (w' = w) as ->; [|exact Hu].
    revert Hrun. unfold deleteFlow. mred. rewrite Hlen. congruence. }
  apply Nat.leb_gt in Hlen.
  apply prop_get_In in Hin as [l Hid].
  destruct confirmed.
  2:{ assert (w' = w) as ->; [|exact Hu].
      revert Hrun. unfold deleteFlow. mred.
      replace (length (Object_keys (flows (state w))) <=? 1)%nat with false
        by (symmetry; apply Nat.leb_gt; lia).
      rewrite Hid. congruence. }
  destruct (store_ok_active w Hs) as (fl & v & j & Ht & Hg & Hr & Hj).
  destruct (deleteFlow_effect id w fl v j l Hlen Hid Ht Hg Hr Hj)
    as (w'' & Hrun'' & Hfl & _ & _ & Hheap & Hh & Hrs).
  assert (w'' = w') as -> by congruence.
  destruct (alloc_flow_extends v (heap w)) as [ext Hext].
  apply (unshared_fewer w w' ext Hu Hs'); try assumption.
  - rewrite Hheap. exact Hext.
  - rewrite Hfl. apply prop_delete_locs_NoDup.
    unfold objects in Hnd. apply NoDup_app in Hnd as (H & _). exact H.
  - rewrite Hfl. apply prop_delete_locs_In.
Qed.

Lemma createNewFlow_unshared now w :
  unshared w -> exists w', createNewFlow now w = (Ok tt, w') /\ unshared w'.
Proof.
  intros Hu. pose proof Hu as (Hs & Hnd & _).
  destruct (createNewFlow_effect now w Hs)
    as (w' & nfl & ext & Hrun & Hs' & Hfl & Hheap & Hh & Hr & Hnew).
  exists w'. split; [exact Hrun|].
  assert (Hobj : objects w' = map snd (flows (state w')))
    by (unfold objects; rewrite Hh, Hr, app_nil_r; reflexivity).
  assert (Hn : ~ In nfl (objects w)).
  { apply (fresh_not_object w nfl Hs). apply Hnew. apply footprint_self. }
  unfold objects in Hnd, Hn. apply NoDup_app in Hnd as (HndF & _).
  apply (alloc_unshared (eq nfl) w w' ext Hu Hs' Hheap).
  - rewrite Hobj, Hfl. apply prop_set_locs_NoDup; [exact HndF|].
    intros H. apply Hn. apply in_or_app. left. exact H.
  - rewrite Hobj, Hfl. intros l Hl.
    apply prop_set_locs_In in Hl as [->|Hl]; [right; reflexivity|].
    left. unfold objects. apply in_or_app. left. exact Hl.
  - intros l y <- Hy. apply Hnew. exact Hy.
  - intros a b <- <- Hne. congruence.
Qed.

Lemma renameFlow_unshared id answer w :
  unshared w ->
  In id (Object_keys (flows (state w))) ->
  exists w', renameFlow id answer w = (Ok tt, w') /\ unshared w'.
Proof.
  intros Hu Hin. pose proof Hu as (Hs & _).
  destruct (renameFlow_effect id answer w Hs Hin)
    as (w' & fl & v & fl2 & Hrun & Hg & Hr & Hid & Hc & Hed).
  exists w'. split; [exact Hrun|].
  apply (checkpoint_edits_unshared fl2 v w w' fl Hu Hg Hr
           (prop_get_loc _ _ _ Hid) Hc Hed).
Qed.

Lemma saveBtn_onclick_unshared artifactId edited w :
  unshared w ->
  exists w', saveBtn_onclick artifactId edited w = (Ok tt, w') /\ unshared w'.
Proof.
  intros Hu. pose proof Hu as (Hs & _).
  destruct edited as [text|]; [|exists w; auto].
  destruct (saveBtn_onclick_effect artifactId text w Hs)
    as (w' & fl & v & Hrun & Hg & Hr & Hc & Hed).
  exists w'. split; [exact Hrun|].
  apply (checkpoint_edits_unshared fl v w w' fl Hu Hg Hr
           (prop_get_loc _ _ _ Hg) Hc Hed).
Qed.

Lemma dispatch_unshared e w :
  unshared w -> expected e w ->
  exists w', dispatch e w = (Ok tt, w') /\ unshared w'.
Proof.
  intros Hu He.
  destruct e as [input reply| | |now|flowItem action answer c|a|a ed];
    cbn [dispatch].
  - destruct (handleFormSubmit_unshared input reply w Hu) as (w' & Hrun & Hu').
    { destruct reply; [exact He | exact I]. }
    exists w'. split; [|exact Hu']. unfold detach. rewrite Hrun. reflexivity.
  - apply handleUndo_unshared. exact Hu.
  - apply handleRedo_unshared. exact Hu.
  - apply createNewFlow_unshared. exact Hu.
  - unfold handleFlowListClick. destruct flowItem as [id|]; [|exists w; auto].
    cbn [expected] in He.
    destruct (strict_eq "rename" action);
      [apply renameFlow_unshared; assumption|].
    destruct (strict_eq "delete" action);
      [|apply switchFlow_unshared; assumption].
    destruct (deleteFlow_unshared id c w Hu He) as (r & w' & Hrun & Hu').
    exists w'. split; [|exact Hu']. unfold bind. rewrite Hrun. reflexivity.
  - apply tab_onclick_unshared. exact Hu.
  - apply saveBtn_onclick_unshared. exact Hu.
Qed.

Lemma insert_index_locs_In n k p (o : list (string * nat)) l :
  In l (map snd (insert_index n k p o)) -> l = p \/ In l (map snd o).
Proof.
  induction o as [|[k0 l0] o IH]; cbn [insert_index map snd In].
  - intros [<-|[]]. left. reflexivity.
  - destruct (array_index k0) as [n0|]; [destruct (n0 <? n)%N|];
      cbn [map snd In]; try (intros [<-|H]; auto).
    destruct (IH H); auto.
Qed.

Lemma insert_index_locs_NoDup n k p (o : list (string * nat)) :
  NoDup (map snd o) -> ~ In p (map snd o) ->
  NoDup (map snd (insert_index n k p o)).
Proof.
  induction o as [|[k0 l0] o IH]; cbn [insert_index map snd].
  - intros _ _. apply NoDup_singleton.
  - intros Hnd Hp.
    assert (Hc : NoDup (map snd ((k, p) :: (k0, l0) :: o))).
    { cbn [map snd]. apply NoDup_cons.
      split; [rewrite list_elem_of_In; exact Hp | exact Hnd]. }
    destruct (array_index k0) as [n0|]; [destruct (n0 <? n)%N|]; try exact Hc.
    apply NoDup_cons in Hnd as [Hn Hnd]. rewrite list_elem_of_In in Hn.
    cbn [In] in Hp. cbn [map snd]. apply NoDup_cons. split.
    + rewrite list_elem_of_In. intros H.
      apply insert_index_locs_In in H as [->|H]; tauto.
    + apply IH; tauto.
Qed.

Lemma define_property_locs_In k p (o : list (string * nat)) l :
  In l (map snd (define_property k p o)) -> l = p \/ In l (map snd o).
Proof.
  unfold define_property. destruct (prop_get k o);
    [apply prop_set_locs_In|].
  destruct (array_index k);
    [apply insert_index_locs_In | apply prop_set_locs_In].
Qed.

Lemma define_property_locs_NoDup k p (o : list (string * nat)) :
  NoDup (map snd o) -> ~ In p (map snd o) ->
  NoDup (map snd (define_property k p o)).
Proof.
  unfold define_property. destruct (prop_get k o);
    [apply prop_set_locs_NoDup|].
  destruct (array_index k);
    [apply insert_index_locs_NoDup | apply prop_set_locs_NoDup].
Qed.

(** Flows that are different objects, readable, no two with a cell in
    common. *)
Local Abbreviation flows_apart o h :=
  (NoDup (map snd o)
   /\ (forall l, In l (map snd o) -> is_Some (reify h l))
   /\ (forall c l, In c (map snd o) -> In l (map snd o) -> c <> l ->
                   apart h c l)).

Lemma alloc_flows_apart : forall j (o : list (string * nat)) (h : list obj),
  flows_apart o h ->
  flows_apart (fst (alloc_flows j o h)) (snd (alloc_flows j o h)).
Proof.
  induction j as [|[k v] j IH]; intros o h (Hnd & Hrd & Hap);
    cbn [alloc_flows]; [auto|].
  apply IH. clear IH.
  set (c := snd (alloc_flow v h)). set (h' := fst (alloc_flow v h)).
  assert (Hc : forall y, In y (footprint h' c) -> length h <= y)
    by (intros y; apply footprint_alloc_flow).
  assert (Hcn : ~ In c (map snd o)).
  { intros Hin. pose proof (readable_bound _ _ (Hrd c Hin)).
    pose proof (Hc c (footprint_self _ _)). lia. }
  assert (Hold : forall l, In l (map snd o) ->
             footprint h' l = footprint h l
             /\ forall y, In y (footprint h l) -> y < length h).
  { intros l Hl. split; [apply footprint_alloc_old; auto|].
    destruct (Hrd l Hl) as [u Hu]. intros y.
    apply (footprint_bound _ _ _ _ Hu). }
  assert (A : forall l, In l (map snd o) -> apart h' l c).
  { intros l Hl y Hy Hy'. destruct (Hold l Hl) as [Hf Hlt].
    rewrite Hf in Hy. apply Hlt in Hy. apply Hc in Hy'. lia. }
  split; [apply define_property_locs_NoDup; assumption|]. split.
  - intros l Hl. apply define_property_locs_In in Hl as [->|Hl].
    + exists v. apply reify_alloc_flow.
    + destruct (Hrd l Hl) as [u Hu]. exists u. apply reify_alloc_old. exact Hu.
  - intros a b Ha Hb Hne.
    apply define_property_locs_In in Ha as [->|Ha];
      apply define_property_locs_In in Hb as [->|Hb].
    + congruence.
    + apply apart_sym, A. exact Hb.
    + apply A. exact Ha.
    + intros y Hy Hy'. rewrite (proj1 (Hold a Ha)) in Hy.
      rewrite (proj1 (Hold b Hb)) in Hy'. apply (Hap a b Ha Hb Hne y Hy Hy').
Qed.

Lemma loadFlows_flows_apart now w w' :
  loadable (localStorage w) ->
  loadFlows now w = (Ok tt, w') ->
  flows_apart (flows (state w')) (heap w').
Proof.
  intros Hty Hrun.
  destruct (loadFlows_run now w Hty) as (w'' & Hrun' & Hne & He & _).
  assert (w'' = w') as -> by congruence.
  destruct (fst (parsed w)) as [|p o] eqn:Eo.
  - destruct (He eq_refl) as [-> ->]. cbn [map snd]. split; [|split].
    + apply NoDup_singleton.
    + intros l [<-|[]]. rewrite reify_empty_flow. eauto.
    + intros c l [<-|[]] [<-|[]] H. congruence.
  - destruct Hne as [Hf Hheap]; [discriminate|]. rewrite Hf, Hheap.
    destruct (fluid_flows (localStorage w)) as [j|]; [|discriminate].
    rewrite <- Eo. apply alloc_flows_apart. cbn [map].
    split; [constructor|]. split; [intros l []|intros c l []].
Qed.

Lemma init_unshared now w :
  startable (localStorage w) ->
  exists r w',
    init now w = (r, w') /\ r <> Stuck /\ unshared w'
    /\ historyStack (state w') = [] /\ redoStack (state w') = [].
Proof.
  intros (Hty & Hkeys & Hinh).
  destruct (loadFlows_store now w Hty Hinh)
    as (w1 & Hrun & Hnd & Hj & (k & Hk & Hin & _) & Hfrom).
  destruct (loadFlows_flows_apart now w w1 Hty Hrun) as (Hnd1 & _ & Hap1).
  destruct (initializeChat false w1) as [r w'] eqn:E.
  pose proof (initializeChat_frame _ _ _ _ E) as (V1 & V2 & V3 & V4 & V5 & _).
  unfold reset_stacks in V1, V2, V3, V4, V5. wsimpl.
  assert (Hemp : ~ In "" (Object_keys (flows (state w1)))).
  { intros H. destruct (Hfrom _ H) as [H0|H0]; [discriminate|].
    exact (Hkeys H0). }
  exists r, w'. split; [unfold init, bind; rewrite Hrun; exact E|].
  split.
  { intros ->. apply (initializeChat_not_stuck false w1 w'); [|exact E].
    destruct Hj as [j Hj]. apply (stringify_active_readable w1 j). exact Hj. }
  assert (Hobj : objects w' = map snd (flows (state w1)))
    by (unfold objects; rewrite V2, V4, V5, app_nil_r; reflexivity).
  split; [|split; [exact V4 | exact V5]].
  split; [|rewrite Hobj, V1; auto].
  unfold store_ok. rewrite V1, V2, V3, V4, V5.
  split; [|split; [exact Hnd|split; [exact Hemp|split; [exact Hj|constructor]]]].
  exists k. split; [exact Hk|]. split; [|exact Hin].
  intros ->. apply Hemp. exact Hin.
Qed.

Lemma unshared_undo_ok w : unshared w -> undo_ok w.
Proof.
  intros (Hs & Hnd & Hap). split; [exact Hs|].
  destruct (store_ok_active w Hs) as (fl & _ & _ & _ & Hg & _).
  pose proof (prop_get_loc _ _ _ Hg) as HF.
  assert (Hsub : forall c, In c (fl :: historyStack (state w)) ->
                           In c (objects w)).
  { intros c [<-|Hc]; unfold objects; apply in_or_app; [left; exact HF|].
    right. apply in_or_app. left. exact Hc. }
  exists fl. split; [exact Hg|]. split; [|intros c l Hc Hl; apply Hap; auto].
  unfold objects in Hnd. apply NoDup_app in Hnd as (_ & Hd & Hnd).
  apply NoDup_app in Hnd as (Hnd & _ & _).
  apply NoDup_cons. split; [|exact Hnd].
  intros Hin. apply (Hd fl); [apply list_elem_of_In; exact HF|].
  apply elem_of_app. left. exact Hin.
Qed.

(** X15. Start-up establishes the store invariant.  Whatever the session
    was, and for storage a session can start from (the item [fluid_flows]
    missing, no JSON, or an object of Flows none of which has the empty
    key; a stored active id that is not the name of a member of
    [Object.prototype] unless a stored flow has it as its key), [init]
    does not get stuck and ends with a store that has an active flow id,
    not empty, that is the key of a flow, distinct keys, every flow
    readable, and both stacks empty; the flows are different objects with
    no cell in common, and the undo stack is sound to start with. *)
Theorem init_establishes_store now w :
  startable (localStorage w) ->
  exists r w',
    init now w = (r, w')
    /\ r <> Stuck
    /\ store_ok w'
    /\ historyStack (state w') = []
    /\ redoStack (state w') = []
    /\ undo_ok w'
    /\ unshared w'.
Proof.
  intros Hst.
  destruct (init_unshared now w Hst) as (r & w' & Hrun & Hr & Hu & Hh & Hrd).
  exists r, w'. split; [exact Hrun|]. split; [exact Hr|].
  split; [exact (proj1 Hu)|]. split; [exact Hh|]. split; [exact Hrd|].
  split; [apply unshared_undo_ok; exact Hu | exact Hu].
Qed.

Lemma init_establishes_store_witness :
  exists r w',
    init 1699902000000 world_fresh_session = (r, w')
    /\ r <> Stuck
    /\ store_ok w'
    /\ historyStack (state w') = []
    /\ redoStack (state w') = []
    /\ undo_ok w'
    /\ unshared w'.
Proof.
  apply (init_establishes_store 1699902000000 world_fresh_session).
  split; [intros [=]|]. split.
  - intros [H|[H|[]]]; discriminate.
  - intros a [= <-] [=].
Defined.

(** X19. Nothing gets shared.  In a state where the flows and the
    snapshots on the two stacks are different objects, no two of which have
    an array, an artifact or any other cell in common, every event the page
    can get there (a click in the flow list being on the item of a flow of
    the store) completes and leaves a state like that, and so does every
    session of such events; and the undo stack is sound in every such
    state. *)
Theorem nothing_shared :
  (forall es w,
     unshared w -> session es w ->
     exists w', forM dispatch es w = (Ok tt, w') /\ unshared w')
  /\ (forall w, unshared w -> undo_ok w).
Proof.
  split; [|exact unshared_undo_ok].
  induction es as [|e es IH]; intros w Hu Hse; [exists w; auto|].
  destruct Hse as [He Hrest].
  destruct (dispatch_unshared e w Hu He) as (w1 & Hrun & Hu1).
  destruct (IH w1 Hu1 (Hrest w1 Hrun)) as (w' & Hrun' & Hu').
  exists w'. split; [|exact Hu'].
  cbn [forM]. unfold bind. rewrite Hrun. exact Hrun'.
Qed.

(** X20. A tool call touches the active Flow only: every other flow, and
    every snapshot on the undo stack, holds after the call exactly what it
    held before. *)
Theorem tool_call_touches_active_only now fc w :
  well_shaped fc = true ->
  unshared w ->
  exists w' fl,
    handleFunctionCall now fc w = (Ok tt, w')
    /\ prop_get (key (activeFlowId (state w))) (flows (state w)) = Some fl
    /\ (forall k l, prop_get k (flows (state w)) = Some l -> l <> fl ->
                    reify (heap w') l = reify (heap w) l)
    /\ (forall c, In c (historyStack (state w)) ->
                  reify (heap w') c = reify (heap w) c)
    /\ unshared w'.
Proof.
  intros Hw Hu. pose proof Hu as (_ & Hnd & _).
  destruct (handleFunctionCall_unshared now fc w Hw Hu)
    as (w' & fl & Hrun & Hu' & _ & _ & Hg & Hold).
  exists w', fl. split; [exact Hrun|]. split; [exact Hg|].
  split; [|split; [|exact Hu']].
  - intros k l Hl Hne. apply Hold; [|exact Hne].
    apply in_or_app. left. apply (prop_get_loc _ _ _ Hl).
  - intros c Hc. apply Hold; [apply in_or_app; right; exact Hc|].
    intros ->. unfold objects in Hnd. apply NoDup_app in Hnd as (_ & Hd & _).
    apply (Hd fl).
    + apply list_elem_of_In. apply (prop_get_loc _ _ _ Hg).
    + apply elem_of_app. left. apply list_elem_of_In. exact Hc.
Qed.

Lemma nothing_shared_witness :
  let es :=
    [ FormSubmit "add notes"
        (Response (Some "Done.")
           [(1699903000000%N,
             {| name := "present_artifact";
                args := PresentArgs "Notes" "document" "n" None |})]);
      UndoClick;
      RedoClick;
      NewFlowClick 1699903000001 ] in
  unshared world2_undone
  /\ (exists w', forM dispatch es world2_undone = (Ok tt, w') /\ unshared w')
  /\ undo_ok world2_undone.
Proof.
  intros es.
  assert (Hu : unshared world2_undone).
  { split.
    { split; [exists "flow-1"; split; [reflexivity|];
              split; [discriminate | left; reflexivity]|].
      split.
      { apply NoDup_cons. split; [|apply NoDup_singleton].
        intros H. apply list_elem_of_singleton in H. discriminate. }
      split; [intros [H|[H|[]]]; discriminate|].
      split; [eexists; reflexivity|].
      repeat constructor; eexists; reflexivity. }
    split; [compute_done|].
    intros c l [<-|[<-|[<-|[<-|[]]]]] [<-|[<-|[<-|[<-|[]]]]] Hne y Hy Hy';
      try congruence; vm_compute in Hy, Hy';
      repeat (destruct Hy as [<-|Hy]; [intuition discriminate|]);
      exact Hy. }
  assert (Hse : session es world2_undone).
  { split; [repeat constructor|].
    intros w1 H1. vm_compute in H1. injection H1 as <-.
    split; [exact I|].
    intros w2 H2. vm_compute in H2. injection H2 as <-.
    split; [exact I|].
    intros w3 H3. vm_compute in H3. injection H3 as <-.
    split; [exact I|].
    intros w4 _. exact I. }
  split; [exact Hu|]. split.
  - apply (proj1 nothing_shared es world2_undone Hu Hse).
  - apply (proj2 nothing_shared world2_undone Hu).
Defined.

Lemma tool_call_touches_active_only_witness :
  unshared world2_undone
  /\ exists w' fl,
       handleFunctionCall 1699903000000
         {| name := "modify_artifact";
            args := ModifyArgs (Artifact.id planA) "step one, step two" |}
         world2_undone = (Ok tt, w')
       /\ prop_get (key (activeFlowId (state world2_undone)))
                   (flows (state world2_undone)) = Some fl
       /\ (forall k l, prop_get k (flows (state world2_undone)) = Some l ->
                       l <> fl ->
                       reify (heap w') l = reify (heap world2_undone) l)
       /\ (forall c, In c (historyStack (state world2_undone)) ->
                     reify (heap w') c = reify (heap world2_undone) c)
       /\ unshared w'.
Proof.
  assert (Hu : unshared world2_undone).
  { split.
    { split; [exists "flow-1"; split; [reflexivity|];
              split; [discriminate | left; reflexivity]|].
      split.
      { apply NoDup_cons. split; [|apply NoDup_singleton].
        intros H. apply list_elem_of_singleton in H. discriminate. }
      split; [intros [H|[H|[]]]; discriminate|].
      split; [eexists; reflexivity|].
      repeat constructor; eexists; reflexivity. }
    split; [compute_done|].
    intros c l [<-|[<-|[<-|[<-|[]]]]] [<-|[<-|[<-|[<-|[]]]]] Hne y Hy Hy';
      try congruence; vm_compute in Hy, Hy';
      repeat (destruct Hy as [<-|Hy]; [intuition discriminate|]);
      exact Hy. }
  split; [exact Hu|].
  apply (tool_call_touches_active_only 1699903000000
           {| name := "modify_artifact";
              args := ModifyArgs (Artifact.id planA) "step one, step two" |}
           world2_undone eq_refl Hu).
Defined.
